(** * prime-downloader-backend: the format pipeline of the extractor API

    A shallow embedding of the three variants of the server kept in the
    repository ([src/server.js], [src/unnamed/part_000],
    [src/unnamed/part_001]) and the properties of their format
    normalizer, size resolver, result assembler, request handler and
    allowed origins.

    Conventions of the embedding.
    - JavaScript strings are [string]; case conversion and white space
      follow the ASCII part of the language definition.
    - JavaScript numbers that occur in the pipeline (heights, byte counts)
      are integers and are modelled as [Z]: the integers a double holds,
      of a size that prints in plain decimal.  The quotients formed by
      [humanFileSize] are kept exactly, as an integer over a power of 1024
      (division of a double by 1024 only changes its exponent).
    - The fields of a raw record have the types of the extractor's
      output (strings and numbers).  A field that is absent, [undefined]
      or [null] is [None]; truthiness is written out (the empty string
      and [0] are falsy).
    - Exceptions are explicit: fallible calls return a [result].  The
      calls that leave the process (cache, extractor, probes) are
      functions of a [World] and are logged in the order they are made.
    - Objects updated in place (the candidates the probes fill in) live
      in a list and are addressed by their index. *)

From Stdlib Require Import ZArith List String Ascii Bool Lia.
From Stdlib Require Import DecimalString DecimalPos Sorted.
From stdpp Require Import base decidable option list gmap strings.

Local Open Scope string_scope.
Local Open Scope Z_scope.

(** ** JavaScript primitives used by the server *)

Module JS.

(** A value that is [null], [undefined], [NaN] or an integer number. *)
Inductive num : Type :=
| Undefined
| Null
| NaN
| Num (z : Z).

(** Exceptions: a call returns or throws. *)
Inductive result (A : Type) : Type :=
| Ok (a : A)
| Throw (e : string).
Arguments Ok {A} a.
Arguments Throw {A} e.

(** [ToBoolean] on the values above. *)
Definition truthy_num (v : num) : bool :=
  match v with
  | Num z => negb (z =? 0)
  | _ => false
  end.

Definition truthy_str (s : string) : bool :=
  negb (String.eqb s "").

(** [ToBoolean] of an optional integer or string field. *)
Definition truthy_oZ (o : option Z) : bool :=
  match o with Some z => negb (z =? 0) | None => false end.

Definition truthy_ostr (o : option string) : bool :=
  match o with Some s => truthy_str s | None => false end.

(** [a || b] on optional integers: [a] when truthy, else [b]. *)
Definition or_oZ (a b : option Z) : option Z :=
  if truthy_oZ a then a else b.

(** [a || null]: a falsy value collapses to [null]. *)
Definition or_null_Z (a : option Z) : option Z :=
  if truthy_oZ a then a else None.

Definition or_null_str (a : option string) : option string :=
  if truthy_ostr a then a else None.

(** [isNaN(v)]: [ToNumber] of [undefined] is [NaN], of [null] is [0]. *)
Definition isNaN (v : num) : bool :=
  match v with
  | Undefined | NaN => true
  | Null | Num _ => false
  end.

(** Number to string, for an integer. *)
Definition string_of_Z (z : Z) : string :=
  NilZero.string_of_int (Z.to_int z).

(** *** Characters and strings *)

Definition is_upper (c : ascii) : bool :=
  let n := nat_of_ascii c in (65 <=? n)%nat && (n <=? 90)%nat.

Definition is_lower (c : ascii) : bool :=
  let n := nat_of_ascii c in (97 <=? n)%nat && (n <=? 122)%nat.

Definition is_digit (c : ascii) : bool :=
  let n := nat_of_ascii c in (48 <=? n)%nat && (n <=? 57)%nat.

Definition upper_char (c : ascii) : ascii :=
  if is_lower c then ascii_of_nat (nat_of_ascii c - 32) else c.

Definition lower_char (c : ascii) : ascii :=
  if is_upper c then ascii_of_nat (nat_of_ascii c + 32) else c.

(** [toUpperCase] and [toLowerCase], on text of ASCII characters. *)
Fixpoint toUpperCase (s : string) : string :=
  match s with
  | EmptyString => EmptyString
  | String c r => String (upper_char c) (toUpperCase r)
  end.

Fixpoint toLowerCase (s : string) : string :=
  match s with
  | EmptyString => EmptyString
  | String c r => String (lower_char c) (toLowerCase r)
  end.

(** White space and line terminators among the ASCII characters: TAB, LF,
    VT, FF, CR, SP.  (The language has more beyond ASCII, such as
    U+00A0; [trim] is the language's on ASCII text.) *)
Definition is_space (c : ascii) : bool :=
  let n := nat_of_ascii c in
  ((9 <=? n)%nat && (n <=? 13)%nat) || (n =? 32)%nat.

Fixpoint trimStart (s : string) : string :=
  match s with
  | EmptyString => EmptyString
  | String c r => if is_space c then trimStart r else s
  end.

(** [trimEnd]: a character is dropped when it is a space and all that
    follows it has been dropped. *)
Fixpoint trimEnd (s : string) : string :=
  match s with
  | EmptyString => EmptyString
  | String c r =>
      match trimEnd r with
      | EmptyString => if is_space c then EmptyString else String c EmptyString
      | r' => String c r'
      end
  end.

Definition trim (s : string) : string := trimEnd (trimStart s).

(** [s.includes(p)]. *)
Fixpoint includes (p s : string) : bool :=
  String.prefix p s ||
  match s with
  | EmptyString => false
  | String _ r => includes p r
  end.

(** [Array.prototype.includes] on an array of strings. *)
Definition array_includes (l : list string) (s : string) : bool :=
  existsb (String.eqb s) l.

(** [Array.prototype.join] with a separator. *)
Fixpoint join (sep : string) (l : list string) : string :=
  match l with
  | [] => ""
  | [x] => x
  | x :: r => (x +:+ sep +:+ join sep r)
  end.

(** [s.split(sep)] for a separator of one character: the pieces
    between the separators, [[""]] for the empty string. *)
Fixpoint split (sep : ascii) (s : string) : list string :=
  match s with
  | EmptyString => [""]
  | String c r =>
      if bool_decide (c = sep) then "" :: split sep r
      else
        match split sep r with
        | piece :: pieces => String c piece :: pieces
        | [] => [String c ""]
        end
  end.

(** [Array.prototype.indexOf] on an array of strings: the first index
    at which [s] stands, or [-1]. *)
Fixpoint indexOf_from (i : Z) (l : list string) (s : string) : Z :=
  match l with
  | [] => -1
  | x :: r => if String.eqb x s then i else indexOf_from (i + 1) r s
  end.

Definition indexOf (l : list string) (s : string) : Z := indexOf_from 0 l s.

(** *** Reading numbers *)

Definition digit_val (c : ascii) : Z := Z.of_nat (nat_of_ascii c - 48).

(** The longest prefix of decimal digits, its value on top of [acc], the
    number of digits read and the rest of the string. *)
Fixpoint read_digits (s : string) (acc : Z) (n : nat) : Z * nat * string :=
  match s with
  | String c r =>
      if is_digit c then read_digits r (10 * acc + digit_val c) (S n)
      else (acc, n, s)
  | EmptyString => (acc, n, s)
  end.

(** An optional sign: the factor and the rest. *)
Definition read_sign (s : string) : Z * string :=
  match s with
  | String "-" r => (-1, r)
  | String "+" r => (1, r)
  | _ => (1, s)
  end.

(** [parseInt(s, 10)], on text of ASCII characters and for integers of
    magnitude up to [2 ^ 53], which the function returns as they are
    (a larger one is rounded to a double). *)
Definition parseInt (s : string) : num :=
  let '(sg, r) := read_sign (trimStart s) in
  let '(v, n, _) := read_digits r 0 0 in
  match n with
  | O => NaN
  | _ => Num (sg * v)
  end.

(** [a || null] on a number. *)
Definition or_null_num (v : num) : num :=
  if truthy_num v then v else Null.

(** [a || b] on optional strings. *)
Definition or_ostr (a b : option string) : option string :=
  if truthy_ostr a then a else b.

(** A decimal read by [parseFloat]: [NaN], or [m * 10 ^ e]. *)
Inductive float : Type :=
| FNaN
| FDec (m : Z) (e : Z).

(** The exponent part: [e] or [E], an optional sign and at least one
    digit; anything else is no exponent. *)
Definition read_exponent (s : string) : Z :=
  match s with
  | String c r =>
      if bool_decide (c = "e"%char) || bool_decide (c = "E"%char) then
        let '(sg, r') := read_sign r in
        let '(v, n, _) := read_digits r' 0 0 in
        match n with O => 0 | _ => sg * v end
      else 0
  | EmptyString => 0
  end.

(** [parseFloat(s)]: leading white space, a sign, digits with an
    optional fraction and exponent.  (The literal [Infinity] is not
    read; no size string of the server starts with it.) *)
Definition parseFloat (s : string) : float :=
  let '(sg, r) := read_sign (trimStart s) in
  let '(ip, n, r1) := read_digits r 0 0 in
  let '(m, nf, r2) :=
    match r1 with
    | String "." r' => read_digits r' ip 0
    | _ => (ip, O, r1)
    end in
  match (n + nf)%nat with
  | O => FNaN
  | _ => FDec (sg * m) (read_exponent r2 - Z.of_nat nf)
  end.

(** [x || 0] on the result of [parseFloat]. *)
Definition or_zero (x : float) : Z * Z :=
  match x with
  | FNaN => (0, 0)
  | FDec m e => (m, e)
  end.

(** The sign of [b - a] for two decimals. *)
Definition sign_of_difference (b a : Z * Z) : Z :=
  let '(mb, eb) := b in
  let '(ma, ea) := a in
  let e := Z.min ea eb in
  Z.sgn (mb * 10 ^ (eb - e) - ma * 10 ^ (ea - e)).

(** [Array.prototype.sort(cmp)], which is stable: for a comparator that
    is a total preorder the outcome is the sorted arrangement that keeps
    equal elements in their order, built here by insertion from the
    right.  [cmp a b] is the sign of the comparator's number. *)
Section Sort.
Context {A : Type} (cmp : A -> A -> Z).

Fixpoint insert_sorted (x : A) (l : list A) : list A :=
  match l with
  | [] => [x]
  | y :: r => if cmp x y <=? 0 then x :: y :: r else y :: insert_sorted x r
  end.

Definition sort (l : list A) : list A := fold_right insert_sorted [] l.
End Sort.

(** *** Quotients by powers of 1024 and [toFixed(1)] *)

(** The number [q_num / 1024 ^ q_div].  Dividing a double by 1024 is
    exact, so the values [humanFileSize] forms from an integer are of
    this shape. *)
Record quot : Type := { q_num : Z; q_div : nat }.

Definition quot_of_Z (z : Z) : quot := {| q_num := z; q_div := 0 |}.

Definition q_den (q : quot) : Z := 1024 ^ Z.of_nat (q_div q).

(** [q / 1024]. *)
Definition div1024 (q : quot) : quot :=
  {| q_num := q_num q; q_div := S (q_div q) |}.

(** [Math.abs(q) >= 1024]. *)
Definition abs_ge_1024 (q : quot) : bool :=
  1024 * q_den q <=? Z.abs (q_num q).

(** The integer [m] for which [m / 10 - |q|] is closest to zero, the
    larger one on a tie (step 8 of [Number.prototype.toFixed]). *)
Definition tenths (q : quot) : Z :=
  (20 * Z.abs (q_num q) + q_den q) / (2 * q_den q).

(** [q.toFixed(1)], for a quotient of magnitude under [10 ^ 21], where
    the function prints plain decimals. *)
Definition toFixed1 (q : quot) : string :=
  let m := tenths q in
  let s := string_of_Z (m / 10) +:+ "." +:+ string_of_Z (m mod 10) in
  if q_num q <? 0 then "-" +:+ s else s.

End JS.

Import JS.

(** ** Helpers shared by the three variants *)

(** [humanFileSize] has the same text in [src/server.js] (lines 54-65),
    [part_000] (58-69) and [part_001] (57-68). *)

Definition thresh : Z := 1024.

Definition units : list string := ["KB"; "MB"; "GB"; "TB"].

(** The [do ... while] loop: the body runs, then the test decides on
    another round.  [u] stops the loop at the last unit, so three more
    rounds after the first are all the loop can make. *)
Fixpoint do_while (rounds : nat) (bytes : quot) (u : Z) : quot * Z :=
  let bytes := div1024 bytes in
  let u := u + 1 in
  match rounds with
  | O => (bytes, u)
  | S rounds' =>
      if abs_ge_1024 bytes && (u <? Z.of_nat (length units) - 1)
      then do_while rounds' bytes u
      else (bytes, u)
  end.

Definition humanFileSize (bytes : num) : string :=
  if negb (truthy_num bytes) || isNaN bytes then "Unknown"
  else
    match bytes with
    | Num z =>
        if Z.abs z <? thresh then string_of_Z z +:+ " B"
        else
          let '(b, u) := do_while 3 (quot_of_Z z) (-1) in
          toFixed1 b +:+ " " +:+ nth (Z.to_nat u) units "undefined"
    | _ => "Unknown"
    end.

(** [humanFileSize] on an argument that need not be a number.  The
    function reads three things off its argument: its truth value
    ([!bytes]), the number it converts to ([isNaN], [Math.abs], [/=]),
    [None] being [NaN], and the text it converts to ([bytes + " B"]). *)
Record argument : Type := {
  to_boolean : bool;
  to_number : option Z;
  to_string : string
}.

Definition argument_of (v : num) : argument :=
  match v with
  | Undefined =>
      {| to_boolean := false; to_number := None; to_string := "undefined" |}
  | Null =>
      {| to_boolean := false; to_number := Some 0; to_string := "null" |}
  | NaN => {| to_boolean := false; to_number := None; to_string := "NaN" |}
  | Num z =>
      {| to_boolean := negb (z =? 0); to_number := Some z;
         to_string := string_of_Z z |}
  end.

Definition humanFileSize_of (bytes : argument) : string :=
  if negb (to_boolean bytes) || bool_decide (to_number bytes = None)
  then "Unknown"
  else
    match to_number bytes with
    | Some z =>
        if Z.abs z <? thresh then to_string bytes +:+ " B"
        else
          let '(b, u) := do_while 3 (quot_of_Z z) (-1) in
          toFixed1 b +:+ " " +:+ nth (Z.to_nat u) units "undefined"
    | None => "Unknown"
    end.

(** ** Data model *)

(** A raw format record of the extractor ([meta.formats[i]]).  Every field
    is optional; [None] stands for an absent, [undefined] or [null]
    field. *)
Module Raw.
Record t : Type := mk {
  url : option string;
  vcodec : option string;
  acodec : option string;
  format : option string;
  format_note : option string;
  height : option Z;
  width : option Z;
  tbr : option Z;
  ext : option string;
  filesize : option Z;
  filesize_approx : option Z;
  format_id : option string
}.

(** The record with no field at all, [{}]. *)
Definition empty : t :=
  mk None None None None None None None None None None None None.
End Raw.

(** The [type] of a candidate: the strings ["video"], ["audio"] and
    ["image"]. *)
Inductive media : Type := video | audio | image.

#[global] Instance media_eq_dec : EqDecision media.
Proof. solve_decision. Defined.

(** The objects pushed to [out].  [src/server.js] and [part_001] set the
    first five fields only; [part_000] sets all of them. *)
Module Cand.
Record t : Type := mk {
  label : string;
  url : string;
  type : media;
  filesize : num;
  ext : option string;
  width : option Z;
  height : option Z;
  tbr : option Z;
  format_id : option string
}.

(** [f.filesize = len]. *)
Definition set_filesize (len : num) (f : t) : t :=
  mk (label f) (url f) (type f) len (ext f)
     (width f) (height f) (tbr f) (format_id f).
End Cand.

(** An optional integer as a value: [null] when absent. *)
Definition num_of_oZ (o : option Z) : num :=
  match o with Some z => Num z | None => Null end.

(** The part of a parsed [URL] object the server reads. *)
Record URL : Type := { protocol : string }.

(** [f.filesize || f.filesize_approx || null], the same in the three
    variants. *)
Definition declared_size (f : Raw.t) : num :=
  num_of_oZ (or_null_Z (or_oZ (Raw.filesize f) (Raw.filesize_approx f))).

(** [f.vcodec === "none" || (f.acodec && !f.vcodec)], the same in the
    three variants. *)
Definition no_video (f : Raw.t) : bool :=
  bool_decide (Raw.vcodec f = Some "none")
  || (truthy_ostr (Raw.acodec f) && negb (truthy_ostr (Raw.vcodec f))).

(** The [for ... of] loop of [normalizeAndFilterFormats]: the state is
    the array [out] and the set [seen]; [visit] is the loop body and
    returns the state unchanged on [continue]. *)
Definition loop_state : Type := list Cand.t * gset string.

Definition for_of (visit : loop_state -> option Raw.t -> loop_state)
    (rawFormats : list (option Raw.t)) : loop_state :=
  fold_left visit rawFormats ([], ∅).

(** ** The world around the handler *)

(** Response headers the size probe reads. *)
Record Headers : Type := {
  content_length : option string;
  content_range : option string
}.

(** One entry of the response's [formats] array. *)
Module Mapped.
Record t : Type := mk {
  label : string;
  size : string;
  url : string;
  type : media
}.
End Mapped.

(** The response payload; [title] and [thumbnail] exist in [part_001]
    only. *)
Record Payload : Type := {
  title : option string;
  thumbnail : option string;
  formats : list Mapped.t
}.

(** The metadata object printed by the extractor. *)
Record Meta : Type := {
  meta_title : option string;
  meta_thumbnail : option string;
  meta_formats : option (list (option Raw.t))
}.

(** What [JSON.parse] makes of a text that parses: [null], another falsy
    value ([0], [false], [""]), or a value whose properties can be read. *)
Inductive json_meta : Type :=
| MetaNull
| MetaFalsy
| MetaObj (m : Meta).

(** The standard output of the extractor as lines 147-153 of
    [src/server.js] (187-195 of [part_000]) take it apart: the whole text
    parses; or it does not and its first line starting with a brace is
    parsed instead; or it does not and there is no such line. *)
Inductive stdout_json : Type :=
| Whole (v : json_meta)
| FirstLine (v : result json_meta)
| NoLine (e : string).

(** Calls that leave the process. *)
Inductive call : Type :=
| CacheGet (key : string)
| CacheSet (key : string) (value : Payload) (seconds : Z)
| ExecFile (file : string) (args : list string)
| AxiosHead (url : string)
| AxiosGet (url : string).

(** The collaborators, as functions of their arguments: what each call
    returns or throws.  [JSON.stringify] of a payload is kept as the
    payload, [JSON_parse] reads a cached text back. *)
Record World : Type := {
  new_URL : string -> result URL;
  redis_get : string -> result (option string);
  redis_set : string -> Payload -> result unit;
  JSON_parse : string -> result Payload;
  execFileAsync : string -> list string -> result string;
  read_stdout : string -> stdout_json;
  axios_head : string -> result Headers;
  axios_get : string -> result Headers
}.

(** The environment variables read at start-up. *)
Record Env : Type := {
  env_API_KEY : option string;
  env_REDIS_URL : option string
}.

(** The request: [req.query.url], [req.query.apikey] and
    [req.headers["x-api-key"]]. *)
Record Request : Type := {
  query_url : option string;
  query_apikey : option string;
  header_x_api_key : option string
}.

Inductive body : Type :=
| Error (error : string)
| Json (payload : Payload).

(** What the client gets: a status and a JSON body, or nothing when the
    handler's promise rejects before it has answered. *)
Inductive response : Type :=
| Response (status : Z) (b : body)
| Unhandled (e : string).

(** *** Computations that call out and may throw *)

(** A computation appends the calls it makes to the log and returns or
    throws. *)
Definition M (A : Type) : Type := list call -> result A * list call.

Definition ret {A} (a : A) : M A := fun log => (Ok a, log).

Definition throw {A} (e : string) : M A := fun log => (Throw e, log).

Definition bind {A B} (m : M A) (k : A -> M B) : M B :=
  fun log =>
    match m log with
    | (Ok a, log') => k a log'
    | (Throw e, log') => (Throw e, log')
    end.

(** [try { m } catch (e) { h e }]. *)
Definition try_catch {A} (m : M A) (h : string -> M A) : M A :=
  fun log =>
    match m log with
    | (Ok a, log') => (Ok a, log')
    | (Throw e, log') => h e log'
    end.

(** [await] of an outside call: it is logged, then returns or throws. *)
Definition await {A} (c : call) (r : result A) : M A :=
  fun log => (r, (log ++ [c])%list).

(** A pure step that may throw. *)
Definition lift {A} (r : result A) : M A := fun log => (r, log).

Notation "'let!' x ':=' m 'in' k" := (bind m (fun x => k))
  (at level 10, x pattern, m at level 100, k at level 200).

(** The request as a whole: the response and the calls made. *)
Definition serve (h : M response) : response * list call :=
  match h [] with
  | (Ok r, log) => (r, log)
  | (Throw e, log) => (Unhandled e, log)
  end.

(** [error.message || fallback]. *)
Definition message_or (e fallback : string) : string :=
  if truthy_str e then e else fallback.

(** Indices of the candidates [formats.filter(f => !f.filesize)] keeps; an
    index stands for the object, which the probes update in place. *)
(** [formats.map(async f => ...)] awaited by [Promise.all]: [body i] acts
    on the object at index [i] of the store.  The bodies are run in turn;
    each one writes to its own object only, so the store at the end is
    the one any interleaving gives.  The log lists the calls body by
    body: it holds the calls that are made and, for one body, their
    order; calls of different bodies overlap in time and have no order
    between them. *)
Fixpoint for_each {S : Type} (body : nat -> S -> M S) (indices : list nat)
    (store : S) : M S :=
  match indices with
  | [] => ret store
  | i :: rest => let! store := body i store in for_each body rest store
  end.

Definition without_size (formats : list Cand.t) : list nat :=
  List.filter
    (fun i => match formats !! i with
              | Some f => negb (truthy_num (Cand.filesize f))
              | None => false
              end)
    (seq 0 (length formats)).

(** ** The format normalizer, variant by variant *)

(** [src/server.js], lines 77-109. *)
Module Server.
Section Normalizer.
(** [new URL(s)]: the parsed object, or the exception. *)
Variable new_URL : string -> result URL.

(** Lines 92-94. *)
Definition classify (f : Raw.t) : media :=
  let type := video in
  let type := if no_video f then audio else type in
  let type :=
    if match Raw.format f with
       | Some s => includes "audio" s
       | None => false
       end
    then audio else type in
  type.

(** Lines 96-98. *)
Definition make_label (f : Raw.t) : string :=
  let height_p :=
    match Raw.height f with
    | Some h => string_of_Z h +:+ "p"
    | None => ""
    end in
  if truthy_ostr (Raw.format_note f)
  then trim (default "" (Raw.format_note f) +:+ " " +:+
             (if truthy_oZ (Raw.height f) then height_p else ""))
  else if truthy_oZ (Raw.height f) then height_p
  else
    let upper := toUpperCase <$> Raw.ext f in
    if truthy_ostr upper then default "" upper else "Unknown".

(** Lines 100-106. *)
Definition candidate (f : Raw.t) (u : string) : Cand.t :=
  Cand.mk (make_label f) u (classify f) (declared_size f)
          (or_null_str (Raw.ext f)) None None None None.

(** The loop body, lines 82-106.  [!f?.url] holds for a [null] entry,
    a missing url and the empty string. *)
Definition visit (st : loop_state) (f : option Raw.t) : loop_state :=
  let '(out, seen) := st in
  match f with
  | None => st
  | Some f =>
      match Raw.url f with
      | None => st
      | Some u =>
          if negb (truthy_str u) then st
          else
            match new_URL u with
            | Throw _ => st
            | Ok parsed =>
                if negb (array_includes ["http:"; "https:"]
                           (protocol parsed))
                then st
                else if bool_decide (u ∈ seen) then st
                else ((out ++ [candidate f u])%list, {[u]} ∪ seen)
            end
      end
  end.

Definition normalizeAndFilterFormats (rawFormats : list (option Raw.t))
  : list Cand.t :=
  fst (for_of visit rawFormats).
End Normalizer.

Section Handler.
Variable w : World.
Variable env : Env.

(** Lines 19-29: [redis] is a client exactly when [ENABLE_CACHING]. *)
Definition API_KEY : option string := or_null_str (env_API_KEY env).
Definition REDIS_URL : option string := or_null_str (env_REDIS_URL env).
Definition ENABLE_CACHING : bool := truthy_ostr REDIS_URL.

(** Lines 67-75. *)
Definition getContentLength (url : string) : M num :=
  try_catch
    (let! resp := await (AxiosHead url) (axios_head w url) in
     let len := content_length resp in
     ret (if truthy_ostr len then parseInt (default "" len) else Null))
    (fun _ => ret Null).

(** Lines 162-165, the function mapped over the candidates to probe. *)
Definition probe (i : nat) (formats : list Cand.t) : M (list Cand.t) :=
  match formats !! i with
  | None => ret formats
  | Some f =>
      let! len := getContentLength (Cand.url f) in
      ret (if truthy_num len
           then <[i := Cand.set_filesize len f]> formats
           else formats)
  end.

(** Lines 168-173. *)
Definition to_mapped (f : Cand.t) : Mapped.t :=
  Mapped.mk (Cand.label f) (humanFileSize (Cand.filesize f))
            (Cand.url f) (Cand.type f).

(** Lines 147-155. *)
Definition read_meta (stdout : string) : M Meta :=
  let! meta :=
    match read_stdout w stdout with
    | Whole v => ret v
    | FirstLine v => lift v
    | NoLine _ => ret MetaNull
    end in
  match meta with
  | MetaObj m => ret m
  | MetaNull | MetaFalsy => throw "yt-dlp returned no valid JSON"
  end.

(** Lines 137-181, the body of the outer [try]. *)
Definition pipeline (targetUrl cacheKey : string) : M response :=
  let ytDlpPath := "./yt-dlp" in
  let args := ["-j"; "--no-warnings"; targetUrl] in
  let! stdout :=
    await (ExecFile ytDlpPath args) (execFileAsync w ytDlpPath args) in
  let! meta := read_meta stdout in
  let rawFormats := default [] (meta_formats meta) in
  let formats := normalizeAndFilterFormats (new_URL w) rawFormats in
  let! formats := for_each probe (take 6 (without_size formats)) formats in
  let mapped := map to_mapped formats in
  let payload :=
    {| title := None; thumbnail := None; formats := mapped |} in
  let! _ :=
    if ENABLE_CACHING
    then await (CacheSet cacheKey payload 300)
               (redis_set w cacheKey payload)
    else ret tt in
  ret (Response 200 (Json payload)).

(** Lines 130-134: [Some] is the early return on a hit. *)
Definition cache_lookup (cacheKey : string) : M (option response) :=
  if ENABLE_CACHING then
    let! cached := await (CacheGet cacheKey) (redis_get w cacheKey) in
    if truthy_ostr cached then
      let! v := lift (JSON_parse w (default "" cached)) in
      ret (Some (Response 200 (Json v)))
    else ret None
  else ret None.

(** Lines 123-186, the handler of [GET /api/extract]. *)
Definition extract (req : Request) : M response :=
  let targetUrl := query_url req in
  if negb (truthy_ostr targetUrl)
  then ret (Response 400 (Error "Missing url parameter"))
  else
    let targetUrl := default "" targetUrl in
    match new_URL w targetUrl with
    | Throw _ => ret (Response 400 (Error "Invalid url"))
    | Ok _ =>
        let cacheKey := "extract:" +:+ targetUrl in
        let! hit := cache_lookup cacheKey in
        match hit with
        | Some r => ret r
        | None =>
            try_catch (pipeline targetUrl cacheKey)
              (fun e =>
                 ret (Response 500
                        (Error (message_or e "Failed to extract formats"))))
        end
    end.
End Handler.
(** The configuration of the [cors] middleware;
    [env_ALLOWED_ORIGINS] is [process.env.ALLOWED_ORIGINS]. *)
Section Middleware.
Variable env_ALLOWED_ORIGINS : option string.

(** Line 18. *)
Definition ALLOWED_ORIGINS : list string :=
  List.filter truthy_str
    (split "," (default "" (or_ostr env_ALLOWED_ORIGINS (Some "")))).

(** Lines 35-43, the [origin] function: [Ok true] stands for
    [callback(null, true)] and [Throw e] for
    [callback(new Error(e), false)].  An absent origin is [undefined],
    which no array of strings includes. *)
Definition cors_origin (origin : option string) : result bool :=
  let listed :=
    match origin with
    | Some o => array_includes ALLOWED_ORIGINS o
    | None => false
    end in
  if negb (truthy_ostr origin) || (length ALLOWED_ORIGINS =? 0)%nat || listed
  then Ok true
  else Throw "CORS policy: This origin is not allowed".
End Middleware.
End Server.

(** [src/unnamed/part_000], lines 101-143. *)
Module Part000.
Section Normalizer.
Variable new_URL : string -> result URL.

(** [/audio/i.test(s)]: without the [u] flag a character outside ASCII
    never matches an ASCII letter, so the test is an ASCII
    case-insensitive search. *)
Definition test_audio_i (s : string) : bool :=
  includes "audio" (toLowerCase s).

Definition image_exts : list string :=
  ["jpg"; "jpeg"; "png"; "webp"; "gif"].

(** Lines 117-120: four assignments in a row, the last one that fires
    decides. *)
Definition classify (f : Raw.t) : media :=
  let type := video in
  let type := if no_video f then audio else type in
  let type :=
    if truthy_ostr (Raw.format f)
       && test_audio_i (default "" (Raw.format f))
    then audio else type in
  let type :=
    if truthy_ostr (Raw.ext f)
       && array_includes image_exts (toLowerCase (default "" (Raw.ext f)))
    then image else type in
  type.

(** Lines 123-126.  (Line 122 binds a [height] that is never read.) *)
Definition labelParts (f : Raw.t) : list string :=
  let parts := [] in
  let parts :=
    if truthy_ostr (Raw.format_note f)
    then (parts ++ [trim (default "" (Raw.format_note f))])%list
    else parts in
  let parts :=
    if truthy_oZ (Raw.height f)
    then (parts ++ [string_of_Z (default 0 (Raw.height f)) +:+ "p"])%list
    else parts in
  let parts :=
    if (length parts =? 0)%nat && truthy_ostr (Raw.format f)
    then (parts ++ [default "" (Raw.format f)])%list
    else parts in
  parts.

(** Line 128. *)
Definition make_label (f : Raw.t) : string :=
  let joined := join " " (labelParts f) in
  if truthy_str joined then joined
  else if truthy_ostr (Raw.ext f)
       then toUpperCase (default "" (Raw.ext f))
       else "Unknown".

(** Lines 130-140. *)
Definition candidate (f : Raw.t) (u : string) : Cand.t :=
  Cand.mk (make_label f) u (classify f) (declared_size f)
          (or_null_str (Raw.ext f))
          (or_null_Z (Raw.width f)) (or_null_Z (Raw.height f))
          (or_null_Z (Raw.tbr f)) (or_null_str (Raw.format_id f)).

(** The loop body, lines 105-140. *)
Definition visit (st : loop_state) (f : option Raw.t) : loop_state :=
  let '(out, seen) := st in
  match f with
  | None => st
  | Some f =>
      match Raw.url f with
      | None => st
      | Some u =>
          if negb (truthy_str u) then st
          else
            match new_URL u with
            | Throw _ => st
            | Ok parsed =>
                if negb (array_includes ["http:"; "https:"]
                           (protocol parsed))
                then st
                else if bool_decide (u ∈ seen) then st
                else ((out ++ [candidate f u])%list, {[u]} ∪ seen)
            end
      end
  end.

Definition normalizeAndFilterFormats (rawFormats : list (option Raw.t))
  : list Cand.t :=
  fst (for_of visit rawFormats).
End Normalizer.

(** [String(len).match(/\/(\d+)$/)]: the first slash that is followed
    by digits only, up to the end; the group is those digits. *)
Definition all_digits (s : string) : bool :=
  forallb is_digit (list_ascii_of_string s).

Fixpoint match_total (s : string) : option string :=
  match s with
  | EmptyString => None
  | String c r =>
      if bool_decide (c = "/"%char) && truthy_str r && all_digits r
      then Some r
      else match_total r
  end.

(** Lines 221-233, the comparator given to [mapped.sort]: the sign of
    the number it returns. *)
Definition compare_mapped (a b : Mapped.t) : Z :=
  if bool_decide (Mapped.type a = Mapped.type b) then
    let as_ := or_zero (parseFloat (Mapped.size a)) in
    let bs := or_zero (parseFloat (Mapped.size b)) in
    sign_of_difference bs as_
  else if bool_decide (Mapped.type a = video) then -1
  else if bool_decide (Mapped.type b = video) then 1
  else if bool_decide (Mapped.type a = audio) then -1
  else 1.

Section Handler.
Variable w : World.
Variable env : Env.

(** Lines 20-31. *)
Definition API_KEY : option string := or_null_str (env_API_KEY env).
Definition REDIS_URL : option string := or_null_str (env_REDIS_URL env).
Definition ENABLE_CACHING : bool := truthy_ostr REDIS_URL.

(** Lines 79-95, the fallback inside the [catch]: [Some v] is a
    [return v], [None] leaves the block without returning. *)
Definition ranged_get (url : string) : M (option num) :=
  try_catch
    (let! resp := await (AxiosGet url) (axios_get w url) in
     let len := or_ostr (content_range resp) (content_length resp) in
     if truthy_ostr len then
       let len := default "" len in
       match match_total len with
       | Some digits => ret (Some (parseInt digits))
       | None => ret (Some (or_null_num (parseInt len)))
       end
     else ret None)
    (fun _ => ret (Some Null)).

(** Lines 72-98. *)
Definition getContentLength (url : string) : M num :=
  let! returned :=
    try_catch
      (let! resp := await (AxiosHead url) (axios_head w url) in
       let len := content_length resp in
       ret (Some (if truthy_ostr len
                  then parseInt (default "" len) else Null)))
      (fun _ => ranged_get url) in
  match returned with
  | Some v => ret v
  | None => ret Null
  end.

(** Lines 205-210, the function mapped over a slice. *)
Definition probe (i : nat) (formats : list Cand.t) : M (list Cand.t) :=
  match formats !! i with
  | None => ret formats
  | Some f =>
      try_catch
        (let! len := getContentLength (Cand.url f) in
         ret (if truthy_num len
              then <[i := Cand.set_filesize len f]> formats
              else formats))
        (fun _ => ret formats)
  end.

(** Lines 202-211: the [for] loop over the slices of [toCheck].  Each
    round moves [i] on by [concurrency], so [length toCheck] rounds are
    more than the loop can make. *)
Definition concurrency : nat := 6.

Fixpoint probe_slices (rounds : nat) (i : nat) (toCheck : list nat)
    (formats : list Cand.t) : M (list Cand.t) :=
  match rounds with
  | O => ret formats
  | S rounds' =>
      if (i <? length toCheck)%nat then
        let slice := take concurrency (drop i toCheck) in
        let! formats := for_each probe slice formats in
        probe_slices rounds' (i + concurrency) toCheck formats
      else ret formats
  end.

(** Lines 214-219. *)
Definition to_mapped (f : Cand.t) : Mapped.t :=
  Mapped.mk
    (if truthy_str (Cand.label f) then Cand.label f
     else if truthy_oZ (Cand.height f)
          then string_of_Z (default 0 (Cand.height f)) +:+ "p"
          else if truthy_ostr (Cand.ext f)
               then default "" (Cand.ext f) else "file")
    (humanFileSize (Cand.filesize f))
    (Cand.url f) (Cand.type f).

(** Lines 187-197: [meta.formats] throws on [null]. *)
Definition read_meta (stdout : string) : M (option Meta) :=
  let! meta :=
    match read_stdout w stdout with
    | Whole v => ret v
    | FirstLine v => lift v
    | NoLine e => throw e
    end in
  match meta with
  | MetaObj m => ret (Some m)
  | MetaFalsy => ret None
  | MetaNull => throw "Cannot read properties of null (reading 'formats')"
  end.

(** Lines 180-244, the body of the outer [try]. *)
Definition pipeline (targetUrl cacheKey : string) : M response :=
  let args := ["-j"; "--no-warnings"; targetUrl] in
  let! stdout :=
    await (ExecFile "yt-dlp" args) (execFileAsync w "yt-dlp" args) in
  let! meta := read_meta stdout in
  let rawFormats := default [] (meta ≫= meta_formats) in
  let formats := normalizeAndFilterFormats (new_URL w) rawFormats in
  let toCheck := without_size formats in
  let! formats := probe_slices (length toCheck) 0 toCheck formats in
  let mapped := map to_mapped formats in
  let mapped := sort compare_mapped mapped in
  let payload :=
    {| title := None; thumbnail := None; formats := mapped |} in
  let! _ :=
    if ENABLE_CACHING
    then try_catch
           (await (CacheSet cacheKey payload 300)
                  (redis_set w cacheKey payload))
           (fun _ => ret tt)
    else ret tt in
  ret (Response 200 (Json payload)).

(** Lines 167-177: [Some] is the early return on a hit. *)
Definition cache_lookup (cacheKey : string) : M (option response) :=
  if ENABLE_CACHING then
    try_catch
      (let! cached := await (CacheGet cacheKey) (redis_get w cacheKey) in
       if truthy_ostr cached then
         let! parsed := lift (JSON_parse w (default "" cached)) in
         ret (Some (Response 200 (Json parsed)))
       else ret None)
      (fun _ => ret None)
  else ret None.

(** Lines 151-156: [true] when the request is turned away. *)
Definition key_rejected (req : Request) : bool :=
  if truthy_ostr API_KEY then
    let key := or_ostr (header_x_api_key req) (query_apikey req) in
    negb (truthy_ostr key) || negb (bool_decide (key = API_KEY))
  else false.

(** Lines 146-249, the handler of [GET /api/extract]. *)
Definition extract (req : Request) : M response :=
  let targetUrl := query_url req in
  if negb (truthy_ostr targetUrl)
  then ret (Response 400 (Error "Missing url parameter"))
  else
    let targetUrl := default "" targetUrl in
    if key_rejected req
    then ret (Response 401 (Error "Missing or invalid API key"))
    else
      match new_URL w targetUrl with
      | Throw _ => ret (Response 400 (Error "Invalid url"))
      | Ok _ =>
          let cacheKey := "extract:" +:+ targetUrl in
          let! hit := cache_lookup cacheKey in
          match hit with
          | Some r => ret r
          | None =>
              try_catch (pipeline targetUrl cacheKey)
                (fun _ =>
                   ret (Response 500 (Error "Failed to extract formats")))
          end
      end.
End Handler.
(** The configuration of the [cors] middleware;
    [env_ALLOWED_ORIGINS] is [process.env.ALLOWED_ORIGINS]. *)
Section Middleware.
Variable env_ALLOWED_ORIGINS : option string.

(** Line 18. *)
Definition ALLOWED_ORIGINS : list string :=
  List.filter truthy_str
    (split "," (default "" (or_ostr env_ALLOWED_ORIGINS (Some "")))).

(** Lines 39-46, the [origin] function: [Ok true] stands for
    [callback(null, true)] and [Throw e] for
    [callback(new Error(e), false)]. *)
Definition cors_origin (origin : option string) : result bool :=
  if negb (truthy_ostr origin) then Ok true
  else if (length ALLOWED_ORIGINS =? 0)%nat then Ok true
  else if negb (match origin with
                | Some o => indexOf ALLOWED_ORIGINS o
                | None => -1
                end =? -1)
  then Ok true
  else Throw "CORS policy: This origin is not allowed".
End Middleware.
End Part000.

(** [src/unnamed/part_001], lines 80-112. *)
Module Part001.
Section Normalizer.
Variable new_URL : string -> result URL.

(** Line 95: the codec test is the only one. *)
Definition classify (f : Raw.t) : media :=
  let type := video in
  let type := if no_video f then audio else type in
  type.

(** Lines 97-101. *)
Definition make_label (f : Raw.t) : string :=
  let height_p :=
    match Raw.height f with
    | Some h => string_of_Z h +:+ "p"
    | None => ""
    end in
  if truthy_ostr (Raw.format_note f)
  then trim (default "" (Raw.format_note f) +:+ " " +:+
             (if truthy_oZ (Raw.height f) then height_p else ""))
  else if truthy_oZ (Raw.height f) then height_p
  else
    let upper := toUpperCase <$> Raw.ext f in
    if truthy_ostr upper then default "" upper else "Unknown".

(** Lines 103-109. *)
Definition candidate (f : Raw.t) (u : string) : Cand.t :=
  Cand.mk (make_label f) u (classify f) (declared_size f)
          (or_null_str (Raw.ext f)) None None None None.

(** The loop body, lines 85-109: the url is parsed and the result
    dropped; there is no test of the protocol. *)
Definition visit (st : loop_state) (f : option Raw.t) : loop_state :=
  let '(out, seen) := st in
  match f with
  | None => st
  | Some f =>
      match Raw.url f with
      | None => st
      | Some u =>
          if negb (truthy_str u) then st
          else
            match new_URL u with
            | Throw _ => st
            | Ok _ =>
                if bool_decide (u ∈ seen) then st
                else ((out ++ [candidate f u])%list, {[u]} ∪ seen)
            end
      end
  end.

Definition normalizeAndFilterFormats (rawFormats : list (option Raw.t))
  : list Cand.t :=
  fst (for_of visit rawFormats).
End Normalizer.

Section Handler.
Variable w : World.

(** Lines 20-28: caching is switched off in the text, so [redis]
    stays [null]. *)
Definition ENABLE_CACHING : bool := false.

(** Lines 70-78. *)
Definition getContentLength (url : string) : M num :=
  try_catch
    (let! resp := await (AxiosHead url) (axios_head w url) in
     let len := content_length resp in
     ret (if truthy_ostr len then parseInt (default "" len) else Null))
    (fun _ => ret Null).

(** Lines 164-167. *)
Definition probe (i : nat) (formats : list Cand.t) : M (list Cand.t) :=
  match formats !! i with
  | None => ret formats
  | Some f =>
      let! len := getContentLength (Cand.url f) in
      ret (if truthy_num len
           then <[i := Cand.set_filesize len f]> formats
           else formats)
  end.

(** Lines 170-175. *)
Definition to_mapped (f : Cand.t) : Mapped.t :=
  Mapped.mk (Cand.label f) (humanFileSize (Cand.filesize f))
            (Cand.url f) (Cand.type f).

(** Lines 147-155. *)
Definition read_meta (stdout : string) : M Meta :=
  let! meta :=
    match read_stdout w stdout with
    | Whole v => ret v
    | FirstLine v => lift v
    | NoLine _ => ret MetaNull
    end in
  match meta with
  | MetaObj m => ret m
  | MetaNull | MetaFalsy => throw "yt-dlp returned no valid JSON"
  end.

(** Lines 141-183, the body of the outer [try]. *)
Definition pipeline (targetUrl cacheKey : string) : M response :=
  let args := ["-j"; "--no-warnings"; targetUrl] in
  let! stdout :=
    await (ExecFile "yt-dlp" args) (execFileAsync w "yt-dlp" args) in
  let! meta := read_meta stdout in
  let rawFormats := default [] (meta_formats meta) in
  let formats := normalizeAndFilterFormats (new_URL w) rawFormats in
  let! formats := for_each probe (take 6 (without_size formats)) formats in
  let mapped := map to_mapped formats in
  let payload :=
    {| title := meta_title meta; thumbnail := meta_thumbnail meta;
       formats := mapped |} in
  let! _ :=
    if ENABLE_CACHING
    then await (CacheSet cacheKey payload 300)
               (redis_set w cacheKey payload)
    else ret tt in
  ret (Response 200 (Json payload)).

(** Lines 134-138. *)
Definition cache_lookup (cacheKey : string) : M (option response) :=
  if ENABLE_CACHING then
    let! cached := await (CacheGet cacheKey) (redis_get w cacheKey) in
    if truthy_ostr cached then
      let! v := lift (JSON_parse w (default "" cached)) in
      ret (Some (Response 200 (Json v)))
    else ret None
  else ret None.

(** Lines 124-188, the handler of [GET /api/extract]. *)
Definition extract (req : Request) : M response :=
  let targetUrl := query_url req in
  if negb (truthy_ostr targetUrl)
  then ret (Response 400 (Error "Missing url parameter"))
  else
    let targetUrl := default "" targetUrl in
    match new_URL w targetUrl with
    | Throw _ => ret (Response 400 (Error "Invalid url"))
    | Ok _ =>
        let cacheKey := "extract:" +:+ targetUrl in
        let! hit := cache_lookup cacheKey in
        match hit with
        | Some r => ret r
        | None =>
            try_catch (pipeline targetUrl cacheKey)
              (fun e =>
                 ret (Response 500
                        (Error (message_or e "Failed to extract formats"))))
        end
    end.
End Handler.
(** The configuration of the [cors] middleware;
    [env_ALLOWED_ORIGINS] is [process.env.ALLOWED_ORIGINS]. *)
Section Middleware.
Variable env_ALLOWED_ORIGINS : option string.

(** Line 19. *)
Definition ALLOWED_ORIGINS : list string :=
  split "," (default "" (or_ostr env_ALLOWED_ORIGINS (Some "*"))).

(** Lines 34-44, the [origin] function: [Ok true] stands for
    [callback(null, true)] and [Throw e] for
    [callback(new Error(e), false)]. *)
Definition cors_origin (origin : option string) : result bool :=
  let listed :=
    match origin with
    | Some o => array_includes ALLOWED_ORIGINS o
    | None => false
    end in
  if negb (truthy_ostr origin) || array_includes ALLOWED_ORIGINS "*" || listed
  then Ok true
  else Throw "CORS not allowed".
End Middleware.
End Part001.

(** ** A URL constructor to run examples with *)

(** The scheme states of the WHATWG parser behind [new URL(s)] with no
    base: the input must start with an ASCII letter followed by letters,
    digits, [+], [-] or [.] up to a colon, and the protocol is that
    scheme in lower case with the colon.  For the schemes that need a
    host ([http], [https], [ftp], [ws], [wss]) the host after the slashes
    must not be empty.  The rest of the parser (ports, host code points,
    address literals) is not reproduced: the theorems below hold for
    every constructor, and this one only evaluates the examples. *)
Module Whatwg.
Definition is_alpha (c : ascii) : bool := is_upper c || is_lower c.

Definition is_scheme_char (c : ascii) : bool :=
  is_alpha c || is_digit c
  || bool_decide (c = "+"%char) || bool_decide (c = "-"%char)
  || bool_decide (c = "."%char).

(** The scheme read so far (lower case, reversed order avoided by
    appending) and the text after the colon. *)
Fixpoint scheme_state (s : string) (buffer : string)
  : option (string * string) :=
  match s with
  | EmptyString => None
  | String c r =>
      if bool_decide (c = ":"%char) then Some (buffer, r)
      else if is_scheme_char c
           then scheme_state r (buffer +:+ String (lower_char c) "")
           else None
  end.

Definition is_slash (c : ascii) : bool :=
  bool_decide (c = "/"%char) || bool_decide (c = "\"%char).

Fixpoint skip_slashes (s : string) : string :=
  match s with
  | String c r => if is_slash c then skip_slashes r else s
  | EmptyString => s
  end.

Definition host_missing (s : string) : bool :=
  match skip_slashes s with
  | EmptyString => true
  | String c _ =>
      bool_decide (c = "?"%char) || bool_decide (c = "#"%char)
  end.

Definition needs_host (scheme : string) : bool :=
  array_includes ["http"; "https"; "ftp"; "ws"; "wss"] scheme.

(** Leading and trailing C0 controls and spaces are stripped first. *)
Definition is_c0_or_space (c : ascii) : bool := (nat_of_ascii c <=? 32)%nat.

Fixpoint strip_start (s : string) : string :=
  match s with
  | EmptyString => EmptyString
  | String c r => if is_c0_or_space c then strip_start r else s
  end.

Fixpoint strip_end (s : string) : string :=
  match s with
  | EmptyString => EmptyString
  | String c r =>
      match strip_end r with
      | EmptyString =>
          if is_c0_or_space c then EmptyString else String c EmptyString
      | r' => String c r'
      end
  end.

Definition new_URL (s : string) : result URL :=
  match strip_end (strip_start s) with
  | EmptyString => Throw "Invalid URL"
  | String c r =>
      if is_alpha c then
        match scheme_state r (String (lower_char c) "") with
        | Some (scheme, rest) =>
            if needs_host scheme && host_missing rest
            then Throw "Invalid URL"
            else Ok {| protocol := scheme +:+ ":" |}
        | None => Throw "Invalid URL"
        end
      else Throw "Invalid URL"
  end.
End Whatwg.

(** ** The three variants side by side *)

Inductive variant : Type := server_js | part_000 | part_001.

#[global] Instance variant_eq_dec : EqDecision variant.
Proof. solve_decision. Defined.

Definition normalizer (v : variant) (new_URL : string -> result URL)
  : list (option Raw.t) -> list Cand.t :=
  match v with
  | server_js => Server.normalizeAndFilterFormats new_URL
  | part_000 => Part000.normalizeAndFilterFormats new_URL
  | part_001 => Part001.normalizeAndFilterFormats new_URL
  end.

(** The handler of [GET /api/extract] of each variant. *)
Definition handler (v : variant) (w : World) (env : Env) (req : Request)
  : M response :=
  match v with
  | server_js => Server.extract w env req
  | part_000 => Part000.extract w env req
  | part_001 => Part001.extract w req
  end.

(** The candidate a variant derives from a record. *)
Definition derive (v : variant) : Raw.t -> string -> Cand.t :=
  match v with
  | server_js => Server.candidate
  | part_000 => Part000.candidate
  | part_001 => Part001.candidate
  end.

(** The url test of the loop body: a truthy url that parses and, in
    [src/server.js] and [part_000], has one of the two protocols. *)
Definition web_protocol (p : URL) : bool :=
  array_includes ["http:"; "https:"] (protocol p).

Definition accepts (v : variant) (new_URL : string -> result URL)
    (u : string) : bool :=
  truthy_str u &&
  match new_URL u with
  | Throw _ => false
  | Ok parsed =>
      match v with
      | server_js | part_000 => web_protocol parsed
      | part_001 => true
      end
  end.

(** The shape the three loop bodies share. *)
Definition visit_with (accept : string -> bool)
    (mk : Raw.t -> string -> Cand.t) (st : loop_state) (f : option Raw.t)
  : loop_state :=
  let '(out, seen) := st in
  match f with
  | Some f =>
      match Raw.url f with
      | Some u =>
          if accept u && negb (bool_decide (u ∈ seen))
          then ((out ++ [mk f u])%list, {[u]} ∪ seen)
          else st
      | None => st
      end
  | None => st
  end.

(** ** Vocabulary of the statements, and the worlds of the examples *)

(** The record at position [i] is the first of [raws] with url [u]. *)
Definition first_with_url (raws : list (option Raw.t)) (i : nat)
    (f : Raw.t) (u : string) : Prop :=
  raws !! i = Some (Some f) /\ Raw.url f = Some u /\
  forall j f', (j < i)%nat -> raws !! j = Some (Some f') ->
               Raw.url f' <> Some u.

(** What holds of [out] and [seen] after the loop, with url test [accept]
    and candidates made by [mk], has gone through [raws]. *)
Record loop_inv (accept : string -> bool) (mk : Raw.t -> string -> Cand.t)
    (raws : list (option Raw.t)) (st : loop_state) : Prop := {
  inv_seen : forall u, u ∈ st.2 <-> u ∈ map Cand.url st.1;
  inv_nodup : NoDup (map Cand.url st.1);
  inv_first : forall c, c ∈ st.1 ->
    accept (Cand.url c) = true /\
    exists i f, first_with_url raws i f (Cand.url c) /\
                c = mk f (Cand.url c);
  inv_all : forall f u, Some f ∈ raws -> Raw.url f = Some u ->
    accept u = true -> u ∈ st.2
}.

(** The candidates of [out] stand in the order in which their urls
    first occur in [raws]. *)
Definition in_input_order (raws : list (option Raw.t)) (out : list Cand.t)
  : Prop :=
  forall p q c d, (p < q)%nat -> out !! p = Some c -> out !! q = Some d ->
    exists i j f g,
      first_with_url raws i f (Cand.url c) /\
      first_with_url raws j g (Cand.url d) /\ (i < j)%nat.

(** The argument [true]. *)
Definition boolean_true : argument :=
  {| to_boolean := true; to_number := Some 1; to_string := "true" |}.

(** A text that is no number, such as ["abc"]. *)
Definition text_abc : argument :=
  {| to_boolean := true; to_number := None; to_string := "abc" |}.

(** The record has no url to offer: a [null] entry, no [url] field, the
    empty string, or a text the constructor throws on. *)
Definition unusable_url (new_URL : string -> result URL)
    (r : option Raw.t) : Prop :=
  match r ≫= Raw.url with
  | None => True
  | Some u => u = "" \/ exists e, new_URL u = Throw e
  end.

(** The url parses and its scheme is neither http nor https. *)
Definition other_scheme (new_URL : string -> result URL)
    (r : option Raw.t) : Prop :=
  exists u p, r ≫= Raw.url = Some u /\ new_URL u = Ok p /\
              protocol p <> "http:" /\ protocol p <> "https:".

(** Records used in the examples. *)
Definition raw_ftp : Raw.t :=
  Raw.mk (Some "ftp://host/f") (Some "h264") None None None (Some 480)
         None None (Some "mp4") (Some 1000) None None.

Definition raw_720 : Raw.t :=
  Raw.mk (Some "https://a/x.mp4") (Some "h264") None None None (Some 720)
         None None None None None None.

Definition raw_480 : Raw.t :=
  Raw.mk (Some "https://a/x.mp4") None None None None (Some 480)
         None None None None None None.

(** The tests the classification is built from. *)
Definition audio_hint (f : Raw.t) : bool :=
  match Raw.format f with
  | Some s => includes "audio" s
  | None => false
  end.

Definition audio_hint_any_case (f : Raw.t) : bool :=
  match Raw.format f with
  | Some s => includes "audio" (toLowerCase s)
  | None => false
  end.

Definition image_ext (f : Raw.t) : bool :=
  match Raw.ext f with
  | Some e => array_includes ["jpg"; "jpeg"; "png"; "webp"; "gif"]
                (toLowerCase e)
  | None => false
  end.

Definition raw_png_no_video : Raw.t :=
  Raw.mk (Some "https://a/cover.png") (Some "none") None None None None
         None None (Some "png") None None None.

Definition raw_png_plain : Raw.t :=
  Raw.mk (Some "https://a/cover.png") None None None None None
         None None (Some "png") None None None.









(** What [getContentLength] returns and which calls it makes, read off the
    world. *)
Definition head_length (w : World) (url : string) : num :=
  match axios_head w url with
  | Ok resp =>
      if truthy_ostr (content_length resp)
      then parseInt (default "" (content_length resp))
      else Null
  | Throw _ => Null
  end.

Definition ranged_length (w : World) (url : string) : num :=
  match axios_get w url with
  | Ok resp =>
      let len := or_ostr (content_range resp) (content_length resp) in
      if truthy_ostr len then
        match Part000.match_total (default "" len) with
        | Some digits => parseInt digits
        | None => or_null_num (parseInt (default "" len))
        end
      else Null
  | Throw _ => Null
  end.

Definition probed_length (v : variant) (w : World) (url : string) : num :=
  match v with
  | part_000 =>
      match axios_head w url with
      | Ok _ => head_length w url
      | Throw _ => ranged_length w url
      end
  | server_js | part_001 => head_length w url
  end.

Definition probe_calls (v : variant) (w : World) (url : string)
  : list call :=
  match v with
  | part_000 =>
      match axios_head w url with
      | Ok _ => [AxiosHead url]
      | Throw _ => [AxiosHead url; AxiosGet url]
      end
  | server_js | part_001 => [AxiosHead url]
  end.

(** The probe found nothing: the HEAD request failed or came back with
    no content-length, and so did the ranged GET where there is one. *)
Definition head_fails (w : World) (url : string) : Prop :=
  match axios_head w url with
  | Throw _ => True
  | Ok resp => truthy_ostr (content_length resp) = false
  end.

Definition ranged_get_fails (w : World) (url : string) : Prop :=
  match axios_get w url with
  | Throw _ => True
  | Ok resp => truthy_ostr (content_range resp) = false /\
               truthy_ostr (content_length resp) = false
  end.

(** The candidates after the probes: the object at each probed index gets
    the length found, when it is truthy. *)
Definition fill_one (len : string -> num) (i : nat) (formats : list Cand.t)
  : list Cand.t :=
  match formats !! i with
  | Some f =>
      if truthy_num (len (Cand.url f))
      then <[i := Cand.set_filesize (len (Cand.url f)) f]> formats
      else formats
  | None => formats
  end.

Definition fill (len : string -> num) (indices : list nat)
    (formats : list Cand.t) : list Cand.t :=
  fold_left (fun st i => fill_one len i st) indices formats.

(** The calls of the probes of [indices], in order. *)
Definition fill_calls (calls : string -> list call) (indices : list nat)
    (formats : list Cand.t) : list call :=
  concat (map (fun i => match formats !! i with
                        | Some f => calls (Cand.url f)
                        | None => []
                        end) indices).

(** One candidate after its probe. *)
Definition filled (len : string -> num) (f : Cand.t) : Cand.t :=
  if truthy_num (len (Cand.url f))
  then Cand.set_filesize (len (Cand.url f)) f
  else f.

Definition yt_dlp (v : variant) : string :=
  match v with
  | server_js => "./yt-dlp"
  | part_000 | part_001 => "yt-dlp"
  end.

(** [ENABLE_CACHING && redis]: a cache url is configured, and the variant
    is not [part_001]. *)
Definition caching (v : variant) (env : Env) : bool :=
  match v with
  | server_js | part_000 => truthy_ostr (env_REDIS_URL env)
  | part_001 => false
  end.

Definition cache_key (u : string) : string := "extract:" +:+ u.

(** The extractor prints a metadata object for [u]. *)
Definition extractor_returns (v : variant) (w : World) (u : string)
    (m : Meta) : Prop :=
  exists stdout,
    execFileAsync w (yt_dlp v) ["-j"; "--no-warnings"; u] = Ok stdout /\
    (read_stdout w stdout = Whole (MetaObj m) \/
     read_stdout w stdout = FirstLine (Ok (MetaObj m))).

(** The cache is off, or it answers and has nothing under the key. *)
Definition cache_misses (v : variant) (w : World) (env : Env) (u : string)
  : Prop :=
  caching v env = false \/
  exists cached, redis_get w (cache_key u) = Ok cached /\
                 truthy_ostr cached = false.

(** The cache is off, or it takes what it is given. *)
Definition cache_stores (v : variant) (w : World) (env : Env) (u : string)
  : Prop :=
  caching v env = false \/
  forall payload, redis_set w (cache_key u) payload = Ok tt.

(** The key check lets the request through ([part_000] is the one
    variant that has it). *)
Definition key_accepted (v : variant) (env : Env) (req : Request) : Prop :=
  match v with
  | part_000 => Part000.key_rejected env req = false
  | server_js | part_001 => True
  end.

(** The candidates of a metadata object and the indices probed. *)
Definition candidates (v : variant) (w : World) (m : Meta) : list Cand.t :=
  normalizer v (new_URL w) (default [] (meta_formats m)).

Definition probed (v : variant) (formats : list Cand.t) : list nat :=
  match v with
  | part_000 => without_size formats
  | server_js | part_001 => take 6 (without_size formats)
  end.

Definition resolved (v : variant) (w : World) (m : Meta) : list Cand.t :=
  fill (probed_length v w) (probed v (candidates v w m)) (candidates v w m).

Definition payload_of (v : variant) (w : World) (m : Meta) : Payload :=
  match v with
  | server_js =>
      {| title := None; thumbnail := None;
         formats := map Server.to_mapped (resolved v w m) |}
  | part_000 =>
      {| title := None; thumbnail := None;
         formats := sort Part000.compare_mapped
                      (map Part000.to_mapped (resolved v w m)) |}
  | part_001 =>
      {| title := meta_title m; thumbnail := meta_thumbnail m;
         formats := map Part001.to_mapped (resolved v w m) |}
  end.

(** The calls of such a request, in order. *)
Definition calls_of (v : variant) (w : World) (env : Env) (u : string)
    (m : Meta) : list call :=
  ((if caching v env then [CacheGet (cache_key u)] else []) ++
   [ExecFile (yt_dlp v) ["-j"; "--no-warnings"; u]] ++
   fill_calls (probe_calls v w) (probed v (candidates v w m))
     (candidates v w m) ++
   (if caching v env
    then [CacheSet (cache_key u) (payload_of v w m) 300] else []))%list.

(** The cache of [part_000] has no hit to give: it is off, it fails, it
    has nothing, or what it has does not parse. *)
Definition no_cache_hit (w : World) (env : Env) (u : string) : Prop :=
  caching part_000 env = false \/
  match redis_get w (cache_key u) with
  | Ok cached => truthy_ostr cached = false \/
                 exists e, JSON_parse w (default "" cached) = Throw e
  | Throw _ => True
  end.

Definition getContentLength (v : variant) (w : World) : string -> M num :=
  match v with
  | server_js => Server.getContentLength w
  | part_000 => Part000.getContentLength w
  | part_001 => Part001.getContentLength w
  end.

Definition to_mapped (v : variant) : Cand.t -> Mapped.t :=
  match v with
  | server_js => Server.to_mapped
  | part_000 => Part000.to_mapped
  | part_001 => Part001.to_mapped
  end.

(** Worlds for the examples: the extractor prints [m], the cache answers
    [get] and [set], every HEAD request answers [head] and no ranged GET
    gets through.  In [offline_world] no probe gets through at all. *)
Definition sample_meta : Meta :=
  {| meta_title := Some "clip"; meta_thumbnail := None;
     meta_formats := Some [Some raw_720; None; Some raw_480; Some raw_ftp] |}.

Definition world (m : Meta) (get : result (option string))
    (set : result unit) (head : result Headers) : World :=
  {| new_URL := Whatwg.new_URL;
     redis_get := fun _ => get;
     redis_set := fun _ _ => set;
     JSON_parse := fun _ => Throw "Unexpected end of JSON input";
     execFileAsync := fun _ _ => Ok "stdout";
     read_stdout := fun _ => Whole (MetaObj m);
     axios_head := fun _ => head;
     axios_get := fun _ => Throw "timeout of 15000ms exceeded" |}.

Definition offline_world : World :=
  world sample_meta (Ok None) (Ok tt) (Throw "timeout of 10000ms exceeded").

Definition plain_env : Env :=
  {| env_API_KEY := None; env_REDIS_URL := None |}.

Definition sample_request : Request :=
  {| query_url := Some "https://a/page"; query_apikey := None;
     header_x_api_key := None |}.

(** [req.headers["x-api-key"] || req.query.apikey]. *)
Definition supplied_key (req : Request) : option string :=
  or_ostr (header_x_api_key req) (query_apikey req).

Definition locked_env : Env :=
  {| env_API_KEY := Some "secret"; env_REDIS_URL := None |}.

Definition request_without_url : Request :=
  {| query_url := None; query_apikey := None; header_x_api_key := None |}.

Definition request_wrong_key : Request :=
  {| query_url := Some "https://a/page"; query_apikey := Some "secret";
     header_x_api_key := Some "guess" |}.

Definition cached_env : Env :=
  {| env_API_KEY := None; env_REDIS_URL := Some "redis://cache:6379" |}.

(** The cache has nothing and cannot be written to. *)
Definition cache_write_fails : World :=
  world sample_meta (Ok None) (Throw "Connection is closed.")
    (Throw "timeout of 10000ms exceeded").

(** The cache cannot be read. *)
Definition cache_read_fails : World :=
  world sample_meta (Throw "Connection is closed.") (Ok tt)
    (Throw "timeout of 10000ms exceeded").

(** The record with its two size fields replaced. *)
Definition with_sizes (f : Raw.t) (filesize filesize_approx : option Z)
  : Raw.t :=
  Raw.mk (Raw.url f) (Raw.vcodec f) (Raw.acodec f) (Raw.format f)
         (Raw.format_note f) (Raw.height f) (Raw.width f) (Raw.tbr f)
         (Raw.ext f) filesize filesize_approx (Raw.format_id f).

(** A size field that is absent or zero. *)
Definition zero_or_absent (o : option Z) : Prop := o = None \/ o = Some 0.

(** Seven records with a declared size of zero, and a world whose HEAD
    answers report 5000 bytes for every url. *)
Definition raw_zero (u : string) : Raw.t :=
  Raw.mk (Some u) (Some "h264") None None None (Some 720)
         None None (Some "mp4") (Some 0) (Some 0) None.

Definition seven_zero : Meta :=
  {| meta_title := None; meta_thumbnail := None;
     meta_formats :=
       Some (map (fun u => Some (raw_zero u))
               ["https://a/1"; "https://a/2"; "https://a/3"; "https://a/4";
                "https://a/5"; "https://a/6"; "https://a/7"]) |}.

Definition online_world : World :=
  world seven_zero (Ok None) (Ok tt)
    (Ok {| content_length := Some "5000"; content_range := None |}).

Definition raw_sized (u : string) (bytes : Z) : Raw.t :=
  Raw.mk (Some u) (Some "h264") None None None (Some 720)
         None None (Some "mp4") (Some bytes) None None.

(** Two videos: 1572864 bytes (1.5 MB) and 921600 bytes (900.0 KB). *)
Definition two_videos : Meta :=
  {| meta_title := None; meta_thumbnail := None;
     meta_formats := Some [Some (raw_sized "https://a/large" 1572864);
                           Some (raw_sized "https://a/small" 921600)] |}.

Definition two_videos_world : World :=
  world two_videos (Ok None) (Ok tt) (Throw "timeout of 10000ms exceeded").

(** The place of a type in the order of the response. *)
Definition rank (t : media) : Z :=
  match t with
  | video => 0
  | audio => 1
  | image => 2
  end.

(** Entries of type [t] shown with size text [size]. *)
Definition same_group (t : media) (size : string) (e : Mapped.t) : bool :=
  bool_decide (Mapped.type e = t) && String.eqb (Mapped.size e) size.

(** The extractor output of the spec's end-to-end scenario: two records
    with the same url. *)
Definition scenario_meta : Meta :=
  {| meta_title := Some "clip"; meta_thumbnail := None;
     meta_formats := Some [Some raw_720; Some raw_480] |}.

Definition scenario_world : World :=
  world scenario_meta (Ok None) (Ok tt) (Throw "timeout of 10000ms exceeded").

(** *** The normalizer as a function of its input *)

(** The records of the input that carry a url the variant accepts, each
    with that url, in input order. *)
Definition accepted_records (accept : string -> bool)
    (raws : list (option Raw.t)) : list (Raw.t * string) :=
  omap (fun r : option Raw.t =>
          match r with
          | Some f =>
              match Raw.url f with
              | Some u => if accept u then Some (f, u) else None
              | None => None
              end
          | None => None
          end) raws.

(** Of the pairs with the same url, the first one only. *)
Fixpoint first_by_url (l : list (Raw.t * string)) : list (Raw.t * string) :=
  match l with
  | [] => []
  | p :: rest =>
      p :: List.filter (fun q => negb (String.eqb q.2 p.2)) (first_by_url rest)
  end.

(** The record brings nothing the records of [raws] have not brought:
    it has no url, or one the variant does not accept, or one that a
    record of [raws] carries. *)
Definition brings_nothing (accept : string -> bool)
    (raws : list (option Raw.t)) (r : option Raw.t) : Prop :=
  match r ≫= Raw.url with
  | Some u => accept u = true -> exists f, Some f ∈ raws /\ Raw.url f = Some u
  | None => True
  end.

(** *** The handler, case by case *)

(** The metadata object with no field. *)
Definition empty_meta : Meta :=
  {| meta_title := None; meta_thumbnail := None; meta_formats := None |}.

Definition no_valid_json : string := "yt-dlp returned no valid JSON".

(** What a variant makes of the extractor's standard output: the
    metadata it goes on with, or the exception.  [part_000] goes on with
    no formats when the output parses to a falsy value other than
    [null]; the other two throw on every falsy value. *)
Definition metadata (v : variant) (w : World) (stdout : string)
  : result Meta :=
  let of_json (j : json_meta) : result Meta :=
    match v, j with
    | _, MetaObj m => Ok m
    | part_000, MetaFalsy => Ok empty_meta
    | part_000, MetaNull =>
        Throw "Cannot read properties of null (reading 'formats')"
    | _, _ => Throw no_valid_json
    end in
  match read_stdout w stdout with
  | Whole j => of_json j
  | FirstLine (Ok j) => of_json j
  | FirstLine (Throw e) => Throw e
  | NoLine e =>
      match v with
      | part_000 => Throw e
      | server_js | part_001 => of_json MetaNull
      end
  end.

Definition extractor_call (v : variant) (u : string) : call :=
  ExecFile (yt_dlp v) ["-j"; "--no-warnings"; u].

(** The extractor run for [u] and the reading of its output. *)
Definition extraction (v : variant) (w : World) (u : string) : result Meta :=
  match execFileAsync w (yt_dlp v) ["-j"; "--no-warnings"; u] with
  | Ok stdout => metadata v w stdout
  | Throw e => Throw e
  end.

(** The error text of a 500. *)
Definition error_text (v : variant) (e : string) : string :=
  match v with
  | part_000 => "Failed to extract formats"
  | server_js | part_001 => message_or e "Failed to extract formats"
  end.

(** What the cache lookup finds. *)
Inductive lookup : Type :=
| CacheOff
| CacheMiss
| CacheHit (p : Payload)
| CacheReadFailed (e : string)
| CacheCorrupt (e : string).

Definition cache_lookup_of (v : variant) (w : World) (env : Env)
    (u : string) : lookup :=
  if caching v env then
    match redis_get w (cache_key u) with
    | Throw e => CacheReadFailed e
    | Ok cached =>
        if truthy_ostr cached then
          match JSON_parse w (default "" cached) with
          | Ok p => CacheHit p
          | Throw e => CacheCorrupt e
          end
        else CacheMiss
    end
  else CacheOff.

(** The probe calls of the candidates of [m]. *)
Definition probes_of (v : variant) (w : World) (m : Meta) : list call :=
  fill_calls (probe_calls v w) (probed v (candidates v w m))
    (candidates v w m).

(** The request from the extractor run on, [got] being the calls made
    before. *)
Definition after_lookup (v : variant) (w : World) (env : Env) (u : string)
    (got : list call) : response * list call :=
  match extraction v w u with
  | Throw e =>
      (Response 500 (Error (error_text v e)),
       (got ++ [extractor_call v u])%list)
  | Ok m =>
      let payload := payload_of v w m in
      let log := (got ++ [extractor_call v u] ++ probes_of v w m)%list in
      if caching v env then
        let log := (log ++ [CacheSet (cache_key u) payload 300])%list in
        match redis_set w (cache_key u) payload, v with
        | Throw e, (server_js | part_001) =>
            (Response 500 (Error (error_text v e)), log)
        | _, _ => (Response 200 (Json payload), log)
        end
      else (Response 200 (Json payload), log)
  end.

(** The request past the checks of its url and key. *)
Definition after_checks (v : variant) (w : World) (env : Env) (u : string)
  : response * list call :=
  let got := if caching v env then [CacheGet (cache_key u)] else [] in
  match cache_lookup_of v w env u, v with
  | CacheHit p, _ => (Response 200 (Json p), got)
  | (CacheReadFailed e | CacheCorrupt e), (server_js | part_001) =>
      (Unhandled e, got)
  | _, _ => after_lookup v w env u got
  end.

(** The response and the calls of a request, read off the world. *)
Definition outcome (v : variant) (w : World) (env : Env) (req : Request)
  : response * list call :=
  match query_url req with
  | Some u =>
      if truthy_str u then
        if match v with
           | part_000 => Part000.key_rejected env req
           | server_js | part_001 => false
           end
        then (Response 401 (Error "Missing or invalid API key"), [])
        else
          match new_URL w u with
          | Throw _ => (Response 400 (Error "Invalid url"), [])
          | Ok _ => after_checks v w env u
          end
      else (Response 400 (Error "Missing url parameter"), [])
  | None => (Response 400 (Error "Missing url parameter"), [])
  end.

(** Kinds of calls. *)
Definition is_extractor_call (c : call) : bool :=
  match c with ExecFile _ _ => true | _ => false end.

Definition is_head (c : call) : bool :=
  match c with AxiosHead _ => true | _ => false end.

(** A request with a url that parses and, where there is a key check,
    an accepted key. *)
Definition passes_checks (v : variant) (w : World) (env : Env)
    (req : Request) (u : string) : Prop :=
  query_url req = Some u /\ u <> "" /\ key_accepted v env req /\
  exists p, new_URL w u = Ok p.

(** Worlds for the examples: a cache that holds a payload under every
    key, and an extractor that cannot be run. *)
Definition cached_payload : Payload :=
  {| title := None; thumbnail := None;
     formats := [Mapped.mk "720p" "1.5 MB" "https://a/x.mp4" video] |}.

Definition cache_hit_world : World :=
  {| new_URL := Whatwg.new_URL;
     redis_get := fun _ => Ok (Some "cached text");
     redis_set := fun _ _ => Ok tt;
     JSON_parse := fun _ => Ok cached_payload;
     execFileAsync := fun _ _ => Ok "stdout";
     read_stdout := fun _ => Whole (MetaObj sample_meta);
     axios_head := fun _ => Throw "timeout of 10000ms exceeded";
     axios_get := fun _ => Throw "timeout of 15000ms exceeded" |}.

Definition no_extractor_world : World :=
  {| new_URL := Whatwg.new_URL;
     redis_get := fun _ => Ok None;
     redis_set := fun _ _ => Ok tt;
     JSON_parse := fun _ => Throw "Unexpected end of JSON input";
     execFileAsync := fun _ _ => Throw "spawn yt-dlp ENOENT";
     read_stdout := fun _ => NoLine "Unexpected end of JSON input";
     axios_head := fun _ => Throw "timeout of 10000ms exceeded";
     axios_get := fun _ => Throw "timeout of 15000ms exceeded" |}.

(** The extractor prints a falsy JSON value: [0], [false] or an empty
    string literal. *)
Definition falsy_output_world : World :=
  {| new_URL := Whatwg.new_URL;
     redis_get := fun _ => Ok None;
     redis_set := fun _ _ => Ok tt;
     JSON_parse := fun _ => Throw "Unexpected end of JSON input";
     execFileAsync := fun _ _ => Ok "0";
     read_stdout := fun _ => Whole MetaFalsy;
     axios_head := fun _ => Throw "timeout of 10000ms exceeded";
     axios_get := fun _ => Throw "timeout of 15000ms exceeded" |}.

(** *** The candidates that are probed *)

(** [formats.filter(f => !f.filesize)], as objects, and the cap of six
    objects where the variant has one. *)
Definition unsized (formats : list Cand.t) : list Cand.t :=
  List.filter (fun f => negb (truthy_num (Cand.filesize f))) formats.

Definition capped (v : variant) (l : list Cand.t) : list Cand.t :=
  match v with
  | part_000 => l
  | server_js | part_001 => take 6 l
  end.

(** *** Decimal texts and the order of [part_000] *)

(** The text does not go on with a digit. *)
Definition stops_digits (s : string) : bool :=
  match s with
  | String c _ => negb (is_digit c)
  | EmptyString => true
  end.

(** The number the comparator of [part_000] reads off an entry:
    [parseFloat(size) || 0]. *)
Definition shown_number (e : Mapped.t) : Z * Z :=
  or_zero (parseFloat (Mapped.size e)).

(** [a] may stand before [b]: its type comes earlier, or the types are
    the same and its number is not the smaller one. *)
Definition listed_before (a b : Mapped.t) : Prop :=
  rank (Mapped.type a) < rank (Mapped.type b) \/
  (Mapped.type a = Mapped.type b /\
   sign_of_difference (shown_number b) (shown_number a) <= 0).

(** A world in which HEAD requests throw and the ranged GET answers
    with a content-range. *)
Definition ranged_world : World :=
  {| new_URL := Whatwg.new_URL;
     redis_get := fun _ => Ok None;
     redis_set := fun _ _ => Ok tt;
     JSON_parse := fun _ => Throw "Unexpected end of JSON input";
     execFileAsync := fun _ _ => Ok "stdout";
     read_stdout := fun _ => Whole (MetaObj sample_meta);
     axios_head := fun _ => Throw "Request failed with status code 405";
     axios_get := fun _ =>
       Ok {| content_length := Some "1";
             content_range := Some "bytes 0-0/12345" |} |}.

(** ** Properties of the primitives *)

Section Strings.

Lemma truthy_str_nonempty (s : string) :
  truthy_str s = true <-> s <> "".
Proof.
  unfold truthy_str. destruct (String.eqb_spec s ""); simpl; split;
    intros; congruence.
Qed.

Lemma toUpperCase_nonempty (s : string) :
  s <> "" -> toUpperCase s <> "".
Proof. destruct s; simpl; intros H; [congruence | discriminate]. Qed.

Lemma append_nonempty_r (s t : string) : t <> "" -> s +:+ t <> "".
Proof.
  destruct s; simpl; [tauto | intros _; discriminate].
Qed.

Lemma append_nonempty_l (s t : string) : s <> "" -> s +:+ t <> "".
Proof. destruct s; simpl; intros H; [congruence | discriminate]. Qed.

End Strings.

(** ** The loop of the normalizer *)

Section Loop.
Variable accept : string -> bool.
Variable mk : Raw.t -> string -> Cand.t.
Hypothesis mk_url : forall f u, Cand.url (mk f u) = u.

Lemma first_with_url_app raws x i f u :
  first_with_url raws i f u -> first_with_url (raws ++ [x]) i f u.
Proof.
  intros (Hi & Hu & Hfirst). split; [|split]; [|done|].
  - by apply lookup_app_l_Some.
  - intros j f' Hj Hl. apply (Hfirst j f' Hj).
    apply lookup_lt_Some in Hi.
    by rewrite lookup_app_l in Hl by lia.
Qed.

Lemma loop_inv_step raws st x :
  loop_inv accept mk raws st ->
  loop_inv accept mk (raws ++ [x]) (visit_with accept mk st x).
Proof.
  intros [Hseen Hnodup Hfirst Hall]. destruct st as [out seen]. simpl in *.
  assert (Hold : forall c, c ∈ out ->
    accept (Cand.url c) = true /\
    exists i f, first_with_url (raws ++ [x]) i f (Cand.url c) /\
                c = mk f (Cand.url c)).
  { intros c Hc. destruct (Hfirst c Hc) as (Ha & i & f & Hf & Hm).
    split; [done|]. exists i, f. split; [|done].
    by apply first_with_url_app. }
  destruct x as [f|]; simpl.
  2:{ split; simpl; try done.
      intros f u [Hin|Hin%list_elem_of_singleton]%elem_of_app; [eauto|done]. }
  destruct (Raw.url f) as [u|] eqn:Hurl.
  2:{ split; simpl; try done.
      intros f' u' [Hin|Hin%list_elem_of_singleton]%elem_of_app Hu' Ha;
        [eauto|]. congruence. }
  destruct (accept u) eqn:Hacc; simpl.
  2:{ split; simpl; try done.
      intros f' u' [Hin|Hin%list_elem_of_singleton]%elem_of_app Hu' Ha;
        [eauto|]. congruence. }
  case_bool_decide as Hin; simpl.
  { split; simpl; try done.
    intros f' u' [Hin'|Hin'%list_elem_of_singleton]%elem_of_app Hu' Ha;
      [eauto|]. congruence. }
  split; simpl.
  - intros u'. rewrite map_app, elem_of_app, elem_of_union,
      elem_of_singleton. simpl. rewrite mk_url, list_elem_of_singleton.
    rewrite Hseen. tauto.
  - rewrite map_app. simpl. rewrite mk_url. apply NoDup_app.
    split; [done|]. split; [|apply NoDup_singleton].
    intros u' Hu' ->%list_elem_of_singleton. apply Hin. by apply Hseen.
  - intros c [Hc|Hc%list_elem_of_singleton]%elem_of_app; [eauto|].
    subst c. rewrite mk_url. split; [done|].
    exists (length raws), f. split; [|done]. split; [|split]; [|done|].
    + by rewrite lookup_app_r, Nat.sub_diag by lia.
    + intros j f' Hj Hl Hu'. rewrite lookup_app_l in Hl by lia.
      apply Hin, (Hall f' u); [|done|done].
      by eapply list_elem_of_lookup_2.
  - intros f' u' [Hin'|Hin'%list_elem_of_singleton]%elem_of_app Hu' Ha.
    + apply elem_of_union. right. eauto.
    + apply elem_of_union. left. apply elem_of_singleton. congruence.
Qed.

Lemma loop_inv_fold raws :
  loop_inv accept mk raws (for_of (visit_with accept mk) raws).
Proof.
  unfold for_of. induction raws as [|x raws IH] using rev_ind.
  - split; simpl; try done.
    + intros u. set_solver.
    + constructor.
    + intros c Hc. by apply elem_of_nil in Hc.
    + intros f u Hin. by apply elem_of_nil in Hin.
  - rewrite fold_left_app. simpl. by apply loop_inv_step.
Qed.

End Loop.

(** The loop body of each variant is the shared shape at the variant's
    url test and candidate. *)
Lemma visit_server new_URL st f :
  Server.visit new_URL st f
  = visit_with (accepts server_js new_URL) Server.candidate st f.
Proof.
  destruct st as [out seen], f as [f|]; [|done].
  unfold Server.visit, visit_with, accepts, web_protocol.
  destruct (Raw.url f) as [u|]; [|done].
  destruct (truthy_str u); [|done].
  destruct (new_URL u) as [p|e]; [|done].
  destruct (array_includes _ (protocol p)); [|done].
  by case_bool_decide.
Qed.

Lemma visit_part_000 new_URL st f :
  Part000.visit new_URL st f
  = visit_with (accepts part_000 new_URL) Part000.candidate st f.
Proof.
  destruct st as [out seen], f as [f|]; [|done].
  unfold Part000.visit, visit_with, accepts, web_protocol.
  destruct (Raw.url f) as [u|]; [|done].
  destruct (truthy_str u); [|done].
  destruct (new_URL u) as [p|e]; [|done].
  destruct (array_includes _ (protocol p)); [|done].
  by case_bool_decide.
Qed.

Lemma visit_part_001 new_URL st f :
  Part001.visit new_URL st f
  = visit_with (accepts part_001 new_URL) Part001.candidate st f.
Proof.
  destruct st as [out seen], f as [f|]; [|done].
  unfold Part001.visit, visit_with, accepts.
  destruct (Raw.url f) as [u|]; [|done].
  destruct (truthy_str u); [|done].
  destruct (new_URL u) as [p|e]; [|done].
  by case_bool_decide.
Qed.

Lemma fold_left_ext {A B} (f g : A -> B -> A) l a :
  (forall a b, f a b = g a b) -> fold_left f l a = fold_left g l a.
Proof.
  intros Hfg. revert a. induction l as [|b l IH]; intros a; simpl; [done|].
  by rewrite Hfg, IH.
Qed.

Lemma normalizer_for_of v new_URL raws :
  normalizer v new_URL raws
  = fst (for_of (visit_with (accepts v new_URL) (derive v)) raws).
Proof.
  destruct v; simpl;
    [ unfold Server.normalizeAndFilterFormats
    | unfold Part000.normalizeAndFilterFormats
    | unfold Part001.normalizeAndFilterFormats ];
    unfold for_of; f_equal; apply fold_left_ext; intros st f.
  - apply visit_server.
  - apply visit_part_000.
  - apply visit_part_001.
Qed.

Lemma derive_url v f u : Cand.url (derive v f u) = u.
Proof. by destruct v. Qed.

Lemma normalizer_inv v new_URL raws :
  loop_inv (accepts v new_URL) (derive v) raws
    (for_of (visit_with (accepts v new_URL) (derive v)) raws).
Proof. apply loop_inv_fold, derive_url. Qed.

(** A record the loop skips leaves no trace: the state is the one before. *)
Lemma visit_with_skip accept mk st r :
  match r ≫= Raw.url with
  | Some u => accept u = false
  | None => True
  end ->
  visit_with accept mk st r = st.
Proof.
  destruct st as [out seen], r as [f|]; simpl; [|done].
  destruct (Raw.url f) as [u|]; [|done]. by intros ->.
Qed.

(** ** C1: deduplication by url *)

(** The loop appends: a candidate pushed later has its first record
    later in the input. *)
Section Order.
Variable accept : string -> bool.
Variable mk : Raw.t -> string -> Cand.t.
Hypothesis mk_url : forall f u, Cand.url (mk f u) = u.

Lemma in_input_order_step raws st x :
  loop_inv accept mk raws st ->
  in_input_order raws st.1 ->
  in_input_order (raws ++ [x]) (visit_with accept mk st x).1.
Proof.
  intros [Hseen Hnodup Hfirst Hall] Hord.
  assert (Hkeep : in_input_order (raws ++ [x]) st.1).
  { intros p q c d Hpq Hp Hq.
    destruct (Hord p q c d Hpq Hp Hq) as (i & j & f & g & Hi & Hj & Hij).
    exists i, j, f, g. split; [|split]; [| |done];
      by apply first_with_url_app. }
  destruct st as [out seen]. cbn [fst snd] in *.
  destruct x as [f|]; cbn [visit_with]; [|done].
  destruct (Raw.url f) as [u|] eqn:Hurl; [|done].
  destruct (accept u) eqn:Hacc; cbn [andb]; [|done].
  case_bool_decide as Hin; cbn [negb]; [done|]. cbn [fst].
  intros p q c d Hpq Hp Hq.
  destruct (decide (q < length out)%nat) as [Hlt|Hge].
  - rewrite lookup_app_l in Hp, Hq by lia. by apply (Hkeep p q c d).
  - rewrite lookup_app_r in Hq by lia.
    destruct (q - length out)%nat as [|k] eqn:Hk; [|by destruct k].
    injection Hq as <-.
    assert (p < length out)%nat by lia.
    rewrite lookup_app_l in Hp by lia.
    destruct (Hfirst c (list_elem_of_lookup_2 _ _ _ Hp))
      as (_ & i & f' & Hf' & _).
    exists i, (length raws), f', f. rewrite mk_url.
    split; [by apply first_with_url_app|]. split.
    + split; [|split]; [|done|].
      * by rewrite lookup_app_r, Nat.sub_diag by lia.
      * intros j g Hj Hl Hu'. rewrite lookup_app_l in Hl by lia.
        apply Hin, (Hall g u); [|done|done].
        by eapply list_elem_of_lookup_2.
    + destruct Hf' as (Hi & _). by apply lookup_lt_Some in Hi.
Qed.

Lemma in_input_order_fold raws :
  in_input_order raws (for_of (visit_with accept mk) raws).1.
Proof.
  unfold for_of. induction raws as [|x raws IH] using rev_ind.
  - intros p q c d _ Hp. done.
  - rewrite fold_left_app. cbn [fold_left].
    apply in_input_order_step; [|done].
    by apply loop_inv_fold.
Qed.
End Order.

(** C1.  In each of the three variants, for every constructor [new_URL]
    and every list of raw records: no two candidates of the output of
    [normalizeAndFilterFormats] have the same url; every candidate is
    the one derived (label, type, filesize, ext) from the first record
    of the input that carries its url; every url that a record carries
    and the variant accepts has its candidate in the output; and the
    candidates stand in the order of those first records. *)
Theorem C1_dedup_first_occurrence
    (v : variant) (new_URL : string -> result URL)
    (rawFormats : list (option Raw.t)) :
  NoDup (map Cand.url (normalizer v new_URL rawFormats)) /\
  (forall c, c ∈ normalizer v new_URL rawFormats ->
    exists i f, first_with_url rawFormats i f (Cand.url c) /\
                c = derive v f (Cand.url c) /\
                Cand.filesize c = declared_size f /\
                Cand.ext c = or_null_str (Raw.ext f)) /\
  (forall f u, Some f ∈ rawFormats -> Raw.url f = Some u ->
     accepts v new_URL u = true ->
     exists c, c ∈ normalizer v new_URL rawFormats /\ Cand.url c = u) /\
  in_input_order rawFormats (normalizer v new_URL rawFormats).
Proof.
  rewrite normalizer_for_of.
  destruct (normalizer_inv v new_URL rawFormats)
    as [Hseen Hnodup Hfirst Hall].
  split; [done|]. split; [|split].
  - intros c Hc.
    destruct (Hfirst c Hc) as (_ & i & f & Hf & Hm).
    exists i, f. split; [done|]. split; [done|].
    rewrite Hm. by destruct v.
  - intros f u Hf Hu Hacc.
    apply (Hall f u Hf Hu), Hseen, list_elem_of_fmap in Hacc
      as (c & -> & Hc).
    by exists c.
  - apply in_input_order_fold, derive_url.
Qed.

(** ** C4: records without a usable web url *)

Lemma web_protocol_false p :
  protocol p <> "http:" -> protocol p <> "https:" -> web_protocol p = false.
Proof.
  intros H1 H2. unfold web_protocol, array_includes. simpl.
  destruct (String.eqb_spec (protocol p) "http:"); [done|].
  by destruct (String.eqb_spec (protocol p) "https:").
Qed.

Lemma rejected_not_accepted v new_URL r u :
  unusable_url new_URL r \/ (v <> part_001 /\ other_scheme new_URL r) ->
  r ≫= Raw.url = Some u -> accepts v new_URL u = false.
Proof.
  unfold unusable_url, other_scheme, accepts.
  intros [H|[Hv (u' & p & Hu' & Hp & H1 & H2)]] Hu.
  - rewrite Hu in H. destruct H as [->|[e ->]]; [done|].
    by rewrite andb_false_r.
  - rewrite Hu in Hu'. injection Hu' as <-. rewrite Hp.
    rewrite (web_protocol_false p H1 H2). destruct v; try done.
    by rewrite andb_false_r. by rewrite andb_false_r.
Qed.

(** C4, as the code has it.  In [src/server.js] and [part_000] a record
    that lacks a url, whose url does not parse or whose scheme is not
    http or https is skipped: the output is the one the list without the
    record gives, and no candidate carries the record's url.  In
    [part_001] the same holds for a record that lacks a url or whose url
    does not parse; the scheme is not tested there. *)
Theorem C4_unusable_records_are_skipped
    (v : variant) (new_URL : string -> result URL)
    (before after : list (option Raw.t)) (r : option Raw.t) :
  unusable_url new_URL r \/ (v <> part_001 /\ other_scheme new_URL r) ->
  normalizer v new_URL (before ++ r :: after)
  = normalizer v new_URL (before ++ after) /\
  forall c, c ∈ normalizer v new_URL (before ++ r :: after) ->
            Some (Cand.url c) <> r ≫= Raw.url.
Proof.
  intros Hr. split.
  - rewrite !normalizer_for_of. unfold for_of. f_equal.
    rewrite !fold_left_app. simpl. f_equal. apply visit_with_skip.
    destruct (r ≫= Raw.url) as [u|] eqn:Hu; [|done].
    by apply (rejected_not_accepted v new_URL r).
  - rewrite normalizer_for_of. intros c Hc Heq.
    destruct (normalizer_inv v new_URL (before ++ r :: after))
      as [_ _ Hfirst _].
    destruct (Hfirst c Hc) as [Hacc _].
    by rewrite (rejected_not_accepted v new_URL r (Cand.url c)) in Hacc.
Qed.

(** The theorem at the ftp record of the spec's example, in
    [src/server.js]. *)
Lemma C4_witness_ftp :
  (unusable_url Whatwg.new_URL (Some raw_ftp) \/
   (server_js <> part_001 /\ other_scheme Whatwg.new_URL (Some raw_ftp))) /\
  (normalizer server_js Whatwg.new_URL ([Some raw_720] ++ Some raw_ftp :: [])
   = normalizer server_js Whatwg.new_URL ([Some raw_720] ++ []) /\
   forall c,
     c ∈ normalizer server_js Whatwg.new_URL ([Some raw_720] ++ Some raw_ftp :: []) ->
     Some (Cand.url c) <> Some raw_ftp ≫= Raw.url).
Proof.
  assert (H : unusable_url Whatwg.new_URL (Some raw_ftp) \/
              (server_js <> part_001 /\
               other_scheme Whatwg.new_URL (Some raw_ftp))).
  { right. split; [discriminate|].
    exists "ftp://host/f", {| protocol := "ftp:" |}.
    repeat split; try reflexivity; discriminate. }
  split; [exact H|].
  exact (C4_unusable_records_are_skipped server_js Whatwg.new_URL
           [Some raw_720] [] (Some raw_ftp) H).
Defined.

(** In [part_001] the ftp record of the spec's example is kept. *)
Lemma C4_part_001_keeps_ftp :
  other_scheme Whatwg.new_URL (Some raw_ftp) /\
  map Cand.url (Part001.normalizeAndFilterFormats Whatwg.new_URL
                  [Some raw_ftp])
  = ["ftp://host/f"].
Proof.
  split.
  - exists "ftp://host/f", {| protocol := "ftp:" |}.
    repeat split; try reflexivity; discriminate.
  - vm_compute. reflexivity.
Qed.

(** ** C2: human readable sizes *)

Lemma q_den_pos (q : quot) : 0 < q_den q.
Proof. unfold q_den. apply Z.pow_pos_nonneg; lia. Qed.

(** [tenths q] is the multiple of one tenth nearest to [|q|], the upper
    one when two are as near. *)
Lemma tenths_nearest (q : quot) :
  2 * q_den q * tenths q <= 20 * Z.abs (q_num q) + q_den q
  < 2 * q_den q * (tenths q + 1).
Proof.
  unfold tenths. pose proof (q_den_pos q) as Hd.
  pose proof (Z.div_mod (20 * Z.abs (q_num q) + q_den q) (2 * q_den q)
                ltac:(lia)) as Hdm.
  pose proof (Z.mod_pos_bound (20 * Z.abs (q_num q) + q_den q)
                (2 * q_den q) ltac:(lia)) as Hb.
  lia.
Qed.

(** Once [u] has reached the last unit the loop stops, whatever the
    rounds left. *)
Lemma do_while_last (n : nat) (q : quot) (u : Z) :
  2 <= u -> do_while n q u = (div1024 q, u + 1).
Proof.
  intros Hu. destruct n; cbn [do_while]; [done|].
  change (Z.of_nat (length units) - 1) with 3.
  destruct (Z.ltb_spec (u + 1) 3); [lia|]. by rewrite andb_false_r.
Qed.

(** The loop stops by itself: three rounds after the first are enough,
    and more change nothing. *)
Lemma do_while_rounds (n : nat) (z : Z) :
  do_while (3 + n) (quot_of_Z z) (-1) = do_while 3 (quot_of_Z z) (-1).
Proof.
  cbn [do_while Nat.add]. by rewrite (do_while_last n) by lia.
Qed.

(** How often the loop divides: once, and again while the quotient is
    1024 or more and a larger unit is left. *)
Lemma do_while_divisions (z : Z) :
  exists k : nat,
    do_while 3 (quot_of_Z z) (-1)
    = ({| q_num := z; q_div := k |}, Z.of_nat k - 1) /\
    (1 <= k <= 4)%nat /\
    ((1 < k)%nat -> 1024 ^ Z.of_nat k <= Z.abs z) /\
    ((k < 4)%nat -> Z.abs z < 1024 ^ (Z.of_nat k + 1)).
Proof.
  unfold quot_of_Z. cbn [do_while].
  unfold abs_ge_1024, div1024, q_den. cbn [q_num q_div].
  change (Z.of_nat (length units) - 1) with 3.
  change (-1 + 1) with 0. change (0 + 1) with 1. change (1 + 1) with 2.
  change (2 + 1) with 3.
  change (0 <? 3) with true. change (1 <? 3) with true.
  change (2 <? 3) with true. rewrite !andb_true_r.
  change (1024 * 1024 ^ Z.of_nat 1) with (1024 ^ 2).
  change (1024 * 1024 ^ Z.of_nat 2) with (1024 ^ 3).
  change (1024 * 1024 ^ Z.of_nat 3) with (1024 ^ 4).
  destruct (Z.leb_spec (1024 ^ 2) (Z.abs z)) as [H2|H2].
  2:{ exists 1%nat. repeat split; try lia. }
  destruct (Z.leb_spec (1024 ^ 3) (Z.abs z)) as [H3|H3].
  2:{ exists 2%nat. repeat split; try lia. }
  destruct (Z.leb_spec (1024 ^ 4) (Z.abs z)) as [H4|H4].
  2:{ exists 3%nat. repeat split; try lia. }
  exists 4%nat. repeat split; try lia.
Qed.

Example humanFileSize_samples :
  map humanFileSize
      [Num 1; Num 1023; Num 1024; Num 1100; Num 1048575; Num 1048576;
       Num 1572864; Num (5 * 1024 ^ 3); Num (3 * 1024 ^ 5); Num (-2048)]
  = ["1 B"; "1023 B"; "1.0 KB"; "1.1 KB"; "1024.0 KB"; "1.0 MB";
     "1.5 MB"; "5.0 GB"; "3072.0 TB"; "-2.0 KB"].
Proof. vm_compute. reflexivity. Qed.

(** [humanFileSize(0)] is ["Unknown"], not ["0 B"]: [!bytes] holds for
    zero.  And an argument that is no number is not always ["Unknown"]:
    [true] converts to 1 and gives ["true B"]. *)
Lemma C2_zero_is_unknown :
  humanFileSize (Num 0) = "Unknown" /\ humanFileSize (Num 0) <> "0 B" /\
  humanFileSize_of boolean_true = "true B".
Proof. split; [reflexivity | split; [discriminate | reflexivity]]. Qed.

(** C2, as the code has it.  [humanFileSize] gives ["Unknown"] for
    [null], [undefined], [NaN] and [0], and for every argument that is
    falsy or converts to [NaN], such as a text that is no number;
    ["1023 B"], ["1.0 KB"] and ["1.5 KB"] for 1023, 1024 and 1536; the
    integer followed by [" B"] for a non-zero magnitude under 1024; and,
    for an integer of magnitude from 1024 up to [2 ^ 53], the quotient
    by [1024 ^ k] to one decimal place, rounded to the nearest tenth
    (the upper one on a tie), with its sign, followed by the [k]-th of
    KB, MB, GB, TB, where [k] counts the divisions made until the
    magnitude is under 1024 or TB is reached. *)
Theorem C2_humanFileSize_table :
  humanFileSize (Num 0) = "Unknown" /\
  humanFileSize (Num 1023) = "1023 B" /\
  humanFileSize (Num 1024) = "1.0 KB" /\
  humanFileSize (Num 1536) = "1.5 KB" /\
  humanFileSize Null = "Unknown" /\
  humanFileSize Undefined = "Unknown" /\
  humanFileSize NaN = "Unknown" /\
  (forall z, z <> 0 -> Z.abs z < 1024 ->
     humanFileSize (Num z) = string_of_Z z +:+ " B") /\
  (forall z, 1024 <= Z.abs z -> Z.abs z <= 2 ^ 53 ->
     exists (k : nat) (unit : string) (t : Z),
       (1 <= k <= 4)%nat /\
       units !! (k - 1)%nat = Some unit /\
       1024 ^ Z.of_nat k <= Z.abs z /\
       ((k < 4)%nat -> Z.abs z < 1024 ^ (Z.of_nat k + 1)) /\
       2 * 1024 ^ Z.of_nat k * t <= 20 * Z.abs z + 1024 ^ Z.of_nat k
       < 2 * 1024 ^ Z.of_nat k * (t + 1) /\
       humanFileSize (Num z)
       = ((if z <? 0 then "-" else "") +:+
          string_of_Z (t / 10) +:+ "." +:+ string_of_Z (t mod 10))
         +:+ " " +:+ unit) /\
  (forall x, humanFileSize_of (argument_of x) = humanFileSize x) /\
  (forall a, to_boolean a = false \/ to_number a = None ->
     humanFileSize_of a = "Unknown") /\
  humanFileSize_of text_abc = "Unknown".
Proof.
  repeat (split; [reflexivity|]).
  split; [|split; [|split; [|split]]].
  - intros z Hz Hlt. unfold humanFileSize, truthy_num, isNaN, thresh.
    destruct (Z.eqb_spec z 0); [done|]. cbn [negb orb].
    by destruct (Z.ltb_spec (Z.abs z) 1024); [|lia].
  - intros z Hge _. unfold humanFileSize, truthy_num, isNaN, thresh.
    destruct (Z.eqb_spec z 0); [lia|]. cbn [negb orb].
    destruct (Z.ltb_spec (Z.abs z) 1024); [lia|].
    destruct (do_while_divisions z) as (k & -> & Hk & Hlo & Hhi).
    assert (Hunit : exists unit, units !! (k - 1)%nat = Some unit /\
                      nth (Z.to_nat (Z.of_nat k - 1)) units "undefined" = unit).
    { replace (Z.to_nat (Z.of_nat k - 1)) with (k - 1)%nat by lia.
      destruct k as [|[|[|[|[|k]]]]]; try lia; simpl; eauto. }
    destruct Hunit as (unit & Hu1 & Hu2).
    exists k, unit, (tenths {| q_num := z; q_div := k |}). rewrite Hu2.
    split; [done|]. split; [done|]. split.
    { destruct (decide (k = 1%nat)) as [->|]; [|apply Hlo; lia].
      change (1024 ^ Z.of_nat 1) with 1024. lia. }
    split; [done|]. split.
    { apply (tenths_nearest {| q_num := z; q_div := k |}). }
    unfold toFixed1. cbn [q_num]. by destruct (z <? 0).
  - intros x. by destruct x.
  - intros a [Hb|Hn]; unfold humanFileSize_of.
    + by rewrite Hb.
    + rewrite (bool_decide_eq_true_2 _ Hn). by rewrite orb_true_r.
  - reflexivity.
Qed.

(** ** C3: classification *)

(** A record with the no-video marker and extension png is an image in
    [part_000], not audio; a record with extension png and no hint is a
    video in [src/server.js], not an image. *)
Lemma C3_png_counterexample :
  no_video raw_png_no_video = true /\
  Part000.classify raw_png_no_video = image /\
  no_video raw_png_plain = false /\
  audio_hint raw_png_plain = false /\
  image_ext raw_png_plain = true /\
  Server.classify raw_png_plain = video.
Proof. repeat split. Qed.

(** C3, as the code has it.  In [part_000] the last rule that applies
    wins: an extension of the still-image set (in any letter case) gives
    image, whatever the codecs say; else the no-video marker or the word
    audio (in any letter case) in the format descriptor gives audio;
    else video.  [src/server.js] and [part_001] have no image class: the
    no-video marker (in [src/server.js] also the word audio in the
    descriptor) gives audio whatever the extension, and every other
    record is a video. *)
Theorem C3_classification (f : Raw.t) :
  Part000.classify f
  = (if image_ext f then image
     else if no_video f || audio_hint_any_case f then audio
     else video) /\
  Server.classify f
  = (if no_video f || audio_hint f then audio else video) /\
  Part001.classify f = (if no_video f then audio else video).
Proof.
  unfold Part000.classify, Server.classify, Part001.classify,
    Part000.test_audio_i, Part000.image_exts, image_ext, audio_hint,
    audio_hint_any_case.
  split; [|split].
  - assert (Hext : truthy_ostr (Raw.ext f) &&
        array_includes ["jpg"; "jpeg"; "png"; "webp"; "gif"]
          (toLowerCase (default "" (Raw.ext f)))
      = match Raw.ext f with
        | Some e => array_includes ["jpg"; "jpeg"; "png"; "webp"; "gif"]
                      (toLowerCase e)
        | None => false
        end).
    { destruct (Raw.ext f) as [[|c e]|]; reflexivity. }
    rewrite Hext.
    assert (Hfmt : truthy_ostr (Raw.format f) &&
        includes "audio" (toLowerCase (default "" (Raw.format f)))
      = match Raw.format f with
        | Some s => includes "audio" (toLowerCase s)
        | None => false
        end).
    { destruct (Raw.format f) as [[|c s]|]; reflexivity. }
    rewrite Hfmt.
    destruct (match Raw.ext f with Some _ => _ | None => _ end); [done|].
    destruct (no_video f); [|done].
    by destruct (match Raw.format f with Some _ => _ | None => _ end).
  - destruct (no_video f); [|done].
    by destruct (match Raw.format f with Some _ => _ | None => _ end).
  - done.
Qed.

(** ** C5: labels *)









Example labels_samples :
  let f := Raw.mk (Some "https://a/v") (Some "avc1") (Some "mp4a")
             (Some "137 - 1920x1080 (1080p)") (Some " 1080p60 ") (Some 1080)
             (Some 1920) None (Some "mp4") None None (Some "137") in
  let g := Raw.mk (Some "https://a/w") None None
             (Some "251 - audio only") None None
             None None (Some "webm") None None (Some "251") in
  Server.make_label f = "1080p60  1080p" /\
  Part000.make_label f = "1080p60 1080p" /\
  Server.make_label g = "WEBM" /\
  Part000.make_label g = "251 - audio only" /\
  Part000.make_label Raw.empty = "Unknown".
Proof. repeat split. Qed.




Lemma truthy_ostr_Some s : s <> "" -> truthy_ostr (Some s) = true.
Proof. intros Hs. by apply truthy_str_nonempty. Qed.

Lemma truthy_str_true s : s <> "" -> truthy_str s = true.
Proof. apply truthy_str_nonempty. Qed.


Lemma part_000_label_nonempty f : Part000.make_label f <> "".
Proof.
  unfold Part000.make_label.
  destruct (truthy_str (join " " (Part000.labelParts f))) eqn:Hj.
  - by apply truthy_str_nonempty.
  - destruct (Raw.ext f) as [e|] eqn:He; simpl; [|done].
    destruct (truthy_str e) eqn:Hte; [|done].
    by apply toUpperCase_nonempty, truthy_str_nonempty.
Qed.





(** ** The size resolver *)

Lemma server_getContentLength_run w url log :
  Server.getContentLength w url log
  = (Ok (probed_length server_js w url),
     (log ++ probe_calls server_js w url)%list).
Proof.
  unfold Server.getContentLength, try_catch, bind, await, ret,
    probed_length, head_length, probe_calls.
  by destruct (axios_head w url).
Qed.

Lemma part_000_getContentLength_run w url log :
  Part000.getContentLength w url log
  = (Ok (probed_length part_000 w url),
     (log ++ probe_calls part_000 w url)%list).
Proof.
  unfold Part000.getContentLength, Part000.ranged_get, try_catch, bind,
    await, ret, probed_length, head_length, ranged_length, probe_calls.
  destruct (axios_head w url) as [resp|e]; [done|].
  rewrite <- app_assoc. simpl.
  destruct (axios_get w url) as [resp|e']; [|done].
  destruct (truthy_ostr _); [|done].
  by destruct (Part000.match_total _).
Qed.

Lemma probed_length_fails v w url :
  head_fails w url -> (v = part_000 -> ranged_get_fails w url) ->
  probed_length v w url = Null.
Proof.
  unfold head_fails, ranged_get_fails, probed_length, head_length,
    ranged_length.
  intros Hh Hg. destruct v.
  - destruct (axios_head w url); [by rewrite Hh|done].
  - specialize (Hg eq_refl).
    destruct (axios_head w url); [by rewrite Hh|].
    destruct (axios_get w url) as [resp|]; [|done].
    destruct Hg as [Hr Hl]. unfold or_ostr. by rewrite Hr, Hl.
  - destruct (axios_head w url); [by rewrite Hh|done].
Qed.

Lemma filled_url len f : Cand.url (filled len f) = Cand.url f.
Proof. unfold filled. by destruct (truthy_num _). Qed.

Lemma filled_idemp len f : filled len (filled len f) = filled len f.
Proof.
  unfold filled. destruct (truthy_num (len (Cand.url f))) eqn:Hl; simpl.
  - by rewrite Hl.
  - by rewrite Hl.
Qed.

Lemma fill_one_length len i formats :
  length (fill_one len i formats) = length formats.
Proof.
  unfold fill_one. destruct (formats !! i); [|done].
  destruct (truthy_num _); [|done]. apply length_insert.
Qed.

Lemma fill_one_lookup len i formats j :
  fill_one len i formats !! j
  = if decide (i = j) then filled len <$> formats !! j else formats !! j.
Proof.
  unfold fill_one, filled. destruct (decide (i = j)) as [->|Hij].
  - destruct (formats !! j) as [f|] eqn:Hf; [|done]. simpl.
    destruct (truthy_num _); [|done].
    apply list_lookup_insert_eq. by eapply lookup_lt_Some.
  - destruct (formats !! i) as [f|]; [|done].
    destruct (truthy_num _); [|done]. by apply list_lookup_insert_ne.
Qed.

Lemma fill_lookup len indices formats j :
  fill len indices formats !! j
  = if decide (j ∈ indices) then filled len <$> formats !! j
    else formats !! j.
Proof.
  unfold fill. revert formats.
  induction indices as [|i indices IH]; intros formats; simpl.
  - destruct (decide (j ∈ [])) as [Hin|]; [|done].
    by apply elem_of_nil in Hin.
  - rewrite IH, !fill_one_lookup.
    destruct (decide (i = j)) as [->|Hij].
    + rewrite (decide_True (P := j ∈ j :: indices))
        by apply list_elem_of_here.
      destruct (decide (j ∈ indices)); [|done].
      destruct (formats !! j); [|done]. simpl. by rewrite filled_idemp.
    + destruct (decide (j ∈ indices)) as [Hin|Hin].
      * by rewrite (decide_True (P := j ∈ i :: indices))
          by (by apply list_elem_of_further).
      * rewrite (decide_False (P := j ∈ i :: indices)); [done|].
        intros [?|?]%elem_of_cons; [congruence|done].
Qed.

Lemma fill_length len indices formats :
  length (fill len indices formats) = length formats.
Proof.
  unfold fill. revert formats.
  induction indices as [|i indices IH]; intros formats; simpl; [done|].
  by rewrite IH, fill_one_length.
Qed.

Lemma fill_calls_fill_one calls len i indices formats :
  fill_calls calls indices (fill_one len i formats)
  = fill_calls calls indices formats.
Proof.
  unfold fill_calls. f_equal. apply map_ext. intros j.
  rewrite fill_one_lookup. destruct (decide (i = j)); [|done].
  destruct (formats !! j); [|done]. simpl. by rewrite filled_url.
Qed.

Lemma fill_calls_fill calls len js indices formats :
  fill_calls calls indices (fill len js formats)
  = fill_calls calls indices formats.
Proof.
  unfold fill. revert formats.
  induction js as [|j js IH]; intros formats; simpl; [done|].
  by rewrite IH, fill_calls_fill_one.
Qed.

Lemma fill_app len is1 is2 formats :
  fill len (is1 ++ is2) formats = fill len is2 (fill len is1 formats).
Proof. unfold fill. apply fold_left_app. Qed.

Lemma fill_calls_app calls is1 is2 formats :
  fill_calls calls (is1 ++ is2) formats
  = (fill_calls calls is1 formats ++ fill_calls calls is2 formats)%list.
Proof. unfold fill_calls. by rewrite map_app, concat_app. Qed.

(** Running the probes one after the other. *)
Section ForEach.
Variable len : string -> num.
Variable calls : string -> list call.
Variable probe : nat -> list Cand.t -> M (list Cand.t).
Hypothesis probe_run : forall i formats log,
  probe i formats log
  = (Ok (fill_one len i formats),
     (log ++ match formats !! i with
             | Some f => calls (Cand.url f)
             | None => []
             end)%list).

Lemma for_each_run indices formats log :
  for_each probe indices formats log
  = (Ok (fill len indices formats),
     (log ++ fill_calls calls indices formats)%list).
Proof.
  revert formats log.
  induction indices as [|i indices IH]; intros formats log.
  - unfold fill_calls. simpl. unfold ret. by rewrite app_nil_r.
  - cbn [for_each]. unfold bind. rewrite probe_run, IH.
    rewrite fill_calls_fill_one. unfold fill, fill_calls. simpl.
    by rewrite <- app_assoc.
Qed.
End ForEach.

Lemma server_probe_run w i formats log :
  Server.probe w i formats log
  = (Ok (fill_one (probed_length server_js w) i formats),
     (log ++ match formats !! i with
             | Some f => probe_calls server_js w (Cand.url f)
             | None => []
             end)%list).
Proof.
  unfold Server.probe, fill_one.
  destruct (formats !! i) as [f|].
  - unfold bind. rewrite server_getContentLength_run. unfold ret.
    by destruct (truthy_num _).
  - unfold ret. by rewrite app_nil_r.
Qed.

Lemma part_000_probe_run w i formats log :
  Part000.probe w i formats log
  = (Ok (fill_one (probed_length part_000 w) i formats),
     (log ++ match formats !! i with
             | Some f => probe_calls part_000 w (Cand.url f)
             | None => []
             end)%list).
Proof.
  unfold Part000.probe, fill_one.
  destruct (formats !! i) as [f|].
  - unfold try_catch, bind. rewrite part_000_getContentLength_run.
    unfold ret. by destruct (truthy_num _).
  - unfold ret. by rewrite app_nil_r.
Qed.

(** The loop over the slices probes all of [toCheck] from [i] on, given
    rounds enough; [length toCheck] rounds are enough from [0]. *)
Lemma part_000_probe_slices_run w rounds i toCheck formats log :
  (length toCheck <= i + Part000.concurrency * rounds)%nat ->
  Part000.probe_slices w rounds i toCheck formats log
  = (Ok (fill (probed_length part_000 w) (drop i toCheck) formats),
     (log ++ fill_calls (probe_calls part_000 w) (drop i toCheck) formats)%list).
Proof.
  revert i formats log.
  induction rounds as [|rounds IH]; intros i formats log Hlen.
  - simpl. unfold ret. rewrite drop_ge by lia.
    unfold fill_calls. simpl. by rewrite app_nil_r.
  - cbn [Part000.probe_slices].
    destruct (Nat.ltb_spec i (length toCheck)) as [Hi|Hi].
    + unfold bind.
      rewrite (for_each_run (probed_length part_000 w)
                 (probe_calls part_000 w) (Part000.probe w)
                 (part_000_probe_run w)).
      rewrite IH by (unfold Part000.concurrency in *; lia).
      rewrite fill_calls_fill, <- app_assoc, <- fill_calls_app, <- fill_app.
      replace (drop (i + Part000.concurrency) toCheck)
        with (drop Part000.concurrency (drop i toCheck))
        by (rewrite drop_drop; f_equal; lia).
      by rewrite take_drop.
    + unfold ret. rewrite drop_ge by lia.
      unfold fill_calls. simpl. by rewrite app_nil_r.
Qed.

(** ** The handler on a request that goes through *)

Lemma server_caching env : Server.ENABLE_CACHING env = caching server_js env.
Proof.
  unfold Server.ENABLE_CACHING, Server.REDIS_URL, caching, or_null_str.
  by destruct (truthy_ostr (env_REDIS_URL env)) eqn:H.
Qed.

Lemma part_000_caching env :
  Part000.ENABLE_CACHING env = caching part_000 env.
Proof.
  unfold Part000.ENABLE_CACHING, Part000.REDIS_URL, caching, or_null_str.
  by destruct (truthy_ostr (env_REDIS_URL env)) eqn:H.
Qed.

Lemma server_read_meta_run w stdout m log :
  read_stdout w stdout = Whole (MetaObj m) \/
  read_stdout w stdout = FirstLine (Ok (MetaObj m)) ->
  Server.read_meta w stdout log = (Ok m, log).
Proof. unfold Server.read_meta, bind, ret, lift. by intros [->| ->]. Qed.

Lemma part_000_read_meta_run w stdout m log :
  read_stdout w stdout = Whole (MetaObj m) \/
  read_stdout w stdout = FirstLine (Ok (MetaObj m)) ->
  Part000.read_meta w stdout log = (Ok (Some m), log).
Proof. unfold Part000.read_meta, bind, ret, lift. by intros [->| ->]. Qed.

Lemma part_001_read_meta_run w stdout m log :
  read_stdout w stdout = Whole (MetaObj m) \/
  read_stdout w stdout = FirstLine (Ok (MetaObj m)) ->
  Part001.read_meta w stdout log = (Ok m, log).
Proof. unfold Part001.read_meta, bind, ret, lift. by intros [->| ->]. Qed.

Lemma server_pipeline_run w env u m log :
  extractor_returns server_js w u m ->
  cache_stores server_js w env u ->
  Server.pipeline w env u (cache_key u) log
  = (Ok (Response 200 (Json (payload_of server_js w m))),
     (log ++ [ExecFile "./yt-dlp" ["-j"; "--no-warnings"; u]] ++
      fill_calls (probe_calls server_js w)
        (probed server_js (candidates server_js w m))
        (candidates server_js w m) ++
      (if caching server_js env
       then [CacheSet (cache_key u) (payload_of server_js w m) 300]
       else []))%list).
Proof.
  intros (stdout & Hexec & Hread) Hstore.
  unfold Server.pipeline. unfold bind at 1. unfold await at 1.
  simpl in Hexec. rewrite Hexec.
  unfold bind at 1. rewrite (server_read_meta_run w stdout m _ Hread).
  unfold bind at 1.
  rewrite (for_each_run (probed_length server_js w)
             (probe_calls server_js w) (Server.probe w)
             (server_probe_run w)).
  rewrite server_caching. unfold bind, ret, await.
  destruct (caching server_js env) eqn:Hc.
  - destruct Hstore as [Hoff|Hset]; [congruence|]. rewrite Hset.
    cbv beta iota. f_equal. by rewrite <- !app_assoc.
  - cbv beta iota. f_equal. by rewrite app_nil_r, <- !app_assoc.
Qed.

Lemma server_cache_lookup_miss w env u log :
  cache_misses server_js w env u ->
  Server.cache_lookup w env (cache_key u) log
  = (Ok None,
     (log ++ if caching server_js env
             then [CacheGet (cache_key u)] else [])%list).
Proof.
  intros Hmiss. unfold Server.cache_lookup. rewrite server_caching.
  destruct (caching server_js env) eqn:Hc.
  - destruct Hmiss as [Hoff|(cached & Hget & Hfalsy)]; [congruence|].
    unfold bind, await, ret. by rewrite Hget, Hfalsy.
  - unfold ret. by rewrite app_nil_r.
Qed.

(** [src/server.js]: the response and the calls of a request that goes
    through. *)
Lemma server_extract_run w env req u p m :
  query_url req = Some u -> u <> "" -> new_URL w u = Ok p ->
  cache_misses server_js w env u ->
  extractor_returns server_js w u m ->
  cache_stores server_js w env u ->
  serve (Server.extract w env req)
  = (Response 200 (Json (payload_of server_js w m)),
     calls_of server_js w env u m).
Proof.
  intros Hq Hu Hp Hmiss Hex Hstore.
  unfold serve, Server.extract. rewrite Hq, (truthy_ostr_Some u Hu).
  cbn [negb from_option id]. unfold id. rewrite Hp. fold (cache_key u).
  unfold bind at 1. rewrite (server_cache_lookup_miss w env u _ Hmiss).
  unfold try_catch.
  by rewrite (server_pipeline_run w env u m _ Hex Hstore).
Qed.

Lemma part_001_getContentLength_run w url log :
  Part001.getContentLength w url log
  = (Ok (probed_length part_001 w url),
     (log ++ probe_calls part_001 w url)%list).
Proof.
  unfold Part001.getContentLength, try_catch, bind, await, ret,
    probed_length, head_length, probe_calls.
  by destruct (axios_head w url).
Qed.

Lemma part_001_probe_run w i formats log :
  Part001.probe w i formats log
  = (Ok (fill_one (probed_length part_001 w) i formats),
     (log ++ match formats !! i with
             | Some f => probe_calls part_001 w (Cand.url f)
             | None => []
             end)%list).
Proof.
  unfold Part001.probe, fill_one.
  destruct (formats !! i) as [f|].
  - unfold bind. rewrite part_001_getContentLength_run. unfold ret.
    by destruct (truthy_num _).
  - unfold ret. by rewrite app_nil_r.
Qed.

(** [part_001]: the same; there is no cache to ask. *)
Lemma part_001_extract_run w env req u p m :
  query_url req = Some u -> u <> "" -> new_URL w u = Ok p ->
  extractor_returns part_001 w u m ->
  serve (Part001.extract w req)
  = (Response 200 (Json (payload_of part_001 w m)),
     calls_of part_001 w env u m).
Proof.
  intros Hq Hu Hp (stdout & Hexec & Hread).
  unfold serve, Part001.extract. rewrite Hq, (truthy_ostr_Some u Hu).
  cbn [negb from_option id]. unfold id. rewrite Hp.
  unfold Part001.cache_lookup, Part001.ENABLE_CACHING.
  unfold bind at 1. unfold ret at 1. unfold try_catch, Part001.pipeline.
  unfold bind at 1. unfold await at 1. simpl in Hexec. rewrite Hexec.
  unfold bind at 1. rewrite (part_001_read_meta_run w stdout m _ Hread).
  unfold bind at 1.
  rewrite (for_each_run (probed_length part_001 w)
             (probe_calls part_001 w) (Part001.probe w)
             (part_001_probe_run w)).
  unfold Part001.ENABLE_CACHING, bind, ret, calls_of. cbv beta iota.
  f_equal. simpl. by rewrite app_nil_r.
Qed.

Lemma part_000_pipeline_run w env u m log :
  extractor_returns part_000 w u m ->
  Part000.pipeline w env u (cache_key u) log
  = (Ok (Response 200 (Json (payload_of part_000 w m))),
     (log ++ [ExecFile "yt-dlp" ["-j"; "--no-warnings"; u]] ++
      fill_calls (probe_calls part_000 w)
        (probed part_000 (candidates part_000 w m))
        (candidates part_000 w m) ++
      (if caching part_000 env
       then [CacheSet (cache_key u) (payload_of part_000 w m) 300]
       else []))%list).
Proof.
  intros (stdout & Hexec & Hread).
  unfold Part000.pipeline. unfold bind at 1. unfold await at 1.
  simpl in Hexec. rewrite Hexec.
  unfold bind at 1. rewrite (part_000_read_meta_run w stdout m _ Hread).
  unfold bind at 1. cbn [mbind option_bind].
  rewrite part_000_probe_slices_run
    by (unfold Part000.concurrency; lia).
  rewrite drop_0.
  rewrite part_000_caching. unfold bind, ret, try_catch, await.
  destruct (caching part_000 env) eqn:Hc.
  - destruct (redis_set _ _ _); cbv beta iota; f_equal;
      by rewrite <- !app_assoc.
  - cbv beta iota. f_equal. by rewrite app_nil_r, <- !app_assoc.
Qed.

Lemma part_000_cache_lookup_no_hit w env u log :
  no_cache_hit w env u ->
  Part000.cache_lookup w env (cache_key u) log
  = (Ok None,
     (log ++ if caching part_000 env
             then [CacheGet (cache_key u)] else [])%list).
Proof.
  intros Hmiss. unfold Part000.cache_lookup. rewrite part_000_caching.
  destruct (caching part_000 env) eqn:Hc.
  - destruct Hmiss as [Hoff|Hget]; [congruence|].
    unfold try_catch, bind, await, ret, lift.
    destruct (redis_get w (cache_key u)) as [cached|e]; [|done].
    destruct Hget as [Hfalsy|[e He]]; [by rewrite Hfalsy|].
    rewrite He. by destruct (truthy_ostr cached).
  - unfold ret. by rewrite app_nil_r.
Qed.

(** [part_000]: the same, with the key check passed; a cache that fails
    to read or to write changes nothing. *)
Lemma part_000_extract_run w env req u p m :
  query_url req = Some u -> u <> "" ->
  Part000.key_rejected env req = false ->
  new_URL w u = Ok p ->
  no_cache_hit w env u ->
  extractor_returns part_000 w u m ->
  serve (Part000.extract w env req)
  = (Response 200 (Json (payload_of part_000 w m)),
     calls_of part_000 w env u m).
Proof.
  intros Hq Hu Hkey Hp Hmiss Hex.
  unfold serve, Part000.extract. rewrite Hq, (truthy_ostr_Some u Hu), Hkey.
  cbn [negb from_option id]. unfold id. rewrite Hp. fold (cache_key u).
  unfold bind at 1.
  rewrite (part_000_cache_lookup_no_hit w env u _ Hmiss).
  unfold try_catch.
  by rewrite (part_000_pipeline_run w env u m _ Hex).
Qed.

Lemma cache_misses_no_hit w env u :
  cache_misses part_000 w env u -> no_cache_hit w env u.
Proof.
  intros [Hoff|(cached & Hget & Hfalsy)]; [by left|].
  right. rewrite Hget. by left.
Qed.

(** The three variants at once. *)
Lemma handler_run v w env req u p m :
  query_url req = Some u -> u <> "" -> key_accepted v env req ->
  new_URL w u = Ok p ->
  cache_misses v w env u ->
  extractor_returns v w u m ->
  cache_stores v w env u ->
  serve (handler v w env req)
  = (Response 200 (Json (payload_of v w m)), calls_of v w env u m).
Proof.
  intros Hq Hu Hkey Hp Hmiss Hex Hstore. destruct v; simpl.
  - by apply (server_extract_run w env req u p m).
  - apply (part_000_extract_run w env req u p m); try done.
    by apply cache_misses_no_hit.
  - by apply (part_001_extract_run w env req u p m).
Qed.

(** ** C7: a probe that fails *)

Lemma getContentLength_run v w url log :
  getContentLength v w url log
  = (Ok (probed_length v w url), (log ++ probe_calls v w url)%list).
Proof.
  destruct v.
  - apply server_getContentLength_run.
  - apply part_000_getContentLength_run.
  - apply part_001_getContentLength_run.
Qed.

Lemma insert_sorted_perm {A} (cmp : A -> A -> Z) x l :
  insert_sorted cmp x l ≡ₚ x :: l.
Proof.
  induction l as [|y l IH]; simpl; [done|].
  destruct (cmp x y <=? 0); [done|]. by rewrite IH, Permutation_swap.
Qed.

(** Sorting rearranges, it neither drops nor adds. *)
Lemma sort_perm {A} (cmp : A -> A -> Z) l : sort cmp l ≡ₚ l.
Proof.
  induction l as [|x l IH]; simpl; [done|].
  by rewrite insert_sorted_perm, IH.
Qed.

Lemma to_mapped_url v c : Mapped.url (to_mapped v c) = Cand.url c.
Proof. by destruct v. Qed.

Lemma to_mapped_size v c :
  Mapped.size (to_mapped v c) = humanFileSize (Cand.filesize c).
Proof. by destruct v. Qed.

Lemma payload_formats_perm v w m :
  formats (payload_of v w m) ≡ₚ map (to_mapped v) (resolved v w m).
Proof. destruct v; simpl; [done|apply sort_perm|done]. Qed.

(** The candidate at an index after the probes. *)
Lemma resolved_lookup v w m i :
  resolved v w m !! i
  = if decide (i ∈ probed v (candidates v w m))
    then filled (probed_length v w) <$> candidates v w m !! i
    else candidates v w m !! i.
Proof. apply fill_lookup. Qed.

Lemma payload_entry v w m i c :
  resolved v w m !! i = Some c -> to_mapped v c ∈ formats (payload_of v w m).
Proof.
  intros Hc. rewrite payload_formats_perm.
  apply list_elem_of_fmap. exists c. split; [done|].
  by eapply list_elem_of_lookup_2.
Qed.

(** C7.  In each variant, for a request that goes through (the url is
    valid, the key check passes, the cache has no entry, the extractor
    prints a metadata object, the cache takes the result): whatever the
    probes do, [getContentLength] returns and does not throw, it returns
    [null] when the HEAD request fails or has no content-length (and, in
    [part_000], the ranged GET fails or has no length either), the
    candidate whose probe failed so keeps its [null] filesize and is
    shown with size ["Unknown"], and the response is a 200 with the
    payload. *)
Theorem C7_probe_failure_is_not_a_request_failure
    (v : variant) (w : World) (env : Env) (req : Request)
    (u : string) (p : URL) (m : Meta) :
  query_url req = Some u -> u <> "" -> key_accepted v env req ->
  new_URL w u = Ok p ->
  cache_misses v w env u ->
  extractor_returns v w u m ->
  cache_stores v w env u ->
  (forall url log,
     exists len log',
       getContentLength v w url log = (Ok len, log') /\
       (head_fails w url -> (v = part_000 -> ranged_get_fails w url) ->
        len = Null)) /\
  (exists payload log,
     serve (handler v w env req) = (Response 200 (Json payload), log) /\
     forall i c,
       candidates v w m !! i = Some c ->
       Cand.filesize c = Null ->
       head_fails w (Cand.url c) ->
       (v = part_000 -> ranged_get_fails w (Cand.url c)) ->
       resolved v w m !! i = Some c /\
       exists entry, entry ∈ formats payload /\
                     Mapped.url entry = Cand.url c /\
                     Mapped.size entry = "Unknown").
Proof.
  intros Hq Hu Hkey Hp Hmiss Hex Hstore. split.
  - intros url log. eexists _, _. split; [apply getContentLength_run|].
    apply probed_length_fails.
  - exists (payload_of v w m), (calls_of v w env u m).
    split; [by apply (handler_run v w env req u p m)|].
    intros i c Hc Hnull Hhead Hget.
    assert (Hres : resolved v w m !! i = Some c).
    { rewrite resolved_lookup, Hc.
      destruct (decide _); [|done]. cbn [fmap option_fmap option_map].
      unfold filled.
      by rewrite (probed_length_fails v w (Cand.url c) Hhead Hget). }
    split; [done|]. exists (to_mapped v c).
    split; [by apply (payload_entry v w m i)|].
    by rewrite to_mapped_url, to_mapped_size, Hnull.
Qed.

(** The theorem in the offline world, for [part_000]. *)
Lemma C7_witness_offline :
  (forall url log,
     exists len log',
       getContentLength part_000 offline_world url log = (Ok len, log') /\
       (head_fails offline_world url ->
        (part_000 = part_000 -> ranged_get_fails offline_world url) ->
        len = Null)) /\
  (exists payload log,
     serve (handler part_000 offline_world plain_env sample_request)
     = (Response 200 (Json payload), log) /\
     forall i c,
       candidates part_000 offline_world sample_meta !! i = Some c ->
       Cand.filesize c = Null ->
       head_fails offline_world (Cand.url c) ->
       (part_000 = part_000 -> ranged_get_fails offline_world (Cand.url c)) ->
       resolved part_000 offline_world sample_meta !! i = Some c /\
       exists entry, entry ∈ formats payload /\
                     Mapped.url entry = Cand.url c /\
                     Mapped.size entry = "Unknown").
Proof.
  apply (C7_probe_failure_is_not_a_request_failure part_000 offline_world
           plain_env sample_request "https://a/page"
           {| protocol := "https:" |} sample_meta).
  - reflexivity.
  - discriminate.
  - reflexivity.
  - reflexivity.
  - left. reflexivity.
  - exists "stdout". split; [reflexivity|]. left. reflexivity.
  - left. reflexivity.
Defined.

(** ** C9: the key check of [part_000] *)

(** With a key configured, a request that brings neither a url nor a key
    is answered 400, not 401. *)
Lemma C9_missing_url_answers_400 :
  truthy_ostr (env_API_KEY locked_env) = true /\
  truthy_ostr (supplied_key request_without_url) = false /\
  serve (Part000.extract offline_world locked_env request_without_url)
  = (Response 400 (Error "Missing url parameter"), []).
Proof. repeat split. Qed.

(** C9, as the code has it.  In [part_000], a request with a url
    parameter, at a server with an API key configured, whose key (the
    x-api-key header, else the apikey query parameter) is absent or is
    not the configured one, is answered 401 with the error
    ["Missing or invalid API key"], and no call leaves the process: no
    cache access, no extractor run, no probe.  A request without a url
    parameter is answered 400 before the key is looked at, also without
    any call. *)
Theorem C9_part_000_key_check (w : World) (env : Env) (req : Request) :
  truthy_ostr (env_API_KEY env) = true ->
  truthy_ostr (supplied_key req) = false \/
  supplied_key req <> env_API_KEY env ->
  (truthy_ostr (query_url req) = true ->
   serve (Part000.extract w env req)
   = (Response 401 (Error "Missing or invalid API key"), [])) /\
  (truthy_ostr (query_url req) = false ->
   serve (Part000.extract w env req)
   = (Response 400 (Error "Missing url parameter"), [])).
Proof.
  intros Hkey Hbad.
  assert (Hrej : Part000.key_rejected env req = true).
  { unfold Part000.key_rejected, Part000.API_KEY, or_null_str.
    rewrite Hkey, Hkey. fold (supplied_key req).
    destruct Hbad as [->|Hne]; [done|].
    rewrite bool_decide_eq_false_2 by done. apply orb_true_r. }
  split; intros Hurl; unfold serve, Part000.extract; rewrite Hurl; simpl.
  - by rewrite Hrej.
  - done.
Qed.

(** The theorem at a request whose header carries a wrong key. *)
Lemma C9_witness_wrong_key :
  (truthy_ostr (query_url request_wrong_key) = true ->
   serve (Part000.extract offline_world locked_env request_wrong_key)
   = (Response 401 (Error "Missing or invalid API key"), [])) /\
  (truthy_ostr (query_url request_wrong_key) = false ->
   serve (Part000.extract offline_world locked_env request_wrong_key)
   = (Response 400 (Error "Missing url parameter"), [])).
Proof.
  apply (C9_part_000_key_check offline_world locked_env request_wrong_key).
  - reflexivity.
  - right. discriminate.
Defined.

(** ** C8: a cache that fails *)

(** C8 in [src/server.js]: with caching on, a write that fails turns the
    request into a 500 carrying the cache's message, and a read that
    fails leaves the request without an answer; [part_000] answers 200
    with the same payload in both worlds. *)
Lemma C8_server_cache_failure_fails_request :
  Server.ENABLE_CACHING cached_env = true /\
  fst (serve (Server.extract cache_write_fails cached_env sample_request))
  = Response 500 (Error "Connection is closed.") /\
  serve (Server.extract cache_read_fails cached_env sample_request)
  = (Unhandled "Connection is closed.", [CacheGet "extract:https://a/page"]) /\
  fst (serve (Part000.extract cache_write_fails cached_env sample_request))
  = Response 200 (Json (payload_of part_000 offline_world sample_meta)) /\
  fst (serve (Part000.extract cache_read_fails cached_env sample_request))
  = Response 200 (Json (payload_of part_000 offline_world sample_meta)).
Proof. repeat split; vm_compute; reflexivity. Qed.

(** ** C10: a size of zero *)

Lemma declared_size_zero f :
  zero_or_absent (Raw.filesize f) ->
  zero_or_absent (Raw.filesize_approx f) ->
  declared_size f = Null.
Proof.
  unfold declared_size. by intros [->| ->] [->| ->].
Qed.

Lemma derive_with_sizes v f u s a s' a' :
  zero_or_absent s -> zero_or_absent a ->
  zero_or_absent s' -> zero_or_absent a' ->
  derive v (with_sizes f s a) u = derive v (with_sizes f s' a') u.
Proof.
  intros [->| ->] [->| ->] [->| ->] [->| ->]; by destruct v.
Qed.

Lemma probe_logged v w indices formats i c :
  i ∈ indices -> formats !! i = Some c ->
  AxiosHead (Cand.url c) ∈ fill_calls (probe_calls v w) indices formats.
Proof.
  intros Hi Hc. unfold fill_calls. apply list_elem_of_In, in_concat.
  exists (probe_calls v w (Cand.url c)). split.
  - apply in_map_iff. exists i. rewrite Hc. split; [done|].
    by apply list_elem_of_In.
  - unfold probe_calls. destruct v; try destruct (axios_head w _);
      by left.
Qed.

Lemma read_digits_nonneg s acc n :
  0 <= acc -> 0 <= (read_digits s acc n).1.1.
Proof.
  revert acc n. induction s as [|c s IH]; intros acc n Hacc; simpl; [done|].
  destruct (is_digit c); [|done]. apply IH. unfold digit_val. lia.
Qed.

(** A header made of digits reads as a number that is not negative. *)
Lemma parseInt_digits_nonneg s n :
  Part000.all_digits s = true -> parseInt s = Num n -> 0 <= n.
Proof.
  unfold Part000.all_digits, parseInt. destruct s as [|c s]; [done|].
  cbn [list_ascii_of_string forallb]. intros [Hc _]%andb_true_iff.
  assert (Hsp : is_space c = false).
  { unfold is_digit, is_space in *. destruct (nat_of_ascii c) as [|k]; [done|].
    apply andb_true_iff in Hc as [H1 H2].
    apply Nat.leb_le in H1, H2.
    apply orb_false_iff. split.
    - apply andb_false_iff. right. apply Nat.leb_gt. lia.
    - apply Nat.eqb_neq. lia. }
  cbn [trimStart]. rewrite Hsp.
  assert (Hsign : read_sign (String c s) = (1, String c s)).
  { unfold read_sign.
    destruct c as [[] [] [] [] [] [] [] []]; try reflexivity; discriminate. }
  rewrite Hsign.
  pose proof (read_digits_nonneg (String c s) 0 0 ltac:(lia)) as Hnn.
  destruct (read_digits (String c s) 0 0) as [[v k] r]. simpl in Hnn.
  destruct k; [done|]. intros [= <-]. lia.
Qed.

Lemma without_size_elem formats i c :
  formats !! i = Some c -> truthy_num (Cand.filesize c) = false ->
  i ∈ without_size formats.
Proof.
  intros Hc Hs. unfold without_size. apply list_elem_of_In, filter_In.
  split.
  - apply in_seq. apply lookup_lt_Some in Hc. lia.
  - by rewrite Hc, Hs.
Qed.

(** In [src/server.js] the seventh candidate without a size is not
    probed: of seven records with size zero, in a world where every HEAD
    request would report 5000 bytes, six are probed and shown as
    ["4.9 KB"] and the seventh stays ["Unknown"]. *)
Lemma C10_seventh_is_not_probed :
  (Cand.filesize <$> candidates server_js online_world seven_zero !! 6%nat)
  = Some Null /\
  probed_length server_js online_world "https://a/7" = Num 5000 /\
  snd (serve (Server.extract online_world plain_env sample_request))
  = [ExecFile "./yt-dlp" ["-j"; "--no-warnings"; "https://a/page"];
     AxiosHead "https://a/1"; AxiosHead "https://a/2";
     AxiosHead "https://a/3"; AxiosHead "https://a/4";
     AxiosHead "https://a/5"; AxiosHead "https://a/6"] /\
  map (fun e => (Mapped.url e, Mapped.size e))
      (formats (payload_of server_js online_world seven_zero))
  = [("https://a/1", "4.9 KB"); ("https://a/2", "4.9 KB");
     ("https://a/3", "4.9 KB"); ("https://a/4", "4.9 KB");
     ("https://a/5", "4.9 KB"); ("https://a/6", "4.9 KB");
     ("https://a/7", "Unknown")] /\
  fst (serve (Server.extract online_world plain_env sample_request))
  = Response 200 (Json (payload_of server_js online_world seven_zero)).
Proof. repeat split; vm_compute; reflexivity. Qed.

(** C10, as the code has it.  In each variant a declared or approximate
    size of 0 is treated like an absent one: the candidate is the same
    and its filesize is [null].  For a request that goes through, a
    candidate with a [null] filesize passes the filter of the resolver; it
    is probed when it is among the first six such candidates (in
    [part_000]: always); a probe whose content-length is ["0"] leaves the
    [null] in place; and its entry shows ["Unknown"] unless it was probed
    and the probe returned a number other than zero, which for a header
    made of digits is positive. *)
Theorem C10_zero_size_is_unknown
    (v : variant) (w : World) (env : Env) (req : Request)
    (u : string) (p : URL) (m : Meta) :
  query_url req = Some u -> u <> "" -> key_accepted v env req ->
  new_URL w u = Ok p ->
  cache_misses v w env u ->
  extractor_returns v w u m ->
  cache_stores v w env u ->
  (forall f url s a,
     zero_or_absent s -> zero_or_absent a ->
     Cand.filesize (derive v (with_sizes f s a) url) = Null /\
     derive v (with_sizes f s a) url = derive v (with_sizes f None None) url) /\
  serve (handler v w env req)
  = (Response 200 (Json (payload_of v w m)), calls_of v w env u m) /\
  probed v (candidates v w m)
  = (if decide (v = part_000) then without_size (candidates v w m)
     else take 6 (without_size (candidates v w m))) /\
  (forall i c,
     candidates v w m !! i = Some c -> Cand.filesize c = Null ->
     i ∈ without_size (candidates v w m) /\
     (i ∈ probed v (candidates v w m) ->
      AxiosHead (Cand.url c) ∈ calls_of v w env u m) /\
     (forall resp, axios_head w (Cand.url c) = Ok resp ->
                   content_length resp = Some "0" ->
                   resolved v w m !! i = Some c) /\
     exists entry,
       entry ∈ formats (payload_of v w m) /\
       Mapped.url entry = Cand.url c /\
       (Mapped.size entry = "Unknown" \/
        i ∈ probed v (candidates v w m) /\
        exists n, n <> 0 /\ probed_length v w (Cand.url c) = Num n /\
                  Mapped.size entry = humanFileSize (Num n))) /\
  (forall s n, Part000.all_digits s = true -> parseInt s = Num n -> 0 <= n).
Proof.
  intros Hq Hu Hkey Hp Hmiss Hex Hstore.
  split.
  { intros f url s a Hs Ha. split.
    - replace (Cand.filesize (derive v (with_sizes f s a) url))
        with (declared_size (with_sizes f s a)) by (by destruct v).
      by apply declared_size_zero.
    - apply derive_with_sizes; try done; by left. }
  split; [by apply (handler_run v w env req u p m)|].
  split; [by destruct v|].
  split; [|apply parseInt_digits_nonneg].
  intros i c Hc Hnull.
  assert (Hin : i ∈ without_size (candidates v w m)).
  { apply (without_size_elem _ i c Hc). by rewrite Hnull. }
  split; [done|]. split; [|split].
  - intros Hi. unfold calls_of. rewrite !elem_of_app. right. right. left.
    by apply (probe_logged v w _ _ i c).
  - intros resp Hhead Hzero. rewrite resolved_lookup, Hc.
    destruct (decide _); [|done]. cbn [fmap option_fmap option_map].
    unfold filled.
    assert (Hlen : probed_length v w (Cand.url c) = Num 0).
    { unfold probed_length, head_length. rewrite Hhead, Hzero.
      by destruct v. }
    by rewrite Hlen.
  - pose proof (resolved_lookup v w m i) as Hres. rewrite Hc in Hres.
    destruct (decide (i ∈ probed v (candidates v w m))) as [Hi|Hi].
    + cbn [fmap option_fmap option_map] in Hres. unfold filled in Hres.
      destruct (truthy_num (probed_length v w (Cand.url c))) eqn:Hlen.
      * exists (to_mapped v
                  (Cand.set_filesize (probed_length v w (Cand.url c)) c)).
        split; [by apply (payload_entry v w m i)|].
        rewrite to_mapped_url, to_mapped_size. split; [done|].
        right. split; [done|].
        destruct (probed_length v w (Cand.url c)) as [| | |n]; try done.
        exists n. simpl in Hlen. destruct (Z.eqb_spec n 0); [done|].
        by repeat split.
      * exists (to_mapped v c).
        split; [by apply (payload_entry v w m i)|].
        rewrite to_mapped_url, to_mapped_size, Hnull. split; [done|].
        by left.
    + exists (to_mapped v c).
      split; [by apply (payload_entry v w m i)|].
      rewrite to_mapped_url, to_mapped_size, Hnull. split; [done|].
      by left.
Qed.

(** The theorem for [src/server.js] and the seven records above. *)
Lemma C10_witness_seven_zero :
  (forall f url s a,
     zero_or_absent s -> zero_or_absent a ->
     Cand.filesize (derive server_js (with_sizes f s a) url) = Null /\
     derive server_js (with_sizes f s a) url
     = derive server_js (with_sizes f None None) url) /\
  serve (handler server_js online_world plain_env sample_request)
  = (Response 200 (Json (payload_of server_js online_world seven_zero)),
     calls_of server_js online_world plain_env "https://a/page" seven_zero) /\
  probed server_js (candidates server_js online_world seven_zero)
  = (if decide (server_js = part_000)
     then without_size (candidates server_js online_world seven_zero)
     else take 6 (without_size
                    (candidates server_js online_world seven_zero))) /\
  (forall i c,
     candidates server_js online_world seven_zero !! i = Some c ->
     Cand.filesize c = Null ->
     i ∈ without_size (candidates server_js online_world seven_zero) /\
     (i ∈ probed server_js (candidates server_js online_world seven_zero) ->
      AxiosHead (Cand.url c)
      ∈ calls_of server_js online_world plain_env "https://a/page"
          seven_zero) /\
     (forall resp, axios_head online_world (Cand.url c) = Ok resp ->
                   content_length resp = Some "0" ->
                   resolved server_js online_world seven_zero !! i = Some c) /\
     exists entry,
       entry ∈ formats (payload_of server_js online_world seven_zero) /\
       Mapped.url entry = Cand.url c /\
       (Mapped.size entry = "Unknown" \/
        i ∈ probed server_js (candidates server_js online_world seven_zero) /\
        exists n, n <> 0 /\
                  probed_length server_js online_world (Cand.url c) = Num n /\
                  Mapped.size entry = humanFileSize (Num n))) /\
  (forall s n, Part000.all_digits s = true -> parseInt s = Num n -> 0 <= n).
Proof.
  apply (C10_zero_size_is_unknown server_js online_world plain_env
           sample_request "https://a/page" {| protocol := "https:" |}
           seven_zero).
  - reflexivity.
  - discriminate.
  - exact I.
  - reflexivity.
  - left. reflexivity.
  - exists "stdout". split; [reflexivity|]. left. reflexivity.
  - left. reflexivity.
Defined.

(** ** C6: the order of the response *)

(** C6 in [part_000]: the comparator reads the number at the head of the
    size text and not the bytes, so the video of 900.0 KB (read as 900)
    is put before the video of 1.5 MB (read as 1.5). *)
Lemma C6_part_000_sorts_by_displayed_number :
  map Cand.filesize (candidates part_000 two_videos_world two_videos)
  = [Num 1572864; Num 921600] /\
  parseFloat "1.5 MB" = FDec 15 (-1) /\
  parseFloat "900.0 KB" = FDec 9000 (-1) /\
  fst (serve (Part000.extract two_videos_world plain_env sample_request))
  = Response 200
      (Json {| title := None; thumbnail := None;
               formats := [Mapped.mk "720p" "900.0 KB" "https://a/small" video;
                           Mapped.mk "720p" "1.5 MB" "https://a/large" video]
            |}).
Proof. repeat split; vm_compute; reflexivity. Qed.

(** What does hold of the order in [part_000]: the entries are grouped
    by type, and entries of one type shown with the same size keep their
    order. *)
Section SortBy.
Context {A : Type} (cmp : A -> A -> Z).

(** A key the comparator respects. *)
Section Key.
Variable key : A -> Z.
Hypothesis cmp_le : forall x y, cmp x y <= 0 -> key x <= key y.
Hypothesis cmp_gt : forall x y, 0 < cmp x y -> key y <= key x.

Lemma insert_sorted_key x l :
  StronglySorted (fun a b => key a <= key b) l ->
  StronglySorted (fun a b => key a <= key b) (insert_sorted cmp x l).
Proof.
  induction 1 as [|y l Hl IH Hy]; simpl.
  - repeat constructor.
  - destruct (Z.leb_spec (cmp x y) 0) as [Hc|Hc].
    + constructor; [by constructor|].
      constructor; [by apply cmp_le|].
      eapply Forall_impl; [exact Hy|]. intros z Hz. simpl in Hz.
      pose proof (cmp_le x y Hc). lia.
    + constructor; [done|].
      rewrite insert_sorted_perm. constructor; [by apply cmp_gt|done].
Qed.

Lemma sort_key l : StronglySorted (fun a b => key a <= key b) (sort cmp l).
Proof.
  induction l as [|x l IH]; simpl; [constructor|].
  by apply insert_sorted_key.
Qed.
End Key.

(** A group within which the comparator sees no difference. *)
Section Group.
Variable P : A -> bool.
Hypothesis cmp_tie : forall x y, P x = true -> P y = true -> cmp x y <= 0.

Lemma insert_sorted_group x l :
  List.filter P (insert_sorted cmp x l) = List.filter P (x :: l).
Proof.
  induction l as [|y l IH]; [done|]. cbn [insert_sorted].
  destruct (Z.leb_spec (cmp x y) 0) as [Hc|Hc]; [done|].
  cbn [List.filter] in *. rewrite IH.
  destruct (P x) eqn:Hx, (P y) eqn:Hy; try done.
  pose proof (cmp_tie x y Hx Hy). lia.
Qed.

Lemma sort_group l : List.filter P (sort cmp l) = List.filter P l.
Proof.
  induction l as [|x l IH]; [done|]. cbn [sort fold_right].
  fold (sort cmp l). rewrite insert_sorted_group. cbn [List.filter].
  by rewrite IH.
Qed.
End Group.
End SortBy.

Lemma compare_mapped_rank a b :
  (Part000.compare_mapped a b <= 0 ->
   rank (Mapped.type a) <= rank (Mapped.type b)) /\
  (0 < Part000.compare_mapped a b ->
   rank (Mapped.type b) <= rank (Mapped.type a)).
Proof.
  unfold Part000.compare_mapped.
  destruct (Mapped.type a), (Mapped.type b); simpl; lia.
Qed.

Lemma sign_of_difference_same x : sign_of_difference x x = 0.
Proof.
  destruct x as [m e]. unfold sign_of_difference.
  by rewrite Z.sub_diag.
Qed.

Lemma compare_mapped_tie t size a b :
  same_group t size a = true -> same_group t size b = true ->
  Part000.compare_mapped a b <= 0.
Proof.
  unfold same_group, Part000.compare_mapped.
  intros [Ha1 Ha2]%andb_true_iff [Hb1 Hb2]%andb_true_iff.
  apply bool_decide_eq_true in Ha1, Hb1.
  apply String.eqb_eq in Ha2, Hb2.
  rewrite bool_decide_eq_true_2 by congruence.
  rewrite Ha2, Hb2, sign_of_difference_same. lia.
Qed.


(** In [part_000] no failure of the cache, on reading or on writing,
    changes the answer: a request that passes the key check and whose
    extraction succeeds is answered 200 with the payload. *)
Lemma part_000_cache_is_advisory
    (w : World) (env : Env) (req : Request) (u : string) (p : URL)
    (m : Meta) :
  query_url req = Some u -> u <> "" ->
  Part000.key_rejected env req = false ->
  new_URL w u = Ok p ->
  no_cache_hit w env u ->
  extractor_returns part_000 w u m ->
  fst (serve (Part000.extract w env req))
  = Response 200 (Json (payload_of part_000 w m)).
Proof.
  intros Hq Hu Hkey Hp Hhit Hex.
  by rewrite (part_000_extract_run w env req u p m).
Qed.

Lemma part_000_cache_is_advisory_witness :
  fst (serve (Part000.extract cache_read_fails cached_env sample_request))
  = Response 200 (Json (payload_of part_000 cache_read_fails sample_meta)).
Proof.
  apply (part_000_cache_is_advisory cache_read_fails cached_env
           sample_request "https://a/page" {| protocol := "https:" |}
           sample_meta).
  - reflexivity.
  - discriminate.
  - reflexivity.
  - reflexivity.
  - right. exact I.
  - exists "stdout". split; [reflexivity|]. left. reflexivity.
Defined.

(** The end-to-end scenario of the spec: of two records with the url
    https://a/x.mp4, the first of height 720 and the second of height
    480, every variant answers with the one video entry labelled
    ["720p"]. *)
Lemma scenario_first_occurrence_wins (v : variant) :
  exists t th,
    fst (serve (handler v scenario_world plain_env sample_request))
    = Response 200
        (Json {| title := t; thumbnail := th;
                 formats := [Mapped.mk "720p" "Unknown" "https://a/x.mp4"
                               video] |}).
Proof. destruct v; eexists _, _; vm_compute; reflexivity. Qed.

(** * Further properties of the code *)

(** ** The normalizer as a function of its input *)

Lemma filter_filter_and {A} (f g : A -> bool) l :
  List.filter f (List.filter g l) = List.filter (fun x => g x && f x) l.
Proof.
  induction l as [|x l IH]; simpl; [done|].
  destruct (g x); simpl; [|done]. destruct (f x); by rewrite IH.
Qed.

Lemma filter_ext_in {A} (f g : A -> bool) l :
  (forall x, x ∈ l -> f x = g x) -> List.filter f l = List.filter g l.
Proof.
  intros H. apply List.filter_ext_in. intros x Hx. apply H.
  by apply list_elem_of_In.
Qed.

(** From any state of the loop, the candidates added are those of the
    first records by url whose url has not been seen. *)
Lemma visit_with_fold accept mk raws out (seen : gset string) :
  (fold_left (visit_with accept mk) raws (out, seen)).1
  = (out ++ map (fun p => mk p.1 p.2)
              (List.filter (fun q => negb (bool_decide (q.2 ∈ seen)))
                 (first_by_url (accepted_records accept raws))))%list.
Proof.
  revert out seen. induction raws as [|r raws IH]; intros out seen.
  - simpl. by rewrite app_nil_r.
  - cbn [fold_left]. destruct r as [f|]; [|apply IH].
    cbn [visit_with accepted_records omap list_omap].
    destruct (Raw.url f) as [u|]; [|apply IH].
    destruct (accept u) eqn:Hacc; cbn [andb]; [|apply IH].
    fold (accepted_records accept raws). cbn [first_by_url List.filter snd].
    case_bool_decide as Hseen; cbn [negb].
    + rewrite IH. f_equal. f_equal. rewrite filter_filter_and.
      apply filter_ext_in. intros q _. simpl.
      destruct (String.eqb_spec q.2 u) as [->|Hne]; simpl; [|done].
      by rewrite bool_decide_eq_true_2.
    + rewrite IH, <- app_assoc. simpl. f_equal. f_equal. f_equal.
      rewrite filter_filter_and. apply filter_ext_in. intros q _. simpl.
      destruct (String.eqb_spec q.2 u) as [->|Hne]; simpl.
      * rewrite bool_decide_eq_true_2; [done|].
        apply elem_of_union. left. by apply elem_of_singleton.
      * apply f_equal. apply bool_decide_ext.
        rewrite elem_of_union, elem_of_singleton. tauto.
Qed.

Lemma filter_true {A} (l : list A) : List.filter (fun _ => true) l = l.
Proof. induction l as [|x l IH]; simpl; [done|]. by rewrite IH. Qed.

Lemma normalizer_first_by_url v new_URL raws :
  normalizer v new_URL raws
  = map (fun p => derive v p.1 p.2)
        (first_by_url (accepted_records (accepts v new_URL) raws)).
Proof.
  rewrite normalizer_for_of. unfold for_of. rewrite visit_with_fold.
  simpl. f_equal. rewrite <- (filter_true (first_by_url _)) at 2.
  apply filter_ext_in. intros q _.
  by rewrite bool_decide_eq_false_2 by apply not_elem_of_empty.
Qed.

(** The output of [normalizeAndFilterFormats], in each variant, is the
    list of candidates derived from the first record of each accepted
    url, in input order: the loop with its set of seen urls computes
    what keeping the first pair of each url computes. *)
Theorem normalizer_is_first_by_url
    (v : variant) (new_URL : string -> result URL)
    (rawFormats : list (option Raw.t)) :
  normalizer v new_URL rawFormats
  = map (fun p => derive v p.1 p.2)
        (first_by_url (accepted_records (accepts v new_URL) rawFormats)) /\
  map Cand.url (normalizer v new_URL rawFormats)
  = map snd (first_by_url (accepted_records (accepts v new_URL) rawFormats)).
Proof.
  rewrite normalizer_first_by_url. split; [done|].
  rewrite map_map. apply map_ext. intros [f u]. apply derive_url.
Qed.

Lemma array_includes_web p :
  web_protocol p = true -> protocol p = "http:" \/ protocol p = "https:".
Proof.
  unfold web_protocol, array_includes. simpl.
  destruct (String.eqb_spec (protocol p) "http:"); [by left|].
  destruct (String.eqb_spec (protocol p) "https:"); [by right|done].
Qed.

(** The urls of the output are exactly the urls of the input that the
    variant accepts: a non-empty url that parses and, in [src/server.js]
    and [part_000], has protocol http: or https:.  None is invented and
    none is lost. *)
Theorem normalizer_urls_are_the_accepted_ones
    (v : variant) (new_URL : string -> result URL)
    (rawFormats : list (option Raw.t)) :
  (forall u,
     u ∈ map Cand.url (normalizer v new_URL rawFormats) <->
     accepts v new_URL u = true /\
     exists f, Some f ∈ rawFormats /\ Raw.url f = Some u) /\
  (forall c, c ∈ normalizer v new_URL rawFormats ->
     Cand.url c <> "" /\
     exists p, new_URL (Cand.url c) = Ok p /\
               (v <> part_001 ->
                protocol p = "http:" \/ protocol p = "https:")).
Proof.
  rewrite normalizer_for_of.
  destruct (normalizer_inv v new_URL rawFormats) as [Hseen _ Hfirst Hall].
  split.
  - intros u. split.
    + intros (c & -> & Hc)%list_elem_of_fmap.
      destruct (Hfirst c Hc) as (Hacc & i & f & (Hi & Hu & _) & _).
      split; [done|]. exists f. split; [|done].
      by eapply list_elem_of_lookup_2.
    + intros (Hacc & f & Hf & Hu). apply Hseen. by apply (Hall f u).
  - intros c Hc. destruct (Hfirst c Hc) as (Hacc & _).
    unfold accepts in Hacc. apply andb_true_iff in Hacc as [Hne Hp].
    split; [by apply truthy_str_nonempty|].
    destruct (new_URL (Cand.url c)) as [p|e]; [|done].
    exists p. split; [done|]. intros Hv. apply array_includes_web.
    by destruct v.
Qed.

Lemma first_by_url_length l : (length (first_by_url l) <= length l)%nat.
Proof.
  induction l as [|p l IH]; simpl; [done|].
  pose proof (List.filter_length_le
                (fun q => negb (String.eqb q.2 p.2)) (first_by_url l)).
  lia.
Qed.

Lemma accepted_records_length accept raws :
  (length (accepted_records accept raws) <= length raws)%nat.
Proof.
  unfold accepted_records. induction raws as [|r raws IH]; [done|].
  cbn [omap list_omap length].
  destruct r as [f|]; [|lia]. destruct (Raw.url f) as [u|]; [|lia].
  destruct (accept u); cbn [length]; lia.
Qed.

Lemma visit_with_brings_nothing accept mk raws r :
  let st := for_of (visit_with accept mk) raws in
  (forall f u, Cand.url (mk f u) = u) ->
  brings_nothing accept raws r ->
  visit_with accept mk st r = st.
Proof.
  intros st Hmk Hr. subst st.
  destruct (loop_inv_fold accept mk Hmk raws) as [_ _ _ Hall].
  destruct (for_of (visit_with accept mk) raws) as [out seen].
  unfold brings_nothing in Hr. destruct r as [f|]; [|done]. simpl in *.
  destruct (Raw.url f) as [u|]; [|done].
  destruct (accept u) eqn:Hacc; [|done]. simpl.
  destruct (Hr eq_refl) as (f' & Hf' & Hu').
  by rewrite bool_decide_eq_true_2 by (by apply (Hall f' u)).
Qed.

Lemma fold_left_brings_nothing accept mk raws more :
  (forall f u, Cand.url (mk f u) = u) ->
  Forall (brings_nothing accept raws) more ->
  fold_left (visit_with accept mk) more (for_of (visit_with accept mk) raws)
  = for_of (visit_with accept mk) raws.
Proof.
  intros Hmk. induction 1 as [|r more Hr _ IH]; [done|]. simpl.
  by rewrite (visit_with_brings_nothing accept mk raws r Hmk Hr).
Qed.

Lemma brings_nothing_self accept raws :
  Forall (brings_nothing accept raws) raws.
Proof.
  apply Forall_forall. intros r Hr. unfold brings_nothing.
  destruct r as [f|]; [|done]. simpl.
  destruct (Raw.url f) as [u|] eqn:Hu; [|done]. intros _. by exists f.
Qed.

(** How the output grows with the input: the output for a list is the
    start of the output for any longer list and has no more entries than
    the list has records; records that bring nothing new (no url, a url
    that is not accepted, or a url an earlier record carries) leave the
    output as it is, so going through the same list twice gives the
    output of going through it once. *)
Theorem normalizer_grows_by_appending
    (v : variant) (new_URL : string -> result URL)
    (rawFormats more : list (option Raw.t)) :
  (exists added,
     normalizer v new_URL (rawFormats ++ more)
     = (normalizer v new_URL rawFormats ++ added)%list) /\
  (length (normalizer v new_URL rawFormats) <= length rawFormats)%nat /\
  (Forall (brings_nothing (accepts v new_URL) rawFormats) more ->
   normalizer v new_URL (rawFormats ++ more)
   = normalizer v new_URL rawFormats) /\
  normalizer v new_URL (rawFormats ++ rawFormats)
  = normalizer v new_URL rawFormats.
Proof.
  split; [|split; [|split]].
  - rewrite !normalizer_for_of. unfold for_of. rewrite fold_left_app.
    destruct (fold_left _ rawFormats _) as [out seen].
    rewrite visit_with_fold. eauto.
  - rewrite normalizer_first_by_url, length_map.
    pose proof (first_by_url_length
                  (accepted_records (accepts v new_URL) rawFormats)).
    pose proof (accepted_records_length (accepts v new_URL) rawFormats).
    lia.
  - intros Hmore. rewrite !normalizer_for_of. unfold for_of at 1.
    rewrite fold_left_app. fold (for_of (visit_with (accepts v new_URL)
                                           (derive v)) rawFormats).
    by rewrite fold_left_brings_nothing by (done || apply derive_url).
  - rewrite !normalizer_for_of. unfold for_of at 1.
    rewrite fold_left_app. fold (for_of (visit_with (accepts v new_URL)
                                           (derive v)) rawFormats).
    by rewrite fold_left_brings_nothing
      by (apply derive_url || apply brings_nothing_self).
Qed.

(** ** The handler, case by case *)

Lemma server_read_meta_metadata w stdout log :
  Server.read_meta w stdout log
  = (metadata server_js w stdout, log).
Proof.
  unfold Server.read_meta, metadata, bind, ret, lift, throw.
  destruct (read_stdout w stdout) as [[]|[[]|]|]; reflexivity.
Qed.

Lemma part_001_read_meta_metadata w stdout log :
  Part001.read_meta w stdout log
  = (metadata part_001 w stdout, log).
Proof.
  unfold Part001.read_meta, metadata, bind, ret, lift, throw.
  destruct (read_stdout w stdout) as [[]|[[]|]|]; reflexivity.
Qed.

(** [part_000] goes on with [None] where [metadata] says [empty_meta]:
    both mean no formats. *)
Lemma part_000_read_meta_metadata w stdout log :
  exists r,
    Part000.read_meta w stdout log = (r, log) /\
    match metadata part_000 w stdout with
    | Ok m => exists o, r = Ok o /\
                        default [] (o ≫= meta_formats)
                        = default [] (meta_formats m)
    | Throw e => r = Throw e
    end.
Proof.
  unfold Part000.read_meta, metadata, bind, ret, lift, throw.
  destruct (read_stdout w stdout) as [[]|[[]|]|]; eauto.
Qed.

Lemma server_pipeline_outcome w env u log :
  Server.pipeline w env u (cache_key u) log
  = match extraction server_js w u with
    | Throw e => (Throw e, (log ++ [extractor_call server_js u])%list)
    | Ok m =>
        let payload := payload_of server_js w m in
        let log := (log ++ [extractor_call server_js u]
                        ++ probes_of server_js w m)%list in
        if caching server_js env then
          (match redis_set w (cache_key u) payload with
           | Ok _ => Ok (Response 200 (Json payload))
           | Throw e => Throw e
           end,
           (log ++ [CacheSet (cache_key u) payload 300])%list)
        else (Ok (Response 200 (Json payload)), log)
    end.
Proof.
  unfold Server.pipeline, extraction, extractor_call.
  unfold bind at 1. unfold await at 1. cbn [yt_dlp].
  destruct (execFileAsync w "./yt-dlp" _) as [stdout|e]; [|done].
  unfold bind at 1. rewrite server_read_meta_metadata.
  destruct (metadata server_js w stdout) as [m|e]; [|done].
  unfold bind at 1.
  rewrite (for_each_run (probed_length server_js w)
             (probe_calls server_js w) (Server.probe w)
             (server_probe_run w)).
  rewrite server_caching. unfold bind, ret, await, probes_of.
  cbv zeta. destruct (caching server_js env).
  - destruct (redis_set _ _ _); cbv beta iota; f_equal;
      by rewrite <- ?app_assoc.
  - cbv beta iota. f_equal. by rewrite ?app_nil_r, <- ?app_assoc.
Qed.

Lemma part_001_pipeline_outcome w u log :
  Part001.pipeline w u (cache_key u) log
  = match extraction part_001 w u with
    | Throw e => (Throw e, (log ++ [extractor_call part_001 u])%list)
    | Ok m =>
        (Ok (Response 200 (Json (payload_of part_001 w m))),
         (log ++ [extractor_call part_001 u]
              ++ probes_of part_001 w m)%list)
    end.
Proof.
  unfold Part001.pipeline, extraction, extractor_call.
  unfold bind at 1. unfold await at 1. cbn [yt_dlp].
  destruct (execFileAsync w "yt-dlp" _) as [stdout|e]; [|done].
  unfold bind at 1. rewrite part_001_read_meta_metadata.
  destruct (metadata part_001 w stdout) as [m|e]; [|done].
  unfold bind at 1.
  rewrite (for_each_run (probed_length part_001 w)
             (probe_calls part_001 w) (Part001.probe w)
             (part_001_probe_run w)).
  unfold Part001.ENABLE_CACHING, bind, ret, probes_of.
  cbv beta iota. f_equal. by rewrite ?app_nil_r, <- ?app_assoc.
Qed.

Lemma part_000_pipeline_outcome w env u log :
  Part000.pipeline w env u (cache_key u) log
  = match extraction part_000 w u with
    | Throw e => (Throw e, (log ++ [extractor_call part_000 u])%list)
    | Ok m =>
        let payload := payload_of part_000 w m in
        let log := (log ++ [extractor_call part_000 u]
                        ++ probes_of part_000 w m)%list in
        (Ok (Response 200 (Json payload)),
         if caching part_000 env
         then (log ++ [CacheSet (cache_key u) payload 300])%list
         else log)
    end.
Proof.
  unfold Part000.pipeline, extraction, extractor_call.
  unfold bind at 1. unfold await at 1. cbn [yt_dlp].
  destruct (execFileAsync w "yt-dlp" _) as [stdout|e]; [|done].
  unfold bind at 1.
  destruct (part_000_read_meta_metadata w stdout
              (log ++ [ExecFile "yt-dlp" ["-j"; "--no-warnings"; u]])%list)
    as (r & -> & Hr).
  destruct (metadata part_000 w stdout) as [m|e]; [|by subst r].
  destruct Hr as (o & -> & Ho).
  unfold bind at 1.
  rewrite part_000_probe_slices_run
    by (unfold Part000.concurrency; lia).
  rewrite drop_0, part_000_caching.
  unfold payload_of, resolved, probes_of, probed, candidates, normalizer.
  rewrite Ho. unfold bind, ret, try_catch, await. cbv zeta.
  destruct (caching part_000 env).
  - destruct (redis_set _ _ _); cbv beta iota; f_equal;
      by rewrite <- ?app_assoc.
  - cbv beta iota. f_equal. by rewrite ?app_nil_r, <- ?app_assoc.
Qed.

Lemma server_serve_outcome w env req :
  serve (Server.extract w env req) = outcome server_js w env req.
Proof.
  unfold serve, Server.extract, outcome.
  destruct (query_url req) as [u|]; [|done]. cbn [truthy_ostr].
  destruct (truthy_str u); [|done]. cbn [negb from_option id]. unfold id.
  destruct (new_URL w u); [|done]. fold (cache_key u).
  unfold after_checks, cache_lookup_of, after_lookup, bind at 1.
  unfold Server.cache_lookup. rewrite server_caching.
  destruct (caching server_js env) eqn:Hc.
  - unfold bind at 1. unfold await at 1. cbn [app].
    destruct (redis_get w (cache_key u)) as [cached|e]; [|done].
    destruct (truthy_ostr cached).
    + unfold bind, lift, ret.
      by destruct (JSON_parse w (default "" cached)).
    + unfold ret at 1. unfold try_catch.
      rewrite server_pipeline_outcome, Hc.
      destruct (extraction server_js w u) as [m|e]; [|done]. cbv zeta.
      by destruct (redis_set _ _ _).
  - unfold ret at 1. unfold try_catch.
    rewrite server_pipeline_outcome, Hc.
    by destruct (extraction server_js w u) as [m|e].
Qed.

Lemma part_001_serve_outcome w env req :
  serve (Part001.extract w req) = outcome part_001 w env req.
Proof.
  unfold serve, Part001.extract, outcome.
  destruct (query_url req) as [u|]; [|done]. cbn [truthy_ostr].
  destruct (truthy_str u); [|done]. cbn [negb from_option id]. unfold id.
  destruct (new_URL w u); [|done]. fold (cache_key u).
  unfold after_checks, cache_lookup_of, after_lookup, bind at 1.
  unfold Part001.cache_lookup, Part001.ENABLE_CACHING. cbn [caching].
  unfold ret at 1. unfold try_catch.
  rewrite part_001_pipeline_outcome.
  by destruct (extraction part_001 w u) as [m|e].
Qed.

Lemma part_000_serve_outcome w env req :
  serve (Part000.extract w env req) = outcome part_000 w env req.
Proof.
  unfold serve, Part000.extract, outcome.
  destruct (query_url req) as [u|]; [|done]. cbn [truthy_ostr].
  destruct (truthy_str u); [|done]. cbn [negb from_option id]. unfold id.
  destruct (Part000.key_rejected env req); [done|].
  destruct (new_URL w u); [|done]. fold (cache_key u).
  unfold after_checks, cache_lookup_of, after_lookup, bind at 1.
  unfold Part000.cache_lookup. rewrite part_000_caching.
  destruct (caching part_000 env) eqn:Hc.
  - unfold try_catch at 1. unfold bind at 1. unfold await at 1. cbn [app].
    destruct (redis_get w (cache_key u)) as [cached|e].
    + destruct (truthy_ostr cached).
      * unfold bind, lift, ret.
        destruct (JSON_parse w (default "" cached)); [done|].
        unfold try_catch. rewrite part_000_pipeline_outcome, Hc.
        destruct (extraction part_000 w u) as [m|e']; [|done]. cbv zeta.
        by destruct (redis_set _ _ _).
      * unfold ret at 1. unfold try_catch.
        rewrite part_000_pipeline_outcome, Hc.
        destruct (extraction part_000 w u) as [m|e']; [|done]. cbv zeta.
        by destruct (redis_set _ _ _).
    + unfold ret at 1. unfold try_catch.
      rewrite part_000_pipeline_outcome, Hc.
      destruct (extraction part_000 w u) as [m|e']; [|done]. cbv zeta.
      by destruct (redis_set _ _ _).
  - unfold ret at 1. unfold try_catch.
    rewrite part_000_pipeline_outcome, Hc.
    by destruct (extraction part_000 w u) as [m|e'].
Qed.

(** Every request, in every world: the handler answers and calls as
    [outcome] says. *)
Lemma serve_outcome v w env req :
  serve (handler v w env req) = outcome v w env req.
Proof.
  destruct v.
  - apply server_serve_outcome.
  - apply part_000_serve_outcome.
  - apply part_001_serve_outcome.
Qed.

Lemma after_lookup_status v w env u got :
  exists b, (after_lookup v w env u got).1 = Response 200 b \/
            (after_lookup v w env u got).1 = Response 500 b.
Proof.
  unfold after_lookup. destruct (extraction v w u) as [m|e]; [|eauto].
  cbv zeta. destruct (caching v env); [|eauto].
  destruct (redis_set _ _ _), v; eauto.
Qed.

Lemma after_checks_status v w env u :
  (exists b, (after_checks v w env u).1 = Response 200 b \/
             (after_checks v w env u).1 = Response 500 b) \/
  exists e, (after_checks v w env u).1 = Unhandled e.
Proof.
  unfold after_checks.
  destruct (cache_lookup_of v w env u), v; eauto using after_lookup_status.
Qed.

Lemma passes_checks_outcome v w env req u :
  passes_checks v w env req u ->
  outcome v w env req = after_checks v w env u.
Proof.
  intros (Hq & Hu & Hkey & p & Hp). unfold outcome.
  rewrite Hq, (truthy_str_true u Hu), Hp.
  destruct v; try done. simpl in Hkey. by rewrite Hkey.
Qed.

(** A request answered with a 4xx status has made no call: not to the
    cache, not to the extractor, not to any url.  The status is 400 for a
    missing or an invalid url and, in [part_000] only, 401 for a key
    that is not accepted. *)
Theorem client_errors_make_no_call
    (v : variant) (w : World) (env : Env) (req : Request)
    (status : Z) (b : body) (log : list call) :
  serve (handler v w env req) = (Response status b, log) ->
  400 <= status < 500 ->
  log = [] /\
  (status = 400 /\ (b = Error "Missing url parameter" \/
                    b = Error "Invalid url") \/
   status = 401 /\ v = part_000 /\ b = Error "Missing or invalid API key" /\
     Part000.key_rejected env req = true).
Proof.
  rewrite serve_outcome. unfold outcome. intros Hserve Hstatus.
  destruct (query_url req) as [u|];
    [|injection Hserve as <- <- <-; split; [done|]; left; eauto].
  destruct (truthy_str u);
    [|injection Hserve as <- <- <-; split; [done|]; left; eauto].
  destruct (match v with part_000 => _ | _ => _ end) eqn:Hrej.
  { injection Hserve as <- <- <-. split; [done|]. right.
    destruct v; try done. }
  destruct (new_URL w u);
    [|injection Hserve as <- <- <-; split; [done|]; left; eauto].
  destruct (after_checks_status v w env u) as [[b' [H|H]]|[e H]];
    rewrite Hserve in H; simpl in H;
    first [discriminate | injection H as -> _; lia].
Qed.

Lemma client_errors_make_no_call_witness :
  [] = ([] : list call) /\
  (401 = 400 /\ (Error "Missing or invalid API key"
                 = Error "Missing url parameter" \/
                 Error "Missing or invalid API key" = Error "Invalid url") \/
   401 = 401 /\ part_000 = part_000 /\
     Error "Missing or invalid API key"
     = Error "Missing or invalid API key" /\
     Part000.key_rejected locked_env request_wrong_key = true).
Proof.
  apply (client_errors_make_no_call part_000 offline_world locked_env
           request_wrong_key 401 (Error "Missing or invalid API key") []).
  - reflexivity.
  - lia.
Defined.

Lemma cache_lookup_of_failed v w env u e :
  (cache_lookup_of v w env u = CacheReadFailed e \/
   cache_lookup_of v w env u = CacheCorrupt e) <->
  caching v env = true /\
  (redis_get w (cache_key u) = Throw e \/
   exists c, redis_get w (cache_key u) = Ok (Some c) /\ c <> "" /\
             JSON_parse w c = Throw e).
Proof.
  unfold cache_lookup_of. destruct (caching v env).
  2:{ split; [intros [?|?]; done|intros [? _]; done]. }
  destruct (redis_get w (cache_key u)) as [[c|]|e'].
  - cbn [truthy_ostr from_option id]. unfold id.
    destruct (truthy_str c) eqn:Hc.
    + apply truthy_str_nonempty in Hc.
      destruct (JSON_parse w c) as [p|e'] eqn:Hp.
      * split; [intros [?|?]; done|].
        intros [_ [?|(c' & [= <-] & _ & Hp')]]; [done|]. congruence.
      * split.
        -- intros [?|[= <-]]; [done|]. split; [done|]. right. eauto.
        -- intros [_ [?|(c' & [= <-] & _ & Hp')]]; [done|].
           right. congruence.
    + split; [intros [?|?]; done|].
      intros [_ [?|(c' & [= <-] & Hne & _)]]; [done|].
      by apply truthy_str_nonempty in Hne; congruence.
  - split; [intros [?|?]; done|].
    intros [_ [?|(c' & ? & _)]]; done.
  - split.
    + intros [[= <-]|?]; [|done]. split; [done|]. by left.
    + intros [_ [[= <-]|(c' & ? & _)]]; [by left|done].
Qed.

(** The statuses the handler answers with are 200, 400, 500 and, in
    [part_000] only, 401.  [part_000] and [part_001] answer every
    request.  [src/server.js] leaves a request unanswered (the handler's
    promise rejects) exactly when its url is valid, caching is on, and
    the cache read rejects or returns a text that does not parse. *)
Theorem statuses_and_unanswered_requests
    (v : variant) (w : World) (env : Env) (req : Request) :
  (forall status b,
     (serve (handler v w env req)).1 = Response status b ->
     status = 200 \/ status = 400 \/ status = 500 \/
     (status = 401 /\ v = part_000)) /\
  (forall e,
     (serve (handler v w env req)).1 = Unhandled e <->
     v = server_js /\ truthy_ostr (env_REDIS_URL env) = true /\
     exists u, query_url req = Some u /\ u <> "" /\
       (exists p, new_URL w u = Ok p) /\
       (redis_get w (cache_key u) = Throw e \/
        exists c, redis_get w (cache_key u) = Ok (Some c) /\ c <> "" /\
                  JSON_parse w c = Throw e)).
Proof.
  rewrite serve_outcome. split.
  - intros status b. unfold outcome.
    destruct (query_url req) as [u|]; [|intros [= <- _]; tauto].
    destruct (truthy_str u); [|intros [= <- _]; tauto].
    destruct (match v with part_000 => _ | _ => _ end) eqn:Hrej.
    { intros [= <- _]. do 3 right. by destruct v. }
    destruct (new_URL w u); [|intros [= <- _]; tauto].
    destruct (after_checks_status v w env u) as [[b' [H|H]]|[e H]];
      rewrite H; intros [= <- _]; tauto.
  - intros e. split.
    + unfold outcome.
      destruct (query_url req) as [u|]; [|done].
      destruct (truthy_str u) eqn:Hu; [|done].
      apply truthy_str_nonempty in Hu.
      destruct (match v with part_000 => _ | _ => _ end); [done|].
      destruct (new_URL w u) as [p|] eqn:Hp; [|done].
      unfold after_checks.
      destruct (cache_lookup_of v w env u) as [| |p'|e'|e'] eqn:Hl;
        try (intros H; exfalso;
             destruct (after_lookup_status v w env u
                         (if caching v env then [CacheGet (cache_key u)]
                          else [])) as [b [Hb|Hb]];
             destruct v; simpl in *; congruence).
      * destruct v.
        -- simpl. intros [= ->].
           assert (Hf : cache_lookup_of server_js w env u = CacheReadFailed e \/
                        cache_lookup_of server_js w env u = CacheCorrupt e)
             by (by left).
           apply cache_lookup_of_failed in Hf as [Hc Hf]. eauto 10.
        -- intros H. exfalso.
           destruct (after_lookup_status part_000 w env u
                       (if caching part_000 env
                        then [CacheGet (cache_key u)] else []))
             as [b [Hb|Hb]]; simpl in *; congruence.
        -- unfold cache_lookup_of in Hl. simpl in Hl. done.
      * destruct v.
        -- simpl. intros [= ->].
           assert (Hf : cache_lookup_of server_js w env u = CacheReadFailed e \/
                        cache_lookup_of server_js w env u = CacheCorrupt e)
             by (by right).
           apply cache_lookup_of_failed in Hf as [Hc Hf]. eauto 10.
        -- intros H. exfalso.
           destruct (after_lookup_status part_000 w env u
                       (if caching part_000 env
                        then [CacheGet (cache_key u)] else []))
             as [b [Hb|Hb]]; simpl in *; congruence.
        -- unfold cache_lookup_of in Hl. simpl in Hl. done.
    + intros (-> & Hc & u & Hq & Hu & [p Hp] & Hfail).
      unfold outcome. rewrite Hq, (truthy_str_true u Hu), Hp.
      unfold after_checks.
      assert (Hf : cache_lookup_of server_js w env u = CacheReadFailed e \/
                   cache_lookup_of server_js w env u = CacheCorrupt e)
        by (by apply cache_lookup_of_failed).
      by destruct Hf as [-> | ->].
Qed.

(** A hit in the cache short-circuits the request: in [src/server.js]
    and [part_000], with caching on, when the cache holds a text under
    the key of the url and the text parses, the answer is a 200 with the
    parsed payload, and the read of the cache is the only call made: the
    extractor is not run and nothing is probed or stored. *)
Theorem cache_hit_short_circuits
    (v : variant) (w : World) (env : Env) (req : Request)
    (u cached : string) (p : Payload) :
  passes_checks v w env req u ->
  caching v env = true ->
  redis_get w (cache_key u) = Ok (Some cached) -> cached <> "" ->
  JSON_parse w cached = Ok p ->
  serve (handler v w env req)
  = (Response 200 (Json p), [CacheGet ("extract:" +:+ u)]).
Proof.
  intros Hreq Hc Hget Hne Hparse.
  rewrite serve_outcome, (passes_checks_outcome v w env req u Hreq).
  unfold after_checks, cache_lookup_of.
  rewrite Hc, Hget. cbn [truthy_ostr from_option id]. unfold id.
  by rewrite (truthy_str_true cached Hne), Hparse.
Qed.

Lemma cache_hit_short_circuits_witness :
  serve (handler server_js cache_hit_world cached_env sample_request)
  = (Response 200 (Json cached_payload),
     [CacheGet ("extract:" +:+ "https://a/page")]).
Proof.
  apply (cache_hit_short_circuits server_js cache_hit_world cached_env
           sample_request "https://a/page" "cached text" cached_payload).
  - repeat split; try discriminate. by exists {| protocol := "https:" |}.
  - reflexivity.
  - reflexivity.
  - discriminate.
  - reflexivity.
Defined.

Lemma cache_misses_lookup v w env u :
  cache_misses v w env u ->
  cache_lookup_of v w env u = CacheOff \/
  cache_lookup_of v w env u = CacheMiss.
Proof.
  unfold cache_misses, cache_lookup_of.
  intros [->|(c & Hget & Hc)]; [by left|].
  destruct (caching v env); [|by left]. rewrite Hget, Hc. by right.
Qed.

Lemma cache_misses_after_checks v w env u :
  cache_misses v w env u ->
  after_checks v w env u
  = after_lookup v w env u
      (if caching v env then [CacheGet (cache_key u)] else []).
Proof.
  intros Hmiss. unfold after_checks.
  by destruct (cache_misses_lookup v w env u Hmiss) as [-> | ->].
Qed.

(** When the extractor cannot be run or its output cannot be read, the
    answer is a 500, nothing is probed and nothing is written to the
    cache: the run of the extractor is the last call.  [part_000]
    answers with the fixed text; [src/server.js] and [part_001] pass the
    message of the exception on, and use the fixed text when it is
    empty. *)
Theorem failed_extraction_answers_500
    (v : variant) (w : World) (env : Env) (req : Request)
    (u e : string) :
  passes_checks v w env req u ->
  cache_misses v w env u ->
  extraction v w u = Throw e ->
  serve (handler v w env req)
  = (Response 500
       (Error match v with
              | part_000 => "Failed to extract formats"
              | server_js | part_001 =>
                  if String.eqb e "" then "Failed to extract formats" else e
              end),
     ((if caching v env then [CacheGet ("extract:" +:+ u)] else []) ++
      [ExecFile (yt_dlp v) ["-j"; "--no-warnings"; u]])%list).
Proof.
  intros Hreq Hmiss Hex.
  rewrite serve_outcome, (passes_checks_outcome v w env req u Hreq).
  rewrite (cache_misses_after_checks v w env u Hmiss).
  unfold after_lookup. rewrite Hex. unfold error_text, message_or, truthy_str.
  f_equal. f_equal. f_equal. destruct v; try done; by destruct (String.eqb e "").
Qed.

Lemma failed_extraction_answers_500_witness :
  serve (handler server_js no_extractor_world plain_env sample_request)
  = (Response 500 (Error "spawn yt-dlp ENOENT"),
     ([] ++ [ExecFile "./yt-dlp" ["-j"; "--no-warnings"; "https://a/page"]])
       %list).
Proof.
  apply (failed_extraction_answers_500 server_js no_extractor_world
           plain_env sample_request "https://a/page" "spawn yt-dlp ENOENT").
  - repeat split; try discriminate. by exists {| protocol := "https:" |}.
  - left. reflexivity.
  - reflexivity.
Defined.

(** When the extractor prints a JSON value that is falsy but not [null]
    (the number 0, [false], the empty string), [part_000] answers 200
    with an empty list of formats, whereas [src/server.js] and [part_001]
    answer 500 with the text ["yt-dlp returned no valid JSON"]. *)
Theorem falsy_extractor_output
    (v : variant) (w : World) (env : Env) (req : Request)
    (u stdout : string) :
  passes_checks v w env req u ->
  cache_misses v w env u ->
  execFileAsync w (yt_dlp v) ["-j"; "--no-warnings"; u] = Ok stdout ->
  read_stdout w stdout = Whole MetaFalsy ->
  (serve (handler v w env req)).1
  = match v with
    | part_000 =>
        Response 200 (Json {| title := None; thumbnail := None;
                              formats := [] |})
    | server_js | part_001 =>
        Response 500 (Error "yt-dlp returned no valid JSON")
    end.
Proof.
  intros Hreq Hmiss Hexec Hread.
  rewrite serve_outcome, (passes_checks_outcome v w env req u Hreq).
  rewrite (cache_misses_after_checks v w env u Hmiss).
  unfold after_lookup, extraction, metadata. rewrite Hexec, Hread.
  destruct v; try done. cbv zeta.
  destruct (caching part_000 env); [|done].
  by destruct (redis_set _ _ _).
Qed.

Lemma falsy_extractor_output_witness :
  (serve (handler part_000 falsy_output_world plain_env sample_request)).1
  = Response 200 (Json {| title := None; thumbnail := None;
                          formats := [] |}).
Proof.
  apply (falsy_extractor_output part_000 falsy_output_world plain_env
           sample_request "https://a/page" "0").
  - repeat split; try discriminate. by exists {| protocol := "https:" |}.
  - left. reflexivity.
  - reflexivity.
  - reflexivity.
Defined.

(** ** The calls of a request *)

Lemma fill_calls_elem calls indices formats c :
  c ∈ fill_calls calls indices formats ->
  exists i f, i ∈ indices /\ formats !! i = Some f /\ c ∈ calls (Cand.url f).
Proof.
  unfold fill_calls. intros Hc%list_elem_of_In.
  apply in_concat in Hc as (l & Hl & Hc).
  apply in_map_iff in Hl as (i & <- & Hi).
  destruct (formats !! i) as [f|] eqn:Hf; [|done].
  exists i, f. split; [by apply list_elem_of_In|].
  split; [done|]. by apply list_elem_of_In.
Qed.

Lemma probe_calls_elem v w url c :
  c ∈ probe_calls v w url ->
  c = AxiosHead url \/
  c = AxiosGet url /\ v = part_000 /\ exists e, axios_head w url = Throw e.
Proof.
  unfold probe_calls. destruct v.
  - intros ->%list_elem_of_singleton. by left.
  - destruct (axios_head w url) as [r|e] eqn:Hh.
    + intros ->%list_elem_of_singleton. by left.
    + intros [->|[->|[]%elem_of_nil]%elem_of_cons]%elem_of_cons;
        [by left|]. right. eauto.
  - intros ->%list_elem_of_singleton. by left.
Qed.

Lemma probes_of_elem v w m c :
  c ∈ probes_of v w m ->
  exists i f, i ∈ probed v (candidates v w m) /\
              candidates v w m !! i = Some f /\
              (c = AxiosHead (Cand.url f) \/
               c = AxiosGet (Cand.url f) /\ v = part_000 /\
               exists e, axios_head w (Cand.url f) = Throw e).
Proof.
  intros (i & f & Hi & Hf & Hc)%fill_calls_elem.
  exists i, f. split; [done|]. split; [done|].
  by apply probe_calls_elem.
Qed.

Lemma probes_of_no_extractor_call v w m :
  List.filter is_extractor_call (probes_of v w m) = [].
Proof.
  unfold probes_of, fill_calls.
  induction (probed v (candidates v w m)) as [|i l IH]; [done|].
  cbn [map concat]. rewrite List.filter_app, IH, app_nil_r.
  destruct (candidates v w m !! i) as [f|]; [|done].
  unfold probe_calls. destruct v; try done.
  by destruct (axios_head w (Cand.url f)).
Qed.

(** The log of a request past its checks: the cache read when caching
    is on, then nothing more (a hit, or a read that failed in
    [src/server.js]), or the extractor run alone (it failed), or the
    run, the probes and, when caching is on, the write. *)
Lemma after_checks_log v w env u :
  let got := if caching v env then [CacheGet (cache_key u)] else [] in
  (after_checks v w env u).2 = got \/
  (after_checks v w env u).2 = (got ++ [extractor_call v u])%list \/
  exists m,
    extraction v w u = Ok m /\
    (after_checks v w env u).2
    = (got ++ [extractor_call v u] ++ probes_of v w m ++
       if caching v env
       then [CacheSet (cache_key u) (payload_of v w m) 300] else [])%list /\
    ((after_checks v w env u).1 = Response 200 (Json (payload_of v w m)) \/
     exists e, v <> part_000 /\ caching v env = true /\
               redis_set w (cache_key u) (payload_of v w m) = Throw e /\
               (after_checks v w env u).1
               = Response 500 (Error (error_text v e))).
Proof.
  intros got. subst got.
  assert (Hafter :
    let got := if caching v env then [CacheGet (cache_key u)] else [] in
    (after_lookup v w env u got).2 = (got ++ [extractor_call v u])%list \/
    exists m,
      extraction v w u = Ok m /\
      (after_lookup v w env u got).2
      = (got ++ [extractor_call v u] ++ probes_of v w m ++
         if caching v env
         then [CacheSet (cache_key u) (payload_of v w m) 300] else [])%list /\
      ((after_lookup v w env u got).1
       = Response 200 (Json (payload_of v w m)) \/
       exists e, v <> part_000 /\ caching v env = true /\
                 redis_set w (cache_key u) (payload_of v w m) = Throw e /\
                 (after_lookup v w env u got).1
                 = Response 500 (Error (error_text v e)))).
  { intros got. subst got. unfold after_lookup.
    destruct (extraction v w u) as [m|e]; [|by left]. right. exists m.
    split; [done|]. cbv zeta.
    destruct (caching v env) eqn:Hc.
    - destruct (redis_set w (cache_key u) (payload_of v w m)) as [[]|e] eqn:Hs.
      + split; [by rewrite <- !app_assoc|]. left. by destruct v.
      + destruct v; (split; [by rewrite <- !app_assoc|]);
          [right; exists e; by repeat split
          |by left
          |right; exists e; by repeat split].
    - split; [by rewrite app_nil_r|]. by left. }
  unfold after_checks.
  destruct (cache_lookup_of v w env u), v; simpl;
    try (by left); try (right; exact Hafter).
Qed.

Lemma elem_of_got v env u c :
  c ∈ (if caching v env then [CacheGet (cache_key u)] else []) ->
  c = CacheGet (cache_key u) /\ caching v env = true.
Proof.
  destruct (caching v env).
  - by intros ->%list_elem_of_singleton.
  - by intros ?%elem_of_nil.
Qed.

(** Each call of a request is the cache read, the extractor run, a
    probe of a candidate or the cache write. *)
Lemma outcome_log_elem v w env req c :
  c ∈ (outcome v w env req).2 ->
  exists u,
    query_url req = Some u /\
    (c = CacheGet (cache_key u) /\ caching v env = true \/
     c = extractor_call v u \/
     (exists m, extraction v w u = Ok m /\ c ∈ probes_of v w m /\
                forall c', c' ∈ probes_of v w m ->
                           c' ∈ (outcome v w env req).2) \/
     exists m, extraction v w u = Ok m /\ caching v env = true /\
               c = CacheSet (cache_key u) (payload_of v w m) 300 /\
               ((outcome v w env req).1
                = Response 200 (Json (payload_of v w m)) \/
                exists e, v <> part_000 /\
                  redis_set w (cache_key u) (payload_of v w m) = Throw e /\
                  (outcome v w env req).1
                  = Response 500 (Error (error_text v e)))).
Proof.
  unfold outcome.
  destruct (query_url req) as [u|]; [|by intros ?%elem_of_nil].
  destruct (truthy_str u); [|by intros ?%elem_of_nil].
  destruct (match v with part_000 => _ | _ => _ end);
    [by intros ?%elem_of_nil|].
  destruct (new_URL w u); [|by intros ?%elem_of_nil].
  intros Hc. exists u. split; [done|].
  destruct (after_checks_log v w env u)
    as [Hlog|[Hlog|(m & Hex & Hlog & Hres)]]; rewrite Hlog in *.
  - left. by apply elem_of_got.
  - apply elem_of_app in Hc as [Hc|Hc%list_elem_of_singleton].
    + left. by apply elem_of_got.
    + right. by left.
  - rewrite !elem_of_app in Hc. destruct Hc as [Hc|[Hc|[Hc|Hc]]].
    + left. by apply elem_of_got.
    + apply list_elem_of_singleton in Hc. right. by left.
    + right. right. left. exists m. split; [done|]. split; [done|].
      intros c' Hc'. rewrite !elem_of_app. tauto.
    + right. right. right. exists m. split; [done|].
      destruct (caching v env) eqn:Hcache;
        [|by apply elem_of_nil in Hc].
      apply list_elem_of_singleton in Hc. split; [done|]. split; [done|].
      destruct Hres as [Hres|(e & Hv & _ & Hset & Hres)]; [by left|].
      right. eauto.
Qed.

Lemma outcome_extractor_runs v w env req :
  (length (List.filter is_extractor_call (outcome v w env req).2) <= 1)%nat.
Proof.
  unfold outcome.
  destruct (query_url req) as [u|]; [|simpl; lia].
  destruct (truthy_str u); [|simpl; lia].
  destruct (match v with part_000 => _ | _ => _ end); [simpl; lia|].
  destruct (new_URL w u); [|simpl; lia].
  assert (Hgot : List.filter is_extractor_call
                   (if caching v env then [CacheGet (cache_key u)] else [])
                 = []) by (by destruct (caching v env)).
  destruct (after_checks_log v w env u)
    as [Hlog|[Hlog|(m & Hex & Hlog & Hres)]]; rewrite Hlog.
  - rewrite Hgot. simpl. lia.
  - rewrite List.filter_app, Hgot. simpl. lia.
  - rewrite !List.filter_app, Hgot, probes_of_no_extractor_call.
    destruct (caching v env); simpl; lia.
Qed.

(** What a request may call, in every variant and world.  The extractor
    is run at most once, as the program of the variant ([./yt-dlp] in
    [src/server.js], [yt-dlp] in the other two) with the url as an
    argument of its own.  The cache is touched only when caching is on, only under
    the key ["extract:"] followed by the url, and written only with a
    life of 300 seconds and with the payload that is answered (or, in
    [src/server.js], whose write failed and made the answer a 500).  A
    ranged GET is made only by [part_000], and only to a url whose HEAD
    request was made and threw. *)
Theorem calls_of_a_request
    (v : variant) (w : World) (env : Env) (req : Request) :
  (length (List.filter is_extractor_call (serve (handler v w env req)).2)
   <= 1)%nat /\
  (forall file args,
     ExecFile file args ∈ (serve (handler v w env req)).2 ->
     file = yt_dlp v /\
     exists u, query_url req = Some u /\ args = ["-j"; "--no-warnings"; u]) /\
  (forall key,
     CacheGet key ∈ (serve (handler v w env req)).2 ->
     caching v env = true /\
     exists u, query_url req = Some u /\ key = "extract:" +:+ u) /\
  (forall key value seconds,
     CacheSet key value seconds ∈ (serve (handler v w env req)).2 ->
     caching v env = true /\ seconds = 300 /\
     (exists u, query_url req = Some u /\ key = "extract:" +:+ u) /\
     ((serve (handler v w env req)).1 = Response 200 (Json value) \/
      exists e, v <> part_000 /\ redis_set w key value = Throw e /\
                (serve (handler v w env req)).1
                = Response 500
                    (Error (if String.eqb e ""
                            then "Failed to extract formats" else e)))) /\
  (forall url,
     AxiosGet url ∈ (serve (handler v w env req)).2 ->
     v = part_000 /\ AxiosHead url ∈ (serve (handler v w env req)).2 /\
     exists e, axios_head w url = Throw e).
Proof.
  rewrite serve_outcome.
  split; [apply outcome_extractor_runs|].
  split; [|split; [|split]].
  - intros file args (u & Hq & Hc)%outcome_log_elem.
    destruct Hc as [[[=] _]|[[= -> ->]|[(m & _ & Hc & _)|(m & _ & _ & [=] & _)]]].
    + eauto.
    + apply probes_of_elem in Hc as (i & f & _ & _ & [[=]|[[=] _]]).
  - intros key (u & Hq & Hc)%outcome_log_elem.
    destruct Hc as [[[= ->] Hc]|[[=]|[(m & _ & Hc & _)|(m & _ & _ & [=] & _)]]].
    + eauto.
    + apply probes_of_elem in Hc as (i & f & _ & _ & [[=]|[[=] _]]).
  - intros key value seconds (u & Hq & Hc)%outcome_log_elem.
    destruct Hc as [[[=] _]|[[=]|[(m & _ & Hc & _)
                                 |(m & _ & Hcache & [= -> -> ->] & Hres)]]].
    + apply probes_of_elem in Hc as (i & f & _ & _ & [[=]|[[=] _]]).
    + split; [done|]. split; [done|]. split; [eauto|].
      destruct Hres as [Hres|(e & Hv & Hset & Hres)]; [by left|].
      right. exists e. split; [done|]. split; [done|]. rewrite Hres.
      unfold error_text, message_or, truthy_str.
      destruct v; try done; by destruct (String.eqb e "").
  - intros url (u & Hq & Hc)%outcome_log_elem.
    destruct Hc as [[[=] _]|[[=]|[(m & _ & Hc & Hall)|(m & _ & _ & [=] & _)]]].
    apply probes_of_elem in Hc
      as (i & f & Hi & Hf & [[=]|([= ->] & -> & e & He)]).
    split; [done|]. split; [|eauto].
    apply Hall. by apply (probe_logged part_000 w _ _ i f).
Qed.

(** ** The response and the candidates *)

Lemma fill_map_url len indices formats :
  map Cand.url (fill len indices formats) = map Cand.url formats.
Proof.
  apply list_eq. intros i.
  change (map Cand.url) with (fmap (M := list) Cand.url).
  rewrite !list_lookup_fmap, fill_lookup.
  destruct (decide _); [|done]. destruct (formats !! i); [|done].
  simpl. by rewrite filled_url.
Qed.

Lemma payload_urls v w m :
  map Mapped.url (formats (payload_of v w m))
  ≡ₚ map Cand.url (candidates v w m).
Proof.
  rewrite (Permutation_map Mapped.url (payload_formats_perm v w m)).
  rewrite map_map, (map_ext _ _ (to_mapped_url v)).
  unfold resolved. by rewrite fill_map_url.
Qed.

Lemma filled_label len c : Cand.label (filled len c) = Cand.label c.
Proof. unfold filled. by destruct (truthy_num _). Qed.

Lemma filled_type len c : Cand.type (filled len c) = Cand.type c.
Proof. unfold filled. by destruct (truthy_num _). Qed.

Lemma candidates_nodup v w m : NoDup (map Cand.url (candidates v w m)).
Proof.
  unfold candidates. rewrite normalizer_for_of.
  by destruct (normalizer_inv v (new_URL w) (default [] (meta_formats m))).
Qed.

(** No candidate of [part_000] has an empty label. *)
Lemma part_000_candidate_label w m c :
  c ∈ candidates part_000 w m -> Cand.label c <> "".
Proof.
  unfold candidates. rewrite normalizer_for_of. intros Hc.
  destruct (normalizer_inv part_000 (new_URL w)
              (default [] (meta_formats m))) as [_ _ Hfirst _].
  destruct (Hfirst c Hc) as (_ & i & f & _ & ->).
  apply part_000_label_nonempty.
Qed.

Lemma resolved_elem v w m c' :
  c' ∈ resolved v w m ->
  exists c, c ∈ candidates v w m /\
            (c' = c \/ c' = filled (probed_length v w) c).
Proof.
  intros (i & Hi)%list_elem_of_lookup_1. rewrite resolved_lookup in Hi.
  destruct (candidates v w m !! i) as [c|] eqn:Hc;
    [|by destruct (decide _)].
  exists c. split; [by eapply list_elem_of_lookup_2|].
  destruct (decide _); simpl in Hi; injection Hi as <-; eauto.
Qed.

Lemma to_mapped_label v w m c c' :
  c ∈ candidates v w m ->
  c' = c \/ c' = filled (probed_length v w) c ->
  Mapped.label (to_mapped v c') = Cand.label c.
Proof.
  intros Hc Hc'.
  assert (Hl : Cand.label c' = Cand.label c)
    by (destruct Hc' as [->| ->]; [done|apply filled_label]).
  destruct v; simpl; try done.
  pose proof (part_000_candidate_label w m c Hc) as Hne.
  rewrite Hl. by rewrite truthy_str_true.
Qed.

Lemma payload_of_success v w env req u m :
  passes_checks v w env req u ->
  cache_misses v w env u ->
  extraction v w u = Ok m ->
  (v <> part_000 -> cache_stores v w env u) ->
  serve (handler v w env req)
  = (Response 200 (Json (payload_of v w m)),
     ((if caching v env then [CacheGet (cache_key u)] else []) ++
      [extractor_call v u] ++ probes_of v w m ++
      if caching v env
      then [CacheSet (cache_key u) (payload_of v w m) 300] else [])%list).
Proof.
  intros Hreq Hmiss Hex Hstore.
  rewrite serve_outcome, (passes_checks_outcome v w env req u Hreq).
  rewrite (cache_misses_after_checks v w env u Hmiss).
  unfold after_lookup. rewrite Hex. cbv zeta.
  destruct (caching v env) eqn:Hc; [|by rewrite app_nil_r].
  rewrite <- !app_assoc.
  destruct v; try (destruct (redis_set _ _ _); done).
  destruct (Hstore ltac:(done)) as [?|Hset]; [congruence|].
  by rewrite Hset.
Qed.

(** The response of a request that goes through lists the candidates of
    the normalizer, each once: its urls are those of the candidates (in
    the same order in [src/server.js] and [part_001], rearranged by the
    sort in [part_000]) and are pairwise distinct, and each entry has
    the label and type of its candidate.  In particular the fallback
    label of [part_000]'s mapping is never used. *)
Theorem response_lists_the_candidates
    (v : variant) (w : World) (env : Env) (req : Request)
    (u : string) (m : Meta) :
  passes_checks v w env req u ->
  cache_misses v w env u ->
  extraction v w u = Ok m ->
  (v <> part_000 -> cache_stores v w env u) ->
  exists payload,
    (serve (handler v w env req)).1 = Response 200 (Json payload) /\
    map Mapped.url (formats payload)
    ≡ₚ map Cand.url (normalizer v (new_URL w) (default [] (meta_formats m))) /\
    NoDup (map Mapped.url (formats payload)) /\
    (v <> part_000 ->
     map Mapped.url (formats payload)
     = map Cand.url (normalizer v (new_URL w)
                       (default [] (meta_formats m)))) /\
    forall entry, entry ∈ formats payload ->
      exists c, c ∈ normalizer v (new_URL w) (default [] (meta_formats m)) /\
                Mapped.url entry = Cand.url c /\
                Mapped.label entry = Cand.label c /\
                Mapped.type entry = Cand.type c.
Proof.
  intros Hreq Hmiss Hex Hstore. exists (payload_of v w m).
  rewrite (payload_of_success v w env req u m Hreq Hmiss Hex Hstore).
  fold (candidates v w m).
  assert (Hurls : map Mapped.url (map (to_mapped v) (resolved v w m))
                  = map Cand.url (candidates v w m)).
  { rewrite map_map. unfold resolved.
    rewrite <- (fill_map_url (probed_length v w)
                  (probed v (candidates v w m)) (candidates v w m)).
    apply map_ext. intros c. apply to_mapped_url. }
  assert (Hperm : map Mapped.url (formats (payload_of v w m))
                  ≡ₚ map Cand.url (candidates v w m)).
  { rewrite <- Hurls. apply Permutation_map, payload_formats_perm. }
  split; [done|]. split; [done|].
  split; [rewrite Hperm; apply candidates_nodup|].
  split.
  - intros Hv. rewrite <- Hurls. by destruct v.
  - intros entry Hentry. rewrite payload_formats_perm in Hentry.
    apply list_elem_of_fmap in Hentry as (c' & -> & Hc').
    destruct (resolved_elem v w m c' Hc') as (c & Hc & Hcc').
    exists c. split; [done|].
    rewrite to_mapped_url, (to_mapped_label v w m c c' Hc Hcc').
    split; [|split; [done|]].
    + destruct Hcc' as [->| ->]; [done|apply filled_url].
    + destruct Hcc' as [->| ->]; destruct v; try done; apply filled_type.
Qed.

Lemma response_lists_the_candidates_witness :
  exists payload,
    (serve (handler part_000 two_videos_world plain_env sample_request)).1
    = Response 200 (Json payload) /\
    map Mapped.url (formats payload)
    ≡ₚ map Cand.url (normalizer part_000 (new_URL two_videos_world)
                       (default [] (meta_formats two_videos))) /\
    NoDup (map Mapped.url (formats payload)) /\
    (part_000 <> part_000 ->
     map Mapped.url (formats payload)
     = map Cand.url (normalizer part_000 (new_URL two_videos_world)
                       (default [] (meta_formats two_videos)))) /\
    forall entry, entry ∈ formats payload ->
      exists c, c ∈ normalizer part_000 (new_URL two_videos_world)
                     (default [] (meta_formats two_videos)) /\
                Mapped.url entry = Cand.url c /\
                Mapped.label entry = Cand.label c /\
                Mapped.type entry = Cand.type c.
Proof.
  apply (response_lists_the_candidates part_000 two_videos_world plain_env
           sample_request "https://a/page" two_videos).
  - repeat split; try discriminate. by exists {| protocol := "https:" |}.
  - left. reflexivity.
  - reflexivity.
  - intros H. by destruct H.
Defined.

(** ** The probes of a request *)

Lemma without_size_objects formats :
  map (fun i => formats !! i) (without_size formats)
  = map Some (unsized formats).
Proof.
  unfold without_size, unsized.
  induction formats as [|x l IH] using rev_ind; [done|].
  rewrite length_app, seq_app, !List.filter_app, !map_app.
  cbn [length seq Nat.add List.filter].
  assert (Hlast : ((l ++ [x])%list) !! length l = Some x)
    by (by rewrite lookup_app_r, Nat.sub_diag by lia).
  rewrite Hlast.
  assert (Hpre : forall P : option Cand.t -> bool,
            List.filter (fun i => P (((l ++ [x])%list) !! i)) (seq 0 (length l))
            = List.filter (fun i => P (l !! i)) (seq 0 (length l))).
  { intros P. apply filter_ext_in. intros i Hi.
    apply list_elem_of_In, in_seq in Hi. by rewrite lookup_app_l by lia. }
  rewrite (Hpre (fun o => match o with
                          | Some f => negb (truthy_num (Cand.filesize f))
                          | None => false
                          end)).
  f_equal.
  - rewrite <- IH. apply map_ext_in. intros i Hi.
    apply filter_In in Hi as [Hi _]. apply in_seq in Hi.
    by rewrite lookup_app_l by lia.
  - destruct (negb _); [|done]. cbn [map]. by rewrite Hlast.
Qed.

Lemma probed_objects v formats :
  map (fun i => formats !! i) (probed v formats)
  = map Some (capped v (unsized formats)).
Proof.
  pose proof (without_size_objects formats) as H.
  destruct v; cbn [probed capped]; try done;
    change (@map) with (@fmap list _) in *;
    by rewrite !fmap_take, H.
Qed.

Lemma fill_calls_objects calls indices formats :
  fill_calls calls indices formats
  = concat (map (fun o : option Cand.t =>
                   match o with
                   | Some f => calls (Cand.url f)
                   | None => []
                   end)
              (map (fun i => formats !! i) indices)).
Proof. unfold fill_calls. by rewrite map_map. Qed.

(** The probe calls are those of the candidates without a size, in
    their order, six at most where the variant has the cap. *)
Lemma probes_of_objects v w m :
  probes_of v w m
  = concat (map (fun f => probe_calls v w (Cand.url f))
              (capped v (unsized (candidates v w m)))).
Proof.
  unfold probes_of.
  by rewrite fill_calls_objects, probed_objects, map_map.
Qed.

Lemma filter_concat {A} (P : A -> bool) (ls : list (list A)) :
  List.filter P (concat ls) = concat (map (List.filter P) ls).
Proof.
  induction ls as [|l ls IH]; [done|].
  cbn [concat map]. by rewrite List.filter_app, IH.
Qed.

Lemma heads_of_probes v w (l : list Cand.t) :
  List.filter is_head
    (concat (map (fun f => probe_calls v w (Cand.url f)) l))
  = map (fun f => AxiosHead (Cand.url f)) l.
Proof.
  induction l as [|f l IH]; [done|].
  cbn [map concat]. rewrite List.filter_app, IH. f_equal.
  destruct v; cbn [probe_calls]; try done.
  by destruct (axios_head w (Cand.url f)).
Qed.

Lemma passed_log v w env req u m :
  passes_checks v w env req u ->
  cache_misses v w env u ->
  extraction v w u = Ok m ->
  (serve (handler v w env req)).2
  = ((if caching v env then [CacheGet (cache_key u)] else []) ++
     [extractor_call v u] ++ probes_of v w m ++
     if caching v env
     then [CacheSet (cache_key u) (payload_of v w m) 300] else [])%list.
Proof.
  intros Hreq Hmiss Hex.
  rewrite serve_outcome, (passes_checks_outcome v w env req u Hreq).
  rewrite (cache_misses_after_checks v w env u Hmiss).
  unfold after_lookup. rewrite Hex. cbv zeta.
  destruct (caching v env) eqn:Hc; [|by rewrite app_nil_r].
  rewrite <- !app_assoc.
  by destruct (redis_set _ _ _), v.
Qed.

Lemma sublist_unsized formats : unsized formats `sublist_of` formats.
Proof.
  unfold unsized. induction formats as [|f l IH]; [constructor|].
  cbn [List.filter]. destruct (negb _); by constructor.
Qed.

Lemma sublist_capped v l : capped v l `sublist_of` l.
Proof. destruct v; cbn [capped]; try done; apply sublist_take. Qed.

Lemma sublist_map {A B} (f : A -> B) l1 l2 :
  l1 `sublist_of` l2 -> map f l1 `sublist_of` map f l2.
Proof. induction 1; cbn [map]; by constructor. Qed.

Lemma elem_of_unsized formats c :
  c ∈ unsized formats
  <-> c ∈ formats /\ truthy_num (Cand.filesize c) = false.
Proof.
  unfold unsized. rewrite !list_elem_of_In, filter_In.
  by rewrite negb_true_iff.
Qed.

Lemma nodup_map_inj {A B} (f : A -> B) l x y :
  NoDup (map f l) -> x ∈ l -> y ∈ l -> f x = f y -> x = y.
Proof.
  intros Hnd (i & Hi)%list_elem_of_lookup_1 (j & Hj)%list_elem_of_lookup_1
    Hxy.
  change (map f l) with (f <$> l) in Hnd.
  assert (i = j) as ->.
  { apply (NoDup_lookup (f <$> l) i j (f x) Hnd).
    - by rewrite list_lookup_fmap, Hi.
    - by rewrite list_lookup_fmap, Hj, Hxy. }
  congruence.
Qed.

(** The HEAD requests of a request that reaches the extractor and gets
    metadata from it: one for each candidate without a declared size,
    in the order of the candidates, and no more than six in
    [src/server.js] and [part_001]; no url is asked twice, no candidate
    with a declared size is asked about, and [part_000] asks about every
    candidate without one. *)
Theorem head_requests_of_a_request
    (v : variant) (w : World) (env : Env) (req : Request)
    (u : string) (m : Meta) :
  passes_checks v w env req u ->
  cache_misses v w env u ->
  extraction v w u = Ok m ->
  let cands := normalizer v (new_URL w) (default [] (meta_formats m)) in
  let heads := List.filter is_head (serve (handler v w env req)).2 in
  heads = map (fun c => AxiosHead (Cand.url c)) (capped v (unsized cands)) /\
  NoDup heads /\
  (v <> part_000 -> (length heads <= 6)%nat) /\
  (forall c, c ∈ cands -> truthy_num (Cand.filesize c) = true ->
             AxiosHead (Cand.url c) ∉ heads) /\
  (v = part_000 ->
   forall c, c ∈ cands -> truthy_num (Cand.filesize c) = false ->
             AxiosHead (Cand.url c) ∈ heads).
Proof.
  intros Hreq Hmiss Hex cands heads.
  fold (candidates v w m) in cands.
  assert (Hheads : heads = map (fun c => AxiosHead (Cand.url c))
                             (capped v (unsized cands))).
  { subst heads. rewrite (passed_log v w env req u m Hreq Hmiss Hex).
    rewrite !List.filter_app, probes_of_objects, heads_of_probes.
    cbn [extractor_call List.filter is_extractor_call is_head].
    destruct (caching v env); cbn [List.filter is_head app];
      by rewrite ?app_nil_r. }
  assert (Hsub : capped v (unsized cands) `sublist_of` cands)
    by (etrans; [apply sublist_capped|apply sublist_unsized]).
  pose proof (candidates_nodup v w m) as Hnd. fold cands in Hnd.
  split; [done|]. rewrite Hheads. repeat split.
  - rewrite <- (map_map Cand.url AxiosHead).
    assert (Hinj : Inj (=) (=) AxiosHead) by (intros a b; congruence).
    apply (NoDup_fmap_2 AxiosHead).
    eapply sublist_NoDup; [exact Hnd|]. by apply sublist_map.
  - intros Hv. rewrite length_map.
    destruct v; try done; cbn [capped]; rewrite length_take; lia.
  - intros c Hc Hsize (c' & [= Hurl] & Hc')%list_elem_of_fmap.
    assert (Hc'' : c' ∈ unsized cands).
    { eapply elem_of_sublist; [exact Hc'|]. apply sublist_capped. }
    apply elem_of_unsized in Hc'' as [Hin Hfalse].
    assert (c = c') as -> by (by apply (nodup_map_inj Cand.url cands)).
    congruence.
  - intros -> c Hc Hsize. cbn [capped].
    apply list_elem_of_fmap. exists c. split; [done|].
    by apply elem_of_unsized.
Qed.

Lemma head_requests_of_a_request_witness :
  let cands := normalizer server_js (new_URL online_world)
                 (default [] (meta_formats seven_zero)) in
  let heads := List.filter is_head
                 (serve (handler server_js online_world plain_env
                           sample_request)).2 in
  heads = map (fun c => AxiosHead (Cand.url c))
            (capped server_js (unsized cands)) /\
  NoDup heads /\
  (server_js <> part_000 -> (length heads <= 6)%nat) /\
  (forall c, c ∈ cands -> truthy_num (Cand.filesize c) = true ->
             AxiosHead (Cand.url c) ∉ heads) /\
  (server_js = part_000 ->
   forall c, c ∈ cands -> truthy_num (Cand.filesize c) = false ->
             AxiosHead (Cand.url c) ∈ heads).
Proof.
  apply (head_requests_of_a_request server_js online_world plain_env
           sample_request "https://a/page" seven_zero).
  - repeat split; try discriminate. by exists {| protocol := "https:" |}.
  - left. reflexivity.
  - reflexivity.
Defined.

(** ** The sizes of the response *)

Lemma humanFileSize_falsy x :
  truthy_num x = false -> humanFileSize x = "Unknown".
Proof. unfold humanFileSize. by intros ->. Qed.

Lemma probed_iff v formats i c :
  NoDup (map Cand.url formats) ->
  formats !! i = Some c ->
  i ∈ probed v formats <-> c ∈ capped v (unsized formats).
Proof.
  intros Hnd Hi.
  pose proof (probed_objects v formats) as Hobj.
  change (@map) with (@fmap list _) in Hobj.
  split.
  - intros Hin.
    assert (Hsome : Some c ∈ Some <$> capped v (unsized formats)).
    { rewrite <- Hobj. apply list_elem_of_fmap. exists i. by rewrite Hi. }
    apply list_elem_of_fmap in Hsome as (c' & [= ->] & Hc'). done.
  - intros Hin.
    assert (Hsome : Some c ∈ (fun j => formats !! j) <$> probed v formats).
    { rewrite Hobj. apply list_elem_of_fmap. by exists c. }
    apply list_elem_of_fmap in Hsome as (j & Hj & Hjin).
    assert (i = j) as ->; [|done].
    change (map Cand.url formats) with (Cand.url <$> formats) in Hnd.
    apply (NoDup_lookup (Cand.url <$> formats) i j (Cand.url c) Hnd).
    + by rewrite list_lookup_fmap, Hi.
    + by rewrite list_lookup_fmap, <- Hj.
Qed.

(** The size shown for each entry of the response of a request that goes
    through.  The entry of a candidate with a declared size shows that
    size, whatever a probe would say; the entry of a candidate without
    one shows what its probe found when it is among those probed (the
    first six without a size in [src/server.js] and [part_001], all of
    them in [part_000]), and ["Unknown"] when it is not. *)
Theorem sizes_of_the_response
    (v : variant) (w : World) (env : Env) (req : Request)
    (u : string) (m : Meta) :
  passes_checks v w env req u ->
  cache_misses v w env u ->
  extraction v w u = Ok m ->
  (v <> part_000 -> cache_stores v w env u) ->
  let cands := normalizer v (new_URL w) (default [] (meta_formats m)) in
  exists payload,
    (serve (handler v w env req)).1 = Response 200 (Json payload) /\
    forall entry, entry ∈ formats payload ->
      exists c, c ∈ cands /\ Mapped.url entry = Cand.url c /\
        (truthy_num (Cand.filesize c) = true ->
         Mapped.size entry = humanFileSize (Cand.filesize c)) /\
        (truthy_num (Cand.filesize c) = false ->
         c ∈ capped v (unsized cands) ->
         Mapped.size entry
         = humanFileSize (probed_length v w (Cand.url c))) /\
        (truthy_num (Cand.filesize c) = false ->
         c ∉ capped v (unsized cands) ->
         Mapped.size entry = "Unknown").
Proof.
  intros Hreq Hmiss Hex Hstore cands. exists (payload_of v w m).
  rewrite (payload_of_success v w env req u m Hreq Hmiss Hex Hstore).
  split; [done|]. fold (candidates v w m) in cands.
  intros entry Hentry. rewrite payload_formats_perm in Hentry.
  apply list_elem_of_fmap in Hentry as (c' & -> & Hc').
  apply list_elem_of_lookup_1 in Hc' as (i & Hi).
  rewrite resolved_lookup in Hi.
  destruct (candidates v w m !! i) as [c|] eqn:Hc;
    [|by destruct (decide _)].
  pose proof (probed_iff v (candidates v w m) i c
                (candidates_nodup v w m) Hc) as Hiff.
  pose proof (sublist_unsized (candidates v w m)) as Hsub1.
  exists c. split; [by eapply list_elem_of_lookup_2|].
  rewrite to_mapped_url, to_mapped_size.
  destruct (decide _) as [Hin|Hnotin]; simpl in Hi; injection Hi as <-.
  - apply Hiff in Hin.
    assert (Hfalse : truthy_num (Cand.filesize c) = false).
    { eapply elem_of_sublist in Hin; [|apply sublist_capped].
      by apply elem_of_unsized in Hin as [_ ?]. }
    rewrite filled_url. split; [done|].
    split; [congruence|]. split; [|done]. intros _ _.
    unfold filled.
    destruct (truthy_num (probed_length v w (Cand.url c))) eqn:Hlen;
      [done|].
    by rewrite !humanFileSize_falsy.
  - split; [done|]. split; [done|]. split.
    + intros _ Hin. by apply Hiff in Hin.
    + intros Hfalse _. by apply humanFileSize_falsy.
Qed.

Lemma sizes_of_the_response_witness :
  let cands := normalizer server_js (new_URL online_world)
                 (default [] (meta_formats seven_zero)) in
  exists payload,
    (serve (handler server_js online_world plain_env sample_request)).1
    = Response 200 (Json payload) /\
    forall entry, entry ∈ formats payload ->
      exists c, c ∈ cands /\ Mapped.url entry = Cand.url c /\
        (truthy_num (Cand.filesize c) = true ->
         Mapped.size entry = humanFileSize (Cand.filesize c)) /\
        (truthy_num (Cand.filesize c) = false ->
         c ∈ capped server_js (unsized cands) ->
         Mapped.size entry
         = humanFileSize (probed_length server_js online_world
                            (Cand.url c))) /\
        (truthy_num (Cand.filesize c) = false ->
         c ∉ capped server_js (unsized cands) ->
         Mapped.size entry = "Unknown").
Proof.
  apply (sizes_of_the_response server_js online_world plain_env
           sample_request "https://a/page" seven_zero).
  - repeat split; try discriminate. by exists {| protocol := "https:" |}.
  - left. reflexivity.
  - reflexivity.
  - intros _. left. reflexivity.
Defined.

(** ** Decimal texts *)

Lemma read_digits_stop s acc n :
  stops_digits s = true -> read_digits s acc n = (acc, n, s).
Proof.
  destruct s as [|c r]; [done|]. cbn [stops_digits read_digits].
  by intros ->%negb_true_iff.
Qed.

Lemma read_digits_uint_acc d rest acc n :
  stops_digits rest = true ->
  read_digits (NilEmpty.string_of_uint d +:+ rest) (Z.pos acc) n
  = (Z.pos (Pos.of_uint_acc d acc), (n + Decimal.nb_digits d)%nat, rest).
Proof.
  intros Hrest. revert acc n.
  induction d as [|d IH|d IH|d IH|d IH|d IH|d IH|d IH|d IH|d IH|d IH];
    intros acc n;
    cbn [NilEmpty.string_of_uint Pos.of_uint_acc Decimal.nb_digits];
    [by rewrite read_digits_stop, Nat.add_0_r|..];
    change (String ?c ?s +:+ rest) with (String c (s +:+ rest));
    cbn [read_digits];
    match goal with
    | |- context [is_digit ?c] => change (is_digit c) with true
    end; cbv iota;
    match goal with
    | |- context [digit_val ?c] =>
        let k := eval vm_compute in (digit_val c) in
        change (digit_val c) with k
    end;
    rewrite <- Nat.add_succ_comm; rewrite <- IH; f_equal; lia.
Qed.

Lemma read_digits_uint d rest n :
  stops_digits rest = true ->
  read_digits (NilEmpty.string_of_uint d +:+ rest) 0 n
  = (Z.of_N (Pos.of_uint d), (n + Decimal.nb_digits d)%nat, rest).
Proof.
  intros Hrest. revert n.
  induction d as [|d IH|d IH|d IH|d IH|d IH|d IH|d IH|d IH|d IH|d IH];
    intros n;
    cbn [NilEmpty.string_of_uint Pos.of_uint Decimal.nb_digits];
    [by rewrite read_digits_stop, Nat.add_0_r|..];
    change (String ?c ?s +:+ rest) with (String c (s +:+ rest));
    cbn [read_digits];
    match goal with
    | |- context [is_digit ?c] => change (is_digit c) with true
    end; cbv iota;
    match goal with
    | |- context [digit_val ?c] =>
        let k := eval vm_compute in (digit_val c) in
        change (digit_val c) with k
    end;
    rewrite <- Nat.add_succ_comm;
    [by rewrite <- IH|..];
    match goal with
    | |- context [10 * 0 + ?k] =>
        let r := eval vm_compute in (10 * 0 + k) in
        change (10 * 0 + k) with r
    end;
    cbn [Z.of_N]; by rewrite read_digits_uint_acc.
Qed.

Lemma string_of_uint_digit d :
  d <> Decimal.Nil ->
  exists c r, NilEmpty.string_of_uint d = String c r /\ is_digit c = true.
Proof. destruct d; [done|..]; intros _; by eexists _, _. Qed.

Lemma string_of_Z_nonneg z :
  0 <= z ->
  exists d, d <> Decimal.Nil /\
            string_of_Z z = NilEmpty.string_of_uint d /\
            Z.of_N (Pos.of_uint d) = z.
Proof.
  intros Hz. unfold string_of_Z. destruct z as [|p|p]; [| |lia].
  - by exists (Decimal.D0 Decimal.Nil).
  - exists (Pos.to_uint p). pose proof (DecimalPos.Unsigned.to_uint_nonnil p) as Hn.
    split; [done|]. split.
    + cbn [Z.to_int NilZero.string_of_int NilZero.string_of_uint].
      by destruct (Pos.to_uint p).
    + by rewrite DecimalPos.Unsigned.of_to.
Qed.

Lemma string_of_Z_neg z :
  z < 0 -> string_of_Z z = String "-" (string_of_Z (- z)).
Proof.
  intros Hz. destruct z as [|p|p]; try lia. done.
Qed.

Lemma read_digits_string_of_Z z rest n :
  0 <= z -> stops_digits rest = true ->
  exists k, read_digits (string_of_Z z +:+ rest) 0 n = (z, S (n + k), rest).
Proof.
  intros Hz Hrest.
  destruct (string_of_Z_nonneg z Hz) as (d & Hd & -> & Hval).
  rewrite read_digits_uint, Hval by done.
  destruct d; [done|..]; cbn [Decimal.nb_digits];
    eexists; by rewrite Nat.add_succ_r.
Qed.

Lemma unsigned_head d rest :
  d <> Decimal.Nil ->
  trimStart (NilEmpty.string_of_uint d +:+ rest)
  = NilEmpty.string_of_uint d +:+ rest /\
  read_sign (NilEmpty.string_of_uint d +:+ rest)
  = (1, NilEmpty.string_of_uint d +:+ rest).
Proof. destruct d; [done|..]; intros _; by split. Qed.

Lemma parseInt_string_of_Z z rest :
  stops_digits rest = true -> parseInt (string_of_Z z +:+ rest) = Num z.
Proof.
  intros Hrest. unfold parseInt.
  destruct (Z.le_gt_cases 0 z) as [Hz|Hz].
  - destruct (read_digits_string_of_Z z rest 0 Hz Hrest) as (k & Hk).
    destruct (string_of_Z_nonneg z Hz) as (d & Hd & Hs & _).
    rewrite Hs in *.
    destruct (unsigned_head d rest Hd) as [-> ->].
    rewrite Hk. f_equal. lia.
  - rewrite (string_of_Z_neg z Hz).
    destruct (read_digits_string_of_Z (- z) rest 0 ltac:(lia) Hrest)
      as (k & Hk).
    change (trimStart (String "-" (string_of_Z (- z)) +:+ rest))
      with (String "-" (string_of_Z (- z) +:+ rest)).
    cbn [read_sign]. rewrite Hk. f_equal. lia.
Qed.

Lemma all_digits_slash p d :
  Part000.all_digits (p +:+ String "/" d) = false.
Proof.
  unfold Part000.all_digits.
  induction p as [|c p IH]; [done|].
  change (String c p +:+ String "/" d) with (String c (p +:+ String "/" d)).
  cbn [list_ascii_of_string forallb]. rewrite IH.
  apply andb_false_r.
Qed.

Lemma match_total_last p d :
  d <> "" -> Part000.all_digits d = true ->
  Part000.match_total (p +:+ String "/" d) = Some d.
Proof.
  intros Hd Hall. induction p as [|c p IH].
  - change ("" +:+ String "/" d) with (String "/" d).
    cbn [Part000.match_total].
    rewrite truthy_str_true, Hall by done. done.
  - change (String c p +:+ String "/" d) with (String c (p +:+ String "/" d)).
    cbn [Part000.match_total].
    by rewrite all_digits_slash, andb_false_r.
Qed.

Lemma all_digits_uint d : Part000.all_digits (NilEmpty.string_of_uint d) = true.
Proof. unfold Part000.all_digits. induction d; try done. Qed.

Lemma string_of_Z_digits z :
  0 <= z -> string_of_Z z <> "" /\ Part000.all_digits (string_of_Z z) = true.
Proof.
  intros Hz. destruct (string_of_Z_nonneg z Hz) as (d & Hd & -> & _).
  split; [by destruct d|apply all_digits_uint].
Qed.

Lemma nonneg_head z rest :
  0 <= z ->
  trimStart (string_of_Z z +:+ rest) = string_of_Z z +:+ rest /\
  read_sign (string_of_Z z +:+ rest) = (1, string_of_Z z +:+ rest).
Proof.
  intros Hz. destruct (string_of_Z_nonneg z Hz) as (d & Hd & -> & _).
  by apply unsigned_head.
Qed.

Lemma read_one_digit b rest acc :
  0 <= b < 10 -> stops_digits rest = true ->
  read_digits (string_of_Z b +:+ rest) acc 0 = (10 * acc + b, 1%nat, rest).
Proof.
  intros Hb Hrest.
  assert (Hcases : b = 0 \/ b = 1 \/ b = 2 \/ b = 3 \/ b = 4 \/ b = 5 \/
                   b = 6 \/ b = 7 \/ b = 8 \/ b = 9) by lia.
  repeat destruct Hcases as [->|Hcases]; try subst b;
    match goal with
    | |- context [string_of_Z ?k] =>
        let s := eval vm_compute in (string_of_Z k) in
        change (string_of_Z k) with s
    end;
    change (String ?c "" +:+ rest) with (String c rest);
    cbn [read_digits];
    match goal with
    | |- context [is_digit ?c] => change (is_digit c) with true
    end; cbv iota;
    match goal with
    | |- context [digit_val ?c] =>
        let k := eval vm_compute in (digit_val c) in
        change (digit_val c) with k
    end;
    by rewrite read_digits_stop.
Qed.

Lemma str_app_assoc (a b c : string) : (a +:+ b) +:+ c = a +:+ b +:+ c.
Proof.
  induction a as [|x a IH]; [done|].
  change (String x (a +:+ b) +:+ c = String x (a +:+ b +:+ c)).
  change (String x ((a +:+ b) +:+ c) = String x (a +:+ b +:+ c)).
  by rewrite IH.
Qed.

Lemma tenths_nonneg q : 0 <= tenths q.
Proof.
  unfold tenths. pose proof (q_den_pos q).
  apply Z.div_pos; lia.
Qed.

(** The number at the head of [q.toFixed(1)] followed by a unit. *)
Lemma parseFloat_toFixed1 q unit :
  q_num q <> 0 ->
  parseFloat (toFixed1 q +:+ " " +:+ unit)
  = FDec (Z.sgn (q_num q) * tenths q) (-1).
Proof.
  intros Hq. unfold toFixed1.
  pose proof (tenths_nonneg q) as Hm. set (m := tenths q) in *.
  assert (Ha : 0 <= m / 10) by (apply Z.div_pos; lia).
  assert (Hb : 0 <= m mod 10 < 10) by (apply Z.mod_pos_bound; lia).
  set (rest2 := String " " unit).
  set (rest1 := String "." (string_of_Z (m mod 10) +:+ rest2)).
  assert (Hs : (string_of_Z (m / 10) +:+ "." +:+ string_of_Z (m mod 10))
               +:+ " " +:+ unit
               = string_of_Z (m / 10) +:+ rest1).
  { subst rest1 rest2. by rewrite !str_app_assoc. }
  assert (Hpos : parseFloat (string_of_Z (m / 10) +:+ rest1)
                 = FDec m (-1)).
  { unfold parseFloat.
    destruct (nonneg_head (m / 10) rest1 Ha) as [-> ->].
    destruct (read_digits_string_of_Z (m / 10) rest1 0 Ha eq_refl)
      as (k & ->).
    subst rest1. cbv iota beta.
    rewrite (read_one_digit (m mod 10) rest2 (m / 10) Hb eq_refl).
    rewrite Nat.add_comm. cbn [Nat.add]. subst rest2.
    cbn [read_exponent].
    rewrite !bool_decide_eq_false_2 by discriminate. cbn [orb].
    f_equal. pose proof (Z.div_mod m 10). lia. }
  destruct (Z.ltb_spec (q_num q) 0) as [Hneg|Hnn].
  - change ("-" +:+ ?s) with (String "-" s).
    change ((String "-" ?s) +:+ ?t) with (String "-" (s +:+ t)).
    rewrite Hs. unfold parseFloat in *.
    change (trimStart (String "-" ?s)) with (String "-" s).
    cbn [read_sign].
    destruct (nonneg_head (m / 10) rest1 Ha) as [Ht Hsg].
    rewrite Ht, Hsg in Hpos.
    destruct (read_digits (string_of_Z (m / 10) +:+ rest1) 0 0)
      as [[ip n] r1].
    destruct (match r1 with String "." r' => read_digits r' ip 0
              | _ => (ip, 0%nat, r1) end) as [[mm nf] r2].
    destruct (n + nf)%nat; [done|]. injection Hpos as Hmm He.
    rewrite He. f_equal. rewrite Z.sgn_neg by lia. lia.
  - rewrite Hs, Hpos. f_equal. rewrite Z.sgn_pos by lia. lia.
Qed.

Lemma parseFloat_bytes z :
  parseFloat (string_of_Z z +:+ " B") = FDec z 0.
Proof.
  unfold parseFloat.
  destruct (Z.le_gt_cases 0 z) as [Hz|Hz].
  - destruct (nonneg_head z " B" Hz) as [-> ->].
    destruct (read_digits_string_of_Z z " B" 0 Hz eq_refl) as (k & ->).
    cbn [Nat.add read_exponent].
    rewrite !bool_decide_eq_false_2 by discriminate. cbn [orb].
    f_equal. lia.
  - rewrite (string_of_Z_neg z Hz).
    change (trimStart (String "-" (string_of_Z (- z)) +:+ " B"))
      with (String "-" (string_of_Z (- z) +:+ " B")).
    cbn [read_sign].
    destruct (read_digits_string_of_Z (- z) " B" 0 ltac:(lia) eq_refl)
      as (k & ->).
    cbn [Nat.add read_exponent].
    rewrite !bool_decide_eq_false_2 by discriminate. cbn [orb].
    f_equal. lia.
Qed.

(** What the comparator of [part_000] reads off a size text of
    [humanFileSize]: nothing for ["Unknown"], the bytes for a size under
    1024, and otherwise the quotient by [1024 ^ k] rounded to a tenth,
    with its sign; the unit is not read. *)
Theorem displayed_number_of_a_size :
  (forall x, truthy_num x = false -> parseFloat (humanFileSize x) = FNaN) /\
  (forall z, z <> 0 -> Z.abs z < 1024 ->
     parseFloat (humanFileSize (Num z)) = FDec z 0) /\
  (forall z, 1024 <= Z.abs z ->
     exists k : nat,
       (1 <= k <= 4)%nat /\
       1024 ^ Z.of_nat k <= Z.abs z /\
       ((k < 4)%nat -> Z.abs z < 1024 ^ (Z.of_nat k + 1)) /\
       parseFloat (humanFileSize (Num z))
       = FDec (Z.sgn z * tenths {| q_num := z; q_div := k |}) (-1)).
Proof.
  split; [|split].
  - intros x Hx. by rewrite humanFileSize_falsy.
  - intros z Hz Hlt. unfold humanFileSize, truthy_num, isNaN, thresh.
    destruct (Z.eqb_spec z 0); [done|]. cbn [negb orb].
    destruct (Z.ltb_spec (Z.abs z) 1024); [|lia].
    apply parseFloat_bytes.
  - intros z Hge. unfold humanFileSize, truthy_num, isNaN, thresh.
    destruct (Z.eqb_spec z 0); [lia|]. cbn [negb orb].
    destruct (Z.ltb_spec (Z.abs z) 1024); [lia|].
    destruct (do_while_divisions z) as (k & -> & Hk & Hlo & Hhi).
    exists k. split; [done|]. split; [|split; [done|]].
    + destruct (decide (k = 1%nat)) as [->|]; [|apply Hlo; lia].
      change (1024 ^ Z.of_nat 1) with 1024. lia.
    + by rewrite parseFloat_toFixed1.
Qed.

(** ** The length a probe reads *)

Lemma append_empty_r (s : string) : s +:+ "" = s.
Proof.
  induction s as [|c s IH]; [done|].
  change (String c (s +:+ "") = String c s). by rewrite IH.
Qed.

Lemma string_of_Z_nonempty z : string_of_Z z <> "".
Proof.
  destruct (Z.le_gt_cases 0 z) as [Hz|Hz].
  - by destruct (string_of_Z_digits z Hz).
  - by rewrite (string_of_Z_neg z Hz).
Qed.

Lemma match_total_digits s :
  Part000.all_digits s = true -> Part000.match_total s = None.
Proof.
  unfold Part000.all_digits.
  induction s as [|c s IH]; [done|].
  cbn [list_ascii_of_string forallb Part000.match_total].
  intros [Hc Hs]%andb_true_iff.
  rewrite bool_decide_eq_false_2; [by apply IH|].
  intros ->. discriminate.
Qed.

(** [getContentLength] on the headers a server sends, for a byte count
    [n] of magnitude up to [2 ^ 53], the integers that [parseInt]
    returns as they are.  A HEAD answer whose content-length is the
    decimal text of [n] gives [n], in every variant.  In [part_000],
    when the HEAD request throws: a content-range that ends in a slash
    and the decimal text of [n] ([bytes 0-0/12345]) gives [n], whatever
    stands before the slash; and with no content-range, a
    content-length of [n] gives [n], or [null] when [n] is zero. *)
Theorem getContentLength_reads_the_byte_count
    (v : variant) (w : World) (url : string) (log : list call) (n : Z) :
  Z.abs n <= 2 ^ 53 ->
  (forall resp,
     axios_head w url = Ok resp ->
     content_length resp = Some (string_of_Z n) ->
     getContentLength v w url log
     = (Ok (Num n), (log ++ [AxiosHead url])%list)) /\
  (forall e resp before,
     axios_head w url = Throw e ->
     axios_get w url = Ok resp ->
     content_range resp = Some (before +:+ "/" +:+ string_of_Z n) ->
     0 <= n ->
     getContentLength part_000 w url log
     = (Ok (Num n), (log ++ [AxiosHead url; AxiosGet url])%list)) /\
  (forall e resp,
     axios_head w url = Throw e ->
     axios_get w url = Ok resp ->
     truthy_ostr (content_range resp) = false ->
     content_length resp = Some (string_of_Z n) ->
     0 <= n ->
     getContentLength part_000 w url log
     = (Ok (if n =? 0 then Null else Num n),
        (log ++ [AxiosHead url; AxiosGet url])%list)).
Proof.
  intros _.
  pose proof (parseInt_string_of_Z n "" eq_refl) as Hparse.
  rewrite append_empty_r in Hparse.
  pose proof (string_of_Z_nonempty n) as Hne.
  split; [|split].
  - intros resp Hhead Hlen. rewrite getContentLength_run.
    assert (Hp : probed_length v w url = Num n).
    { unfold probed_length, head_length. rewrite Hhead, Hlen.
      cbn [truthy_ostr from_option id]. unfold id.
      rewrite truthy_str_true, Hparse by done. by destruct v. }
    rewrite Hp. by destruct v; cbn [probe_calls]; rewrite ?Hhead.
  - intros e resp before Hhead Hget Hrange Hn.
    rewrite getContentLength_run. cbn [probed_length probe_calls].
    rewrite Hhead. unfold ranged_length, or_ostr. rewrite Hget, Hrange.
    cbn [truthy_ostr from_option id]. unfold id.
    assert (Hne' : before +:+ "/" +:+ string_of_Z n <> "")
      by (apply append_nonempty_r; discriminate).
    rewrite truthy_str_true by done.
    cbn [truthy_ostr from_option]. rewrite truthy_str_true by done.
    destruct (string_of_Z_digits n Hn) as [Hd1 Hd2].
    change ("/" +:+ string_of_Z n) with (String "/" (string_of_Z n)).
    by rewrite (match_total_last before (string_of_Z n) Hd1 Hd2), Hparse.
  - intros e resp Hhead Hget Hrange Hlen Hn.
    rewrite getContentLength_run. cbn [probed_length probe_calls].
    rewrite Hhead. unfold ranged_length, or_ostr. rewrite Hget, Hrange, Hlen.
    cbn [truthy_ostr from_option id]. unfold id.
    rewrite truthy_str_true by done.
    destruct (string_of_Z_digits n Hn) as [Hd1 Hd2].
    rewrite (match_total_digits _ Hd2), Hparse.
    unfold or_null_num, truthy_num. by destruct (n =? 0).
Qed.

Lemma getContentLength_reads_the_byte_count_witness :
  (forall resp,
     axios_head online_world "https://a/1" = Ok resp ->
     content_length resp = Some (string_of_Z 5000) ->
     getContentLength server_js online_world "https://a/1" []
     = (Ok (Num 5000), ([] ++ [AxiosHead "https://a/1"])%list)) /\
  (forall e resp before,
     axios_head online_world "https://a/1" = Throw e ->
     axios_get online_world "https://a/1" = Ok resp ->
     content_range resp = Some (before +:+ "/" +:+ string_of_Z 5000) ->
     0 <= 5000 ->
     getContentLength part_000 online_world "https://a/1" []
     = (Ok (Num 5000),
        ([] ++ [AxiosHead "https://a/1"; AxiosGet "https://a/1"])%list)) /\
  (forall e resp,
     axios_head online_world "https://a/1" = Throw e ->
     axios_get online_world "https://a/1" = Ok resp ->
     truthy_ostr (content_range resp) = false ->
     content_length resp = Some (string_of_Z 5000) ->
     0 <= 5000 ->
     getContentLength part_000 online_world "https://a/1" []
     = (Ok (if 5000 =? 0 then Null else Num 5000),
        ([] ++ [AxiosHead "https://a/1"; AxiosGet "https://a/1"])%list)).
Proof.
  apply (getContentLength_reads_the_byte_count server_js online_world
           "https://a/1" [] 5000).
  vm_compute. discriminate.
Defined.

Example ranged_get_sample :
  Part000.getContentLength ranged_world "https://a/1" []
  = (Ok (Num 12345), [AxiosHead "https://a/1"; AxiosGet "https://a/1"]).
Proof. vm_compute. reflexivity. Qed.

(** ** The order of the response of [part_000] *)

Section SortedBy.
Context {A : Type} (cmp : A -> A -> Z) (R : A -> A -> Prop).
Hypothesis R_trans : forall x y z, R x y -> R y z -> R x z.
Hypothesis cmp_le : forall x y, cmp x y <= 0 -> R x y.
Hypothesis cmp_gt : forall x y, 0 < cmp x y -> R y x.

Lemma insert_sorted_by x l :
  StronglySorted R l -> StronglySorted R (insert_sorted cmp x l).
Proof.
  induction 1 as [|y l Hl IH Hy]; simpl.
  - repeat constructor.
  - destruct (Z.leb_spec (cmp x y) 0) as [Hc|Hc].
    + constructor; [by constructor|].
      constructor; [by apply cmp_le|].
      eapply Forall_impl; [exact Hy|]. intros z Hz. simpl in Hz.
      eapply R_trans; [|exact Hz]. by apply cmp_le.
    + constructor; [done|].
      rewrite insert_sorted_perm. constructor; [by apply cmp_gt|done].
Qed.

Lemma sort_by l : StronglySorted R (sort cmp l).
Proof.
  induction l as [|x l IH]; simpl; [constructor|].
  by apply insert_sorted_by.
Qed.
End SortedBy.

Lemma sign_of_difference_scale mb eb ma ea E :
  E <= ea -> E <= eb ->
  sign_of_difference (mb, eb) (ma, ea)
  = Z.sgn (mb * 10 ^ (eb - E) - ma * 10 ^ (ea - E)).
Proof.
  intros Ha Hb. unfold sign_of_difference.
  set (e := Z.min ea eb).
  assert (He : E <= e) by lia.
  replace (eb - E) with ((eb - e) + (e - E)) by lia.
  replace (ea - E) with ((ea - e) + (e - E)) by lia.
  rewrite !Z.pow_add_r by lia.
  replace (mb * (10 ^ (eb - e) * 10 ^ (e - E))
           - ma * (10 ^ (ea - e) * 10 ^ (e - E)))
    with ((mb * 10 ^ (eb - e) - ma * 10 ^ (ea - e)) * 10 ^ (e - E)) by ring.
  rewrite Z.sgn_mul.
  rewrite (Z.sgn_pos (10 ^ (e - E))) by (apply Z.pow_pos_nonneg; lia).
  lia.
Qed.

Lemma sign_of_difference_trans a b c :
  sign_of_difference b a <= 0 -> sign_of_difference c b <= 0 ->
  sign_of_difference c a <= 0.
Proof.
  destruct a as [ma ea], b as [mb eb], c as [mc ec].
  set (E := Z.min ea (Z.min eb ec)).
  rewrite (sign_of_difference_scale mb eb ma ea E) by lia.
  rewrite (sign_of_difference_scale mc ec mb eb E) by lia.
  rewrite (sign_of_difference_scale mc ec ma ea E) by lia.
  lia.
Qed.

Lemma sign_of_difference_swap a b :
  sign_of_difference a b = - sign_of_difference b a.
Proof.
  destruct a as [ma ea], b as [mb eb]. unfold sign_of_difference.
  rewrite (Z.min_comm eb ea). rewrite <- Z.sgn_opp. f_equal. lia.
Qed.

Lemma compare_mapped_before a b :
  (Part000.compare_mapped a b <= 0 -> listed_before a b) /\
  (0 < Part000.compare_mapped a b -> listed_before b a).
Proof.
  unfold Part000.compare_mapped, listed_before, shown_number.
  destruct (decide (Mapped.type a = Mapped.type b)) as [Heq|Hne].
  - rewrite bool_decide_eq_true_2 by done. cbv zeta. split.
    + intros Hle. by right.
    + intros Hgt. right. split; [done|].
      rewrite sign_of_difference_swap. lia.
  - rewrite bool_decide_eq_false_2 by done.
    destruct (Mapped.type a), (Mapped.type b); try done;
      cbn [bool_decide decide_rel rank]; simpl; split; intros; lia.
Qed.

Lemma listed_before_trans a b c :
  listed_before a b -> listed_before b c -> listed_before a c.
Proof.
  unfold listed_before.
  intros [Hab|[Hab Hnab]] [Hbc|[Hbc Hnbc]].
  - left. lia.
  - left. by rewrite <- Hbc.
  - left. by rewrite Hab.
  - right. split; [congruence|].
    by eapply sign_of_difference_trans.
Qed.

(** The response of [part_000] to a request that goes through is in
    order: videos, then audio, then images, and within one type no entry
    stands before one with a larger number at the head of its size text
    (["Unknown"] counts as zero). *)
Theorem part_000_response_is_sorted
    (w : World) (env : Env) (req : Request) (u : string) (m : Meta) :
  passes_checks part_000 w env req u ->
  cache_misses part_000 w env u ->
  extraction part_000 w u = Ok m ->
  exists payload,
    (serve (handler part_000 w env req)).1 = Response 200 (Json payload) /\
    StronglySorted listed_before (formats payload).
Proof.
  intros Hreq Hmiss Hex. exists (payload_of part_000 w m).
  rewrite (payload_of_success part_000 w env req u m Hreq Hmiss Hex)
    by done.
  split; [done|]. cbn [payload_of formats].
  apply sort_by.
  - apply listed_before_trans.
  - intros x y. apply compare_mapped_before.
  - intros x y. apply compare_mapped_before.
Qed.

Lemma part_000_response_is_sorted_witness :
  exists payload,
    (serve (handler part_000 two_videos_world plain_env sample_request)).1
    = Response 200 (Json payload) /\
    StronglySorted listed_before (formats payload).
Proof.
  apply (part_000_response_is_sorted two_videos_world plain_env
           sample_request "https://a/page" two_videos).
  - repeat split; try discriminate. by exists {| protocol := "https:" |}.
  - left. reflexivity.
  - reflexivity.
Defined.

Lemma sublist_list_filter {A} (P : A -> bool) (l : list A) :
  List.filter P l `sublist_of` l.
Proof.
  induction l as [|x l IH]; [constructor|].
  cbn [List.filter]. destruct (P x); by constructor.
Qed.

(** The response of [part_000] to a request that goes through lists
    videos, then audio, then images; its links are those of the
    candidates of [normalizeAndFilterFormats], each once; and the
    entries of one type shown with one size text stand in the order of
    their candidates. *)
Lemma part_000_order_by_type
    (w : World) (env : Env) (req : Request) (u : string) (m : Meta) :
  passes_checks part_000 w env req u ->
  cache_misses part_000 w env u ->
  extraction part_000 w u = Ok m ->
  exists payload,
    (serve (handler part_000 w env req)).1 = Response 200 (Json payload) /\
    StronglySorted
      (fun a b => rank (Mapped.type a) <= rank (Mapped.type b))
      (formats payload) /\
    map Mapped.url (formats payload)
    ≡ₚ map Cand.url
         (Part000.normalizeAndFilterFormats (new_URL w)
            (default [] (meta_formats m))) /\
    forall t size,
      map Mapped.url (List.filter (same_group t size) (formats payload))
      `sublist_of`
      map Cand.url
        (Part000.normalizeAndFilterFormats (new_URL w)
           (default [] (meta_formats m))).
Proof.
  intros Hreq Hmiss Hex. exists (payload_of part_000 w m).
  rewrite (payload_of_success part_000 w env req u m Hreq Hmiss Hex)
    by done.
  split; [done|].
  change (Part000.normalizeAndFilterFormats (new_URL w)
            (default [] (meta_formats m)))
    with (candidates part_000 w m).
  split; [|split].
  - cbn [payload_of formats].
    apply sort_key; intros x y; apply compare_mapped_rank.
  - apply payload_urls.
  - intros t size. cbn [payload_of formats].
    rewrite (sort_group Part000.compare_mapped (same_group t size)
               (compare_mapped_tie t size)).
    etrans; [apply sublist_map, sublist_list_filter|].
    rewrite map_map, (map_ext _ _ (to_mapped_url part_000)).
    unfold resolved. by rewrite fill_map_url.
Qed.

Lemma part_000_order_by_type_witness :
  exists payload,
    (serve (handler part_000 two_videos_world plain_env sample_request)).1
    = Response 200 (Json payload) /\
    StronglySorted
      (fun a b => rank (Mapped.type a) <= rank (Mapped.type b))
      (formats payload) /\
    map Mapped.url (formats payload)
    ≡ₚ map Cand.url
         (Part000.normalizeAndFilterFormats (new_URL two_videos_world)
            (default [] (meta_formats two_videos))) /\
    forall t size,
      map Mapped.url (List.filter (same_group t size) (formats payload))
      `sublist_of`
      map Cand.url
        (Part000.normalizeAndFilterFormats (new_URL two_videos_world)
           (default [] (meta_formats two_videos))).
Proof.
  apply (part_000_order_by_type two_videos_world plain_env
           sample_request "https://a/page" two_videos).
  - repeat split; try discriminate. by exists {| protocol := "https:" |}.
  - left. reflexivity.
  - reflexivity.
Defined.

(** ** The origins let in *)

Lemma split_nonempty sep s : split sep s <> [].
Proof.
  destruct s as [|c r]; [done|]. cbn [split].
  destruct (bool_decide _); [done|]. by destruct (split sep r).
Qed.

Lemma join_cons sep x y l :
  join sep (x :: y :: l) = x +:+ sep +:+ join sep (y :: l).
Proof. done. Qed.

Lemma join_head sep c piece pieces :
  join sep (String c piece :: pieces) = String c (join sep (piece :: pieces)).
Proof. by destruct pieces. Qed.

Lemma split_join sep s : join (String sep "") (split sep s) = s.
Proof.
  induction s as [|c r IH]; [done|]. cbn [split].
  destruct (bool_decide_reflect (c = sep)) as [->|Hc].
  - pose proof (split_nonempty sep r) as Hne.
    destruct (split sep r) as [|piece pieces]; [done|].
    rewrite join_cons, IH. done.
  - pose proof (split_nonempty sep r) as Hne.
    destruct (split sep r) as [|piece pieces]; [done|].
    by rewrite join_head, IH.
Qed.

Lemma includes_char_cons sep c s :
  includes (String sep "") (String c s)
  = bool_decide (c = sep) || includes (String sep "") s.
Proof.
  cbn [includes String.prefix]. f_equal.
  destruct (ascii_dec sep c) as [->|Hc].
  - rewrite bool_decide_eq_true_2 by done. by destruct s.
  - by rewrite bool_decide_eq_false_2 by congruence.
Qed.

Lemma split_no_sep sep s :
  Forall (fun piece => includes (String sep "") piece = false) (split sep s).
Proof.
  induction s as [|c r IH]; [by repeat constructor|]. cbn [split].
  destruct (bool_decide_reflect (c = sep)) as [->|Hc].
  - by constructor.
  - pose proof (split_nonempty sep r) as Hne.
    destruct (split sep r) as [|piece pieces]; [done|].
    inversion IH as [|? ? Hp Hps]; subst. constructor; [|done].
    rewrite includes_char_cons, Hp. by rewrite bool_decide_eq_false_2.
Qed.

Lemma array_includes_elem l s : array_includes l s = true <-> s ∈ l.
Proof.
  unfold array_includes. rewrite existsb_exists. split.
  - intros (x & Hx & ->%String.eqb_eq). by apply list_elem_of_In.
  - intros Hs. exists s. split; [by apply list_elem_of_In|].
    apply String.eqb_refl.
Qed.

Lemma indexOf_from_elem i l s :
  0 <= i -> (indexOf_from i l s = -1 <-> s ∉ l) /\ (-1 <= indexOf_from i l s).
Proof.
  revert i. induction l as [|x l IH]; intros i Hi.
  - cbn [indexOf_from]. split; [|lia]. split; [intros _|done].
    apply not_elem_of_nil.
  - cbn [indexOf_from]. destruct (String.eqb_spec x s) as [->|Hx].
    + split; [|lia]. split; [lia|]. intros H. destruct H. left.
    + destruct (IH (i + 1) ltac:(lia)) as [IH1 IH2]. split; [|done].
      rewrite IH1, not_elem_of_cons. split; [by intros ?; split|tauto].
Qed.

Lemma filter_truthy_elem (l : list string) s :
  s ∈ List.filter truthy_str l <-> s <> "" /\ s ∈ l.
Proof.
  rewrite !list_elem_of_In, filter_In.
  pose proof (truthy_str_nonempty s) as H. tauto.
Qed.

Lemma filter_truthy_nil (l : list string) :
  List.filter truthy_str l = [] <-> forall s, s ∈ l -> s = "".
Proof.
  split.
  - intros Hnil s Hs. destruct (decide (s = "")) as [|Hne]; [done|].
    assert (Hin : s ∈ List.filter truthy_str l)
      by (by apply filter_truthy_elem).
    rewrite Hnil in Hin. by apply not_elem_of_nil in Hin.
  - intros Hall. destruct (List.filter truthy_str l) as [|x r] eqn:Hf; [done|].
    assert (Hin : x ∈ List.filter truthy_str l)
      by (rewrite Hf; left).
    apply filter_truthy_elem in Hin as [Hne Hin]. by apply Hall in Hin.
Qed.

(** The allowed origins, as configured.  The pieces that [split] cuts
    the variable into hold no comma and give the text back when joined
    by commas.  [src/server.js] and [part_000] keep the non-empty pieces
    (so a text of commas only leaves none), [part_001] keeps them all,
    and has the one entry [*] when the variable is unset or empty, where
    the other two have none. *)
Theorem allowed_origins_are_the_pieces (text : option string) :
  let configured := default "" (or_ostr text (Some "")) in
  let pieces := split "," configured in
  join "," pieces = configured /\
  Forall (fun piece => includes "," piece = false) pieces /\
  (forall s, s ∈ Server.ALLOWED_ORIGINS text <-> s <> "" /\ s ∈ pieces) /\
  Part000.ALLOWED_ORIGINS text = Server.ALLOWED_ORIGINS text /\
  (Server.ALLOWED_ORIGINS text = []
   <-> forall piece, piece ∈ pieces -> piece = "") /\
  join "," (Part001.ALLOWED_ORIGINS text)
  = default "" (or_ostr text (Some "*")) /\
  Forall (fun piece => includes "," piece = false)
    (Part001.ALLOWED_ORIGINS text) /\
  Part001.ALLOWED_ORIGINS text <> [] /\
  (truthy_ostr text = true -> Part001.ALLOWED_ORIGINS text = pieces) /\
  (truthy_ostr text = false ->
   Server.ALLOWED_ORIGINS text = [] /\ Part001.ALLOWED_ORIGINS text = ["*"]).
Proof.
  intros configured pieces.
  split; [apply (split_join ",")|].
  split; [apply (split_no_sep ",")|].
  split; [intros s; apply filter_truthy_elem|].
  split; [done|].
  split; [apply filter_truthy_nil|].
  split; [apply (split_join ",")|].
  split; [apply (split_no_sep ",")|].
  split; [apply split_nonempty|].
  split.
  - intros Ht. subst pieces configured.
    unfold Part001.ALLOWED_ORIGINS, or_ostr. by rewrite Ht.
  - intros Ht.
    unfold Server.ALLOWED_ORIGINS, Part001.ALLOWED_ORIGINS, or_ostr.
    by rewrite Ht.
Qed.

Lemma server_cors_allows text origin :
  Server.cors_origin text origin = Ok true
  <-> truthy_ostr origin = false \/ Server.ALLOWED_ORIGINS text = [] \/
      exists o, origin = Some o /\ o ∈ Server.ALLOWED_ORIGINS text.
Proof.
  unfold Server.cors_origin. cbv zeta.
  destruct (truthy_ostr origin) eqn:Ho; cbn [negb orb]; [|by split; auto].
  destruct (Server.ALLOWED_ORIGINS text) as [|x l] eqn:Hl;
    cbn [length Nat.eqb orb]; [by split; auto|].
  destruct origin as [o|]; [|done].
  destruct (array_includes (x :: l) o) eqn:Hinc.
  - apply array_includes_elem in Hinc. split; [|done]. eauto.
  - split; [done|]. intros [?|[?|(o' & [= <-] & Hin)]]; try done.
    apply array_includes_elem in Hin. congruence.
Qed.

(** The [origin] functions of [src/server.js] and [part_000] decide
    alike, though written differently ([includes] in one condition,
    [indexOf] in a chain of returns): a request is let in when it has no
    origin (or an empty one), when no origin is configured, or when its
    origin is one of those configured, compared as it stands; any other
    is refused with the error ["CORS policy: This origin is not
    allowed"].  With the variable unset every request is let in. *)
Theorem cors_of_server_js_and_part_000
    (text origin : option string) :
  Part000.cors_origin text origin = Server.cors_origin text origin /\
  (Server.cors_origin text origin = Ok true
   <-> truthy_ostr origin = false \/ Server.ALLOWED_ORIGINS text = [] \/
       exists o, origin = Some o /\ o ∈ Server.ALLOWED_ORIGINS text) /\
  (Server.cors_origin text origin <> Ok true ->
   Server.cors_origin text origin
   = Throw "CORS policy: This origin is not allowed") /\
  (truthy_ostr text = false -> Server.cors_origin text origin = Ok true).
Proof.
  split; [|split; [apply server_cors_allows|split]].
  - unfold Part000.cors_origin, Server.cors_origin. cbv zeta.
    change (Part000.ALLOWED_ORIGINS text) with (Server.ALLOWED_ORIGINS text).
    destruct (truthy_ostr origin) eqn:Ho; cbn [negb orb]; [|done].
    destruct (length (Server.ALLOWED_ORIGINS text) =? 0)%nat;
      cbn [orb]; [done|].
    destruct origin as [o|]; [|done]. unfold indexOf.
    destruct (indexOf_from_elem 0 (Server.ALLOWED_ORIGINS text) o
                ltac:(lia)) as [Hidx _].
    destruct (array_includes (Server.ALLOWED_ORIGINS text) o) eqn:Hinc.
    + apply array_includes_elem in Hinc.
      destruct (Z.eqb_spec (indexOf_from 0 (Server.ALLOWED_ORIGINS text) o)
                  (-1)) as [Heq|Hneq]; [|done].
      by apply Hidx in Heq.
    + destruct (Z.eqb_spec (indexOf_from 0 (Server.ALLOWED_ORIGINS text) o)
                  (-1)) as [Heq|Hneq]; [done|].
      exfalso. apply Hneq, Hidx. intros Hin.
      apply array_includes_elem in Hin. congruence.
  - unfold Server.cors_origin. cbv zeta.
    by destruct (_ || _).
  - intros Ht. apply server_cors_allows. right. left.
    unfold Server.ALLOWED_ORIGINS, or_ostr. by rewrite Ht.
Qed.

(** The [origin] function of [part_001]: a request is let in when it
    has no origin, when [*] is configured, or when its origin is
    configured; any other is refused with ["CORS not allowed"].  With
    the variable unset every request is let in.  A variable made of
    commas only lets every origin in in [src/server.js], and none in
    [part_001]. *)
Theorem cors_of_part_001 (text origin : option string) :
  (Part001.cors_origin text origin = Ok true
   <-> truthy_ostr origin = false \/ "*" ∈ Part001.ALLOWED_ORIGINS text \/
       exists o, origin = Some o /\ o ∈ Part001.ALLOWED_ORIGINS text) /\
  (Part001.cors_origin text origin <> Ok true ->
   Part001.cors_origin text origin = Throw "CORS not allowed") /\
  (truthy_ostr text = false -> Part001.cors_origin text origin = Ok true) /\
  (truthy_ostr text = true -> truthy_ostr origin = true ->
   Server.ALLOWED_ORIGINS text = [] ->
   Server.cors_origin text origin = Ok true /\
   Part001.cors_origin text origin = Throw "CORS not allowed").
Proof.
  assert (Hiff : Part001.cors_origin text origin = Ok true
            <-> truthy_ostr origin = false \/
                "*" ∈ Part001.ALLOWED_ORIGINS text \/
                exists o, origin = Some o /\
                          o ∈ Part001.ALLOWED_ORIGINS text).
  { unfold Part001.cors_origin. cbv zeta.
    destruct (truthy_ostr origin) eqn:Ho; cbn [negb orb]; [|by split; auto].
    destruct (array_includes (Part001.ALLOWED_ORIGINS text) "*") eqn:Hstar;
      cbn [orb].
    { apply array_includes_elem in Hstar. by split; auto. }
    destruct origin as [o|]; [|done].
    destruct (array_includes (Part001.ALLOWED_ORIGINS text) o) eqn:Hinc.
    - apply array_includes_elem in Hinc. split; [|done]. eauto.
    - split; [done|]. intros [?|[Hin|(o' & [= <-] & Hin)]]; try done;
        apply array_includes_elem in Hin; congruence. }
  assert (Hthrow : Part001.cors_origin text origin <> Ok true ->
            Part001.cors_origin text origin = Throw "CORS not allowed").
  { unfold Part001.cors_origin. cbv zeta. by destruct (_ || _). }
  split; [done|]. split; [done|]. split.
  - intros Ht. apply Hiff. right. left.
    unfold Part001.ALLOWED_ORIGINS, or_ostr. rewrite Ht. left.
  - intros Ht Ho Hnil. split.
    + apply server_cors_allows. auto.
    + apply Hthrow. rewrite Hiff.
      assert (Hall : forall s, s ∈ Part001.ALLOWED_ORIGINS text -> s = "").
      { apply filter_truthy_nil.
        unfold Server.ALLOWED_ORIGINS, Part001.ALLOWED_ORIGINS, or_ostr in *.
        by rewrite Ht in *. }
      intros [?|[Hin|(o & -> & Hin)]]; [congruence| |].
      * by apply Hall in Hin.
      * apply Hall in Hin as ->. done.
Qed.

(** ** The links of the response *)

Lemma candidate_url_elem v new_URL raws u :
  u ∈ map Cand.url (normalizer v new_URL raws)
  <-> accepts v new_URL u = true /\
      exists f, Some f ∈ raws /\ Raw.url f = Some u.
Proof.
  rewrite normalizer_for_of.
  destruct (normalizer_inv v new_URL raws) as [Hseen _ Hfirst Hall].
  split.
  - intros (c & -> & Hc)%list_elem_of_fmap.
    destruct (Hfirst c Hc) as (Hacc & i & f & (Hi & Hu & _) & _).
    split; [done|]. exists f. split; [|done].
    by eapply list_elem_of_lookup_2.
  - intros (Hacc & f & Hf & Hu). apply Hseen. by apply (Hall f u).
Qed.

Lemma accepts_parsed v new_URL u :
  accepts v new_URL u = true ->
  u <> "" /\
  exists p, new_URL u = Ok p /\
            (v <> part_001 -> protocol p = "http:" \/ protocol p = "https:").
Proof.
  unfold accepts. intros [Hne Hp]%andb_true_iff.
  split; [by apply truthy_str_nonempty|].
  destruct (new_URL u) as [p|e]; [|done].
  exists p. split; [done|]. intros Hv. apply array_includes_web.
  by destruct v.
Qed.

(** The links a request that goes through is answered with are exactly
    the urls that the records printed by the extractor carry and that
    the variant accepts.  So every link of such an answer is non-empty,
    parses as a url, was printed by the extractor and, in
    [src/server.js] and [part_000], has the protocol http: or https:;
    and no accepted url of the extractor's output is missing from the
    answer. *)
Theorem links_of_the_response
    (v : variant) (w : World) (env : Env) (req : Request)
    (u : string) (m : Meta) :
  passes_checks v w env req u ->
  cache_misses v w env u ->
  extraction v w u = Ok m ->
  (v <> part_000 -> cache_stores v w env u) ->
  exists payload,
    (serve (handler v w env req)).1 = Response 200 (Json payload) /\
    (forall link,
       link ∈ map Mapped.url (formats payload) <->
       accepts v (new_URL w) link = true /\
       exists f, Some f ∈ default [] (meta_formats m) /\
                 Raw.url f = Some link) /\
    (forall entry, entry ∈ formats payload ->
       Mapped.url entry <> "" /\
       exists p, new_URL w (Mapped.url entry) = Ok p /\
                 (v <> part_001 ->
                  protocol p = "http:" \/ protocol p = "https:")).
Proof.
  intros Hreq Hmiss Hex Hstore. exists (payload_of v w m).
  rewrite (payload_of_success v w env req u m Hreq Hmiss Hex Hstore).
  split; [done|].
  assert (Hlinks : forall link,
            link ∈ map Mapped.url (formats (payload_of v w m)) <->
            accepts v (new_URL w) link = true /\
            exists f, Some f ∈ default [] (meta_formats m) /\
                      Raw.url f = Some link).
  { intros link. rewrite payload_urls. apply candidate_url_elem. }
  split; [done|]. intros entry Hentry.
  apply accepts_parsed, (Hlinks (Mapped.url entry)).
  apply list_elem_of_fmap. by exists entry.
Qed.

Lemma links_of_the_response_witness :
  exists payload,
    (serve (handler server_js offline_world plain_env sample_request)).1
    = Response 200 (Json payload) /\
    (forall link,
       link ∈ map Mapped.url (formats payload) <->
       accepts server_js (new_URL offline_world) link = true /\
       exists f, Some f ∈ default [] (meta_formats sample_meta) /\
                 Raw.url f = Some link) /\
    (forall entry, entry ∈ formats payload ->
       Mapped.url entry <> "" /\
       exists p, new_URL offline_world (Mapped.url entry) = Ok p /\
                 (server_js <> part_001 ->
                  protocol p = "http:" \/ protocol p = "https:")).
Proof.
  apply (links_of_the_response server_js offline_world plain_env
           sample_request "https://a/page" sample_meta).
  - repeat split; try discriminate. by exists {| protocol := "https:" |}.
  - left. reflexivity.
  - reflexivity.
  - intros _. left. reflexivity.
Defined.
